(** * kube-hunter: the kubelet hunters

    A shallow embedding of [kube_hunter/modules/hunting/kubelet.py]: the
    vulnerability classes, the endpoint catalogue [KubeletHandlers], the two
    probers [ReadOnlyKubeletPortHunter] and [SecureKubeletPortHunter] with
    the [DebugHandlers] battery, and the three active hunters
    [ProveRunHandler], [ProveContainerLogsHandler] and [ProveSystemLogs].

    Conventions.
    - A Python [str] is the list of its code points ([pystr]).
    - Values produced by [response.json()] are the type [json]; an object
      is the association list of the parsed [dict] (distinct keys, in
      insertion order).
    - Code that can raise returns a [result]; a generator that performs
      requests and yields events is a [Run]: the requests it sent, the
      events it yielded before finishing or raising, and its outcome. *)

From Stdlib Require Import List String Ascii ZArith NArith Bool Lia DecimalString.
From Stdlib Require QArith.QArith_base.
Import ListNotations.

Set Implicit Arguments.
Local Open Scope Z_scope.

(* ================================================================== *)
(** ** Python strings *)
(* ================================================================== *)

Definition pystr := list N.

(** The [str] written by an ASCII literal of the source. *)
Definition u (s : string) : pystr := map N_of_ascii (list_ascii_of_string s).
Arguments u s%_string.

Definition ch (a : ascii) : N := N_of_ascii a.
Arguments ch a%_char.

Fixpoint str_eqb (a b : pystr) : bool :=
  match a, b with
  | [], [] => true
  | x :: a', y :: b' => (x =? y)%N && str_eqb a' b'
  | _, _ => false
  end.

Definition nonempty {A} (l : list A) : bool :=
  match l with [] => false | _ :: _ => true end.

(** [s.startswith(p)] *)
Fixpoint startswith (p s : pystr) : bool :=
  match p, s with
  | [], _ => true
  | a :: p', b :: s' => (a =? b)%N && startswith p' s'
  | _ :: _, [] => false
  end.

(** [sub in s] *)
Fixpoint contains (sub s : pystr) : bool :=
  startswith sub s ||
  match s with
  | [] => false
  | _ :: s' => contains sub s'
  end.

(** [s.find(sub)]: the lowest index where [sub] starts, or -1. *)
Fixpoint find (sub s : pystr) : Z :=
  if startswith sub s then 0
  else match s with
       | [] => -1
       | _ :: s' => let r := find sub s' in if r <? 0 then -1 else r + 1
       end.

(** [s[lo:hi]] with Python's treatment of negative and out-of-range
    bounds. *)
Definition py_slice (s : pystr) (lo hi : Z) : pystr :=
  let n := Z.of_nat (List.length s) in
  let clamp i := if i <? 0 then Z.max (i + n) 0 else Z.min i n in
  let a := clamp lo in
  let b := clamp hi in
  firstn (Z.to_nat (b - a)) (skipn (Z.to_nat a) s).

(** [s.split(sep)] for a one-character separator, the only kind the
    source uses. *)
Fixpoint split (sep : N) (s : pystr) : list pystr :=
  match s with
  | [] => [[]]
  | c :: s' =>
      if (c =? sep)%N then [] :: split sep s'
      else match split sep s' with
           | [] => [[c]]
           | w :: ws => (c :: w) :: ws
           end
  end.

Definition mem (c : N) (cs : pystr) : bool := existsb (N.eqb c) cs.

Fixpoint lstrip (cs s : pystr) : pystr :=
  match s with
  | [] => []
  | c :: s' => if mem c cs then lstrip cs s' else s
  end.

Definition rstrip (cs s : pystr) : pystr := rev (lstrip cs (rev s)).

(** [s.strip(cs)] *)
Definition strip (cs s : pystr) : pystr := rstrip cs (lstrip cs s).

(** [s.replace(old, new)] for a one-character [old]. *)
Definition replace (old : N) (new : pystr) (s : pystr) : pystr :=
  flat_map (fun c => if (c =? old)%N then new else [c]) s.

(** [str(n)] for an [int]. *)
Definition str_of_nat (n : nat) : pystr :=
  u (NilZero.string_of_uint (Nat.to_uint n)).

Definition str_of_Z (z : Z) : pystr :=
  u (NilZero.string_of_int (Z.to_int z)).

(* ================================================================== *)
(** ** Exceptions and results *)
(* ================================================================== *)

(** The exception classes that the modelled code can meet; every one is a
    subclass of [Exception].  [TransportError] stands for the
    [requests.RequestException] family (connection refused, timeout, TLS
    failure). *)
Inductive Exn :=
| TransportError
| JSONDecodeError
| ValueError
| KeyError
| TypeError
| AttributeError
| IndexError
| UnicodeDecodeError.

Inductive result (A : Type) :=
| Ok (a : A)
| Raise (e : Exn).
Arguments Ok {A} a.
Arguments Raise {A} e.

Definition rbind {A B} (r : result A) (k : A -> result B) : result B :=
  match r with
  | Ok a => k a
  | Raise e => Raise e
  end.

Declare Scope result_scope.
Delimit Scope result_scope with result.
Notation "x <- r ;; k" := (rbind r (fun x => k))
  (at level 61, r at next level, right associativity) : result_scope.

(* ================================================================== *)
(** ** JSON values and the Python operations applied to them *)
(* ================================================================== *)

#[warnings="-register-all"]
Inductive json :=
| JNull
| JBool (b : bool)
| JInt (z : Z)
| JFloat (q : QArith_base.Q)
| JStr (s : pystr)
| JArr (items : list json)
| JObj (fields : list (pystr * json)).

(** Truth value of a parsed value, as tested by [if x:]. *)
Definition truthy (j : json) : bool :=
  match j with
  | JNull => false
  | JBool b => b
  | JInt z => negb (z =? 0)
  | JFloat q => negb (QArith_base.Qeq_bool q (QArith_base.Qmake 0 1))
  | JStr s => nonempty s
  | JArr l => nonempty l
  | JObj l => nonempty l
  end.

(** Truth value of "a value or [None]". *)
Definition truthy_opt (o : option json) : bool :=
  match o with
  | None => false
  | Some j => truthy j
  end.

Fixpoint lookup (k : pystr) (fields : list (pystr * json)) : option json :=
  match fields with
  | [] => None
  | (k', v) :: rest => if str_eqb k k' then Some v else lookup k rest
  end.

(** [x[k]] for a string key [k]: only a [dict] can be indexed by a
    string. *)
Definition getitem (x : json) (k : pystr) : result json :=
  match x with
  | JObj fields =>
      match lookup k fields with
      | Some v => Ok v
      | None => Raise KeyError
      end
  | _ => Raise TypeError
  end.

(** [x.get(k, default)]: only a [dict] has the method. *)
Definition dict_get (x : json) (k : pystr) (default : json) : result json :=
  match x with
  | JObj fields =>
      match lookup k fields with
      | Some v => Ok v
      | None => Ok default
      end
  | _ => Raise AttributeError
  end.

(** The elements produced by [for e in x] / [iter(x)]. *)
Definition py_iter (x : json) : result (list json) :=
  match x with
  | JArr l => Ok l
  | JObj fields => Ok (map (fun kv => JStr (fst kv)) fields)
  | JStr s => Ok (map (fun c => JStr [c]) s)
  | _ => Raise TypeError
  end.

(** [len(x)] *)
Definition py_len (x : json) : result nat :=
  match x with
  | JArr l => Ok (List.length l)
  | JObj fields => Ok (List.length fields)
  | JStr s => Ok (List.length s)
  | _ => Raise TypeError
  end.

(** [x == s] for a string literal [s]. *)
Definition eq_str (x : json) (s : pystr) : bool :=
  match x with
  | JStr t => str_eqb t s
  | _ => false
  end.

(** The part of the Python runtime that is left abstract: [repr] of the
    values whose rendering follows the interpreter's quoting rules, and
    the Unicode database's answer to "is this non-ASCII code point a word
    character". *)
Record Runtime := {
  py_repr : json -> pystr;
  unicode_word : N -> bool
}.

(** [str(x)], which an f-string or [str.format] applies to a field. *)
Definition py_str (rt : Runtime) (x : json) : pystr :=
  match x with
  | JStr s => s
  | JNull => u "None"
  | JBool true => u "True"
  | JBool false => u "False"
  | JInt z => str_of_Z z
  | _ => py_repr rt x
  end.

(* ================================================================== *)
(** ** Vulnerability classes *)
(* ================================================================== *)

Inductive Component := Kubelet | KubernetesCluster.
Inductive Category := InformationDisclosure | RemoteCodeExec | AccessRisk.

Inductive VulnClass :=
| ClsExposedPodsHandler
| ClsAnonymousAuthEnabled
| ClsExposedContainerLogsHandler
| ClsExposedRunningPodsHandler
| ClsExposedExecHandler
| ClsExposedRunHandler
| ClsExposedPortForwardHandler
| ClsExposedAttachHandler
| ClsExposedHealthzHandler
| ClsPrivilegedContainers
| ClsExposedSystemLogs
| ClsExposedKubeletCmdline.

(** The attribute a subclass sets on itself after the base constructor
    has run ([self.pods = pods], [self.count = count], ...). *)
Inductive Payload :=
| NoPayload
| Pods (pods : json)
| Count (count : nat)
| Status (status : pystr)
| Containers (containers : list (json * json))
| Cmdline (cmdline : pystr).

Record Vulnerability := mkVulnerability {
  cls : VulnClass;
  name : pystr;
  component : Component;
  category : Category;
  vid : option pystr;
  evidence : option pystr;
  payload : Payload
}.

(** Modelled from the spec: the base class [Vulnerability] of
    [kube_hunter.core.types] is not part of the sources.  Its constructor
    stores the label, the affected component, the risk category, the
    identifier "or absent" and the free-text evidence, which stays unset
    when the subclass passes none. *)
Definition Vulnerability_init (c : VulnClass) (nm : pystr) (comp : Component)
    (cat : Category) (id : option pystr) (ev : option pystr) : Vulnerability :=
  mkVulnerability c nm comp cat id ev NoPayload.

Definition set_payload (v : Vulnerability) (p : Payload) : Vulnerability :=
  mkVulnerability (cls v) (name v) (component v) (category v) (vid v)
                  (evidence v) p.

Definition set_evidence (v : Vulnerability) (ev : pystr) : Vulnerability :=
  mkVulnerability (cls v) (name v) (component v) (category v) (vid v)
                  (Some ev) (payload v).

Definition ExposedPodsHandler (pods : json) : result Vulnerability :=
  (n <- py_len pods ;;
   Ok (set_payload
         (Vulnerability_init ClsExposedPodsHandler (u "Exposed Pods") Kubelet
            InformationDisclosure None
            (Some (u "count: " ++ str_of_nat n)))
         (Pods pods)))%result.

Definition AnonymousAuthEnabled : Vulnerability :=
  Vulnerability_init ClsAnonymousAuthEnabled (u "Anonymous Authentication")
    Kubelet RemoteCodeExec (Some (u "KHV036")) None.

Definition ExposedContainerLogsHandler : Vulnerability :=
  Vulnerability_init ClsExposedContainerLogsHandler
    (u "Exposed Container Logs") Kubelet InformationDisclosure
    (Some (u "KHV037")) None.

Definition ExposedRunningPodsHandler (count : nat) : Vulnerability :=
  set_payload
    (Vulnerability_init ClsExposedRunningPodsHandler (u "Exposed Running Pods")
       Kubelet InformationDisclosure (Some (u "KHV038"))
       (Some (str_of_nat count ++ u " running pods")))
    (Count count).

Definition ExposedExecHandler : Vulnerability :=
  Vulnerability_init ClsExposedExecHandler (u "Exposed Exec On Container")
    Kubelet RemoteCodeExec (Some (u "KHV039")) None.

Definition ExposedRunHandler : Vulnerability :=
  Vulnerability_init ClsExposedRunHandler (u "Exposed Run Inside Container")
    Kubelet RemoteCodeExec (Some (u "KHV040")) None.

Definition ExposedPortForwardHandler : Vulnerability :=
  Vulnerability_init ClsExposedPortForwardHandler (u "Exposed Port Forward")
    Kubelet RemoteCodeExec (Some (u "KHV041")) None.

Definition ExposedAttachHandler : Vulnerability :=
  Vulnerability_init ClsExposedAttachHandler
    (u "Exposed Attaching To Container") Kubelet RemoteCodeExec
    (Some (u "KHV042")) None.

Definition ExposedHealthzHandler (status : pystr) : Vulnerability :=
  set_payload
    (Vulnerability_init ClsExposedHealthzHandler
       (u "Cluster Health Disclosure") Kubelet InformationDisclosure
       (Some (u "KHV043")) (Some (u "status: " ++ status)))
    (Status status).

(** [containers[0]] raises [IndexError] on an empty list. *)
Definition PrivilegedContainers (rt : Runtime)
    (containers : list (json * json)) : result Vulnerability :=
  match containers with
  | [] => Raise IndexError
  | (pod0, container0) :: _ =>
      Ok (set_payload
            (Vulnerability_init ClsPrivilegedContainers
               (u "Privileged Container") KubernetesCluster AccessRisk
               (Some (u "KHV044"))
               (Some (u "pod: " ++ py_str rt pod0 ++ u ", container: "
                        ++ py_str rt container0 ++ u ", count: "
                        ++ str_of_nat (List.length containers))))
            (Containers containers))
  end.

Definition ExposedSystemLogs : Vulnerability :=
  Vulnerability_init ClsExposedSystemLogs (u "Exposed System Logs") Kubelet
    InformationDisclosure (Some (u "KHV045")) None.

Definition ExposedKubeletCmdline (cmdline : pystr) : Vulnerability :=
  set_payload
    (Vulnerability_init ClsExposedKubeletCmdline (u "Exposed Kubelet Cmdline")
       Kubelet InformationDisclosure (Some (u "KHV046"))
       (Some (u "cmdline: " ++ cmdline)))
    (Cmdline cmdline).

(** What a hunter yields.  [K8sVersionDisclosure] is imported from
    [kube_hunter.core.events]; the hunter only passes it three arguments,
    which is all that is recorded of it. *)
Inductive Event :=
| Vuln (v : Vulnerability)
| K8sVersionDisclosure (version from_endpoint extra_info : pystr).

(* ================================================================== *)
(** ** The endpoint catalogue *)
(* ================================================================== *)

Inductive KubeletHandlers :=
| PODS
| CONTAINERLOGS
| RUNNINGPODS
| EXEC
| RUN
| PORTFORWARD
| ATTACH
| LOGS
| PPROF_CMDLINE.

Definition value (h : KubeletHandlers) : pystr :=
  match h with
  | PODS => u "pods"
  | CONTAINERLOGS => u "containerLogs/{pod_namespace}/{pod_id}/{container_name}"
  | RUNNINGPODS => u "runningpods"
  | EXEC => u "exec/{pod_namespace}/{pod_id}/{container_name}?command={cmd}&input=1&output=1&tty=1"
  | RUN => u "run/{pod_namespace}/{pod_id}/{container_name}?cmd={cmd}"
  | PORTFORWARD => u "portForward/{pod_namespace}/{pod_id}?port={port}"
  | ATTACH => u "attach/{pod_namespace}/{pod_id}/{container_name}?command={cmd}&input=1&output=1&tty=1"
  | LOGS => u "logs/{path}"
  | PPROF_CMDLINE => u "debug/pprof/cmdline"
  end.

Fixpoint kw_lookup (k : pystr) (kwargs : list (pystr * pystr)) : option pystr :=
  match kwargs with
  | [] => None
  | (k', v) :: rest => if str_eqb k k' then Some v else kw_lookup k rest
  end.

(** [template.format(name=value, ...)] for templates whose replacement fields
    are plain names, as in the catalogue: text outside braces is copied,
    [{name}] becomes the already rendered keyword argument.  [field] holds
    the name being read while inside braces. *)
Fixpoint format_from (kwargs : list (pystr * pystr)) (field : option pystr)
    (template : pystr) : result pystr :=
  match template with
  | [] =>
      match field with
      | None => Ok []
      | Some _ => Raise ValueError
      end
  | c :: rest =>
      match field with
      | None =>
          if (c =? ch "{")%N then format_from kwargs (Some []) rest
          else if (c =? ch "}")%N then Raise ValueError
          else (r <- format_from kwargs None rest ;; Ok (c :: r))%result
      | Some f =>
          if (c =? ch "}")%N then
            match kw_lookup f kwargs with
            | Some v => (r <- format_from kwargs None rest ;; Ok (v ++ r))%result
            | None => Raise KeyError
            end
          else format_from kwargs (Some (f ++ [c])) rest
      end
  end.

Definition format (template : pystr) (kwargs : list (pystr * pystr))
  : result pystr :=
  format_from kwargs None template.

(* ================================================================== *)
(** ** Transport, configuration and runs *)
(* ================================================================== *)

(** A GET request as the hunters issue it: the URL, the headers set by
    the hunter (those of the session followed by those of the call) and
    the transport switches.  The timeout is the configured
    [network_timeout] in every call. *)
Record Request := mkRequest {
  url : pystr;
  headers : list (pystr * pystr);
  verify : bool;
  allow_redirects : bool;
  stream : bool
}.

(** The response object: [status_code], [text] and what [json()] gives. *)
Record Response := mkResponse {
  status_code : Z;
  text : pystr;
  json_body : result json
}.

(** The HTTP library and the probed agent: a request is answered or
    raises.  No run sends the same request twice, so a function of the
    request describes every agent, also one whose answers change. *)
Definition Transport := Request -> result Response.

(** [get_config()]: the self-test flag [pod]. *)
Record Config := mkConfig {
  pod : bool
}.

Record Session := mkSession {
  session_headers : list (pystr * pystr)
}.

Record Run (A : Type) := mkRun {
  requests : list Request;
  yielded : list Event;
  outcome : result A
}.

Definition ret {A} (a : A) : Run A := mkRun [] [] (Ok a).

Definition raise {A} (e : Exn) : Run A := mkRun [] [] (Raise e).

Definition lift {A} (r : result A) : Run A := mkRun [] [] r.

Definition yield (ev : Event) : Run unit := mkRun [] [ev] (Ok tt).

Definition bind {A B} (m : Run A) (k : A -> Run B) : Run B :=
  match outcome m with
  | Ok a =>
      let m' := k a in
      mkRun (requests m ++ requests m') (yielded m ++ yielded m') (outcome m')
  | Raise e => mkRun (requests m) (yielded m) (Raise e)
  end.

Declare Scope run_scope.
Delimit Scope run_scope with run.
Notation "x <- m ;; k" := (bind m (fun x => k))
  (at level 61, m at next level, right associativity) : run_scope.
Notation "m ;; k" := (bind m (fun _ => k))
  (at level 61, right associativity) : run_scope.

(** [if c: body] inside a generator. *)
Definition when (c : bool) (body : Run unit) : Run unit :=
  if c then body else ret tt.

(** [try: body / except Exception: logger.debug(...)] *)
Definition try_except (body : Run unit) : Run unit :=
  mkRun (requests body) (yielded body)
        (match outcome body with
         | Ok _ => Ok tt
         | Raise _ => Ok tt
         end).

(** [requests.get(url, ...)] *)
Definition requests_get (net : Transport) (req : Request) : Run Response :=
  mkRun [req] [] (net req).

(** [session.get(url, headers=h, ...)] *)
Definition session_get (net : Transport) (s : Session) (target : pystr)
    (h : list (pystr * pystr)) (vfy redirects strm : bool) : Run Response :=
  requests_get net (mkRequest target (session_headers s ++ h) vfy redirects strm).

(* ================================================================== *)
(** ** ReadOnlyKubeletPortHunter *)
(* ================================================================== *)

Record ReadOnlyKubeletEvent := mkReadOnlyKubeletEvent {
  ro_host : pystr;
  ro_port : Z
}.

(** The two characters that the source passes as one-character strings
    and that are written here by code point: the double quote given to
    [strip] and the newline given to [split]. *)
Definition dquote : N := 34.
Definition newline : N := 10.

Module ReadOnlyKubeletPortHunter.

Record t := mk {
  event : ReadOnlyKubeletEvent;
  path : pystr;
  pods_endpoint_data : option json
}.

Definition init (ev : ReadOnlyKubeletEvent) : t :=
  mk ev (u "http://" ++ ro_host ev ++ u ":" ++ str_of_Z (ro_port ev))
     (Some (JStr [])).

Definition set_pods_endpoint_data (self : t) (d : option json) : t :=
  mk (event self) (path self) d.

(** The inner loop of [get_k8s_version]: [Ok (Some v)] is [return v],
    [Ok None] is the loop running to its end; [k, v = info.split("=")]
    raises [ValueError] unless the split gives exactly two parts. *)
Fixpoint scan_labels (infos : list pystr) : result (option pystr) :=
  match infos with
  | [] => Ok None
  | info :: rest =>
      match split (ch "=") info with
      | [k; v] =>
          if str_eqb k (u "gitVersion") then Ok (Some (strip [dquote] v))
          else scan_labels rest
      | _ => Raise ValueError
      end
  end.

(** [line[line.find("{") + 1 : line.find("}")].split(",")] *)
Definition labels_of (line : pystr) : list pystr :=
  split (ch ",") (py_slice line (find (u "{") line + 1) (find (u "}") line)).

(** The outer loop: falling off its end is the implicit [return None]. *)
Fixpoint scan_lines (lines : list pystr) : result (option pystr) :=
  match lines with
  | [] => Ok None
  | line :: rest =>
      if startswith (u "kubernetes_build_info") line then
        match scan_labels (labels_of line) with
        | Ok (Some v) => Ok (Some v)
        | Ok None => scan_lines rest
        | Raise e => Raise e
        end
      else scan_lines rest
  end.

Definition parse_version (metrics : pystr) : result (option pystr) :=
  scan_lines (split newline metrics).

Definition metrics_request (self : t) : Request :=
  mkRequest (path self ++ u "/metrics") [] true true false.

Definition get_k8s_version (net : Transport) (self : t)
  : Run (option pystr) :=
  (r <- requests_get net (metrics_request self) ;;
   lift (parse_version (text r)))%run.

(** [container.get("securityContext", {}).get("privileged")] as a
    condition. *)
Definition is_privileged (container : json) : result bool :=
  (sc <- dict_get container (u "securityContext") (JObj []) ;;
   p <- dict_get sc (u "privileged") JNull ;;
   Ok (truthy p))%result.

Fixpoint scan_containers (pod : json) (containers : list json)
    (acc : list (json * json)) : result (list (json * json)) :=
  match containers with
  | [] => Ok acc
  | container :: rest =>
      (b <- is_privileged container ;;
       if b then
         (md <- getitem pod (u "metadata") ;;
          pod_name <- getitem md (u "name") ;;
          container_name <- getitem container (u "name") ;;
          scan_containers pod rest (acc ++ [(pod_name, container_name)]))
       else scan_containers pod rest acc)%result
  end.

Fixpoint scan_pods (pods : list json) (acc : list (json * json))
  : result (list (json * json)) :=
  match pods with
  | [] => Ok acc
  | pod :: rest =>
      (spec <- getitem pod (u "spec") ;;
       cs <- getitem spec (u "containers") ;;
       containers <- py_iter cs ;;
       acc' <- scan_containers pod containers acc ;;
       scan_pods rest acc')%result
  end.

(** Returns the list of (pod name, container name), or [None] when it
    is empty. *)
Definition find_privileged_containers (self : t)
  : result (option (list (json * json))) :=
  (privileged_containers <-
     (if truthy_opt (pods_endpoint_data self) then
        match pods_endpoint_data self with
        | Some data =>
            (items <- getitem data (u "items") ;;
             pods <- py_iter items ;;
             scan_pods pods [])
        | None => Ok []
        end
      else Ok []) ;;
   Ok (if (0 <? List.length privileged_containers)%nat
       then Some privileged_containers else None))%result.

Definition pods_request (self : t) : Request :=
  mkRequest (path self ++ u "/pods") [] true true false.

Definition get_pods_endpoint (net : Transport) (self : t)
  : Run (option json) :=
  (response <- requests_get net (pods_request self) ;;
   if contains (u "items") (text response)
   then (j <- lift (json_body response) ;; ret (Some j))
   else ret None)%run.

Definition healthz_request (self : t) : Request :=
  mkRequest (path self ++ u "/healthz") [] false true false.

(** [r.text if r.status_code == 200 else False]; [None] is [False]. *)
Definition check_healthz_endpoint (net : Transport) (self : t)
  : Run (option pystr) :=
  (r <- requests_get net (healthz_request self) ;;
   ret (if status_code r =? 200 then Some (text r) else None))%run.

Definition execute (rt : Runtime) (net : Transport) (self : t) : Run unit :=
  (data <- get_pods_endpoint net self ;;
   let self := set_pods_endpoint_data self data in
   k8s_version <- get_k8s_version net self ;;
   privileged_containers <- lift (find_privileged_containers self) ;;
   healthz <- check_healthz_endpoint net self ;;
   match k8s_version with
   | Some version =>
       when (nonempty version)
         (yield (K8sVersionDisclosure version (u "/metrics") (u "on Kubelet")))
   | None => ret tt
   end ;;
   match privileged_containers with
   | Some containers =>
       when (nonempty containers)
         (v <- lift (PrivilegedContainers rt containers) ;; yield (Vuln v))
   | None => ret tt
   end ;;
   match healthz with
   | Some status =>
       when (nonempty status) (yield (Vuln (ExposedHealthzHandler status)))
   | None => ret tt
   end ;;
   match pods_endpoint_data self with
   | Some d =>
       when (truthy d)
         (pods <- lift (getitem d (u "items")) ;;
          v <- lift (ExposedPodsHandler pods) ;;
          yield (Vuln v))
   | None => ret tt
   end)%run.

End ReadOnlyKubeletPortHunter.

(* ================================================================== *)
(** ** SecureKubeletPortHunter *)
(* ================================================================== *)

Record SecureKubeletEvent := mkSecureKubeletEvent {
  host : pystr;
  port : Z;
  secure : bool;
  auth_token : option pystr;
  anonymous_auth : bool;
  session : option Session
}.

(** The probing target: the dictionary with the keys ["name"],
    ["container"] and ["namespace"]. *)
Record Target := mkTarget {
  target_name : json;
  target_container : json;
  target_namespace : json
}.

(** Iterators, as opposed to the values a response holds: [filter]
    creates one, and the built-in [next] accepts nothing else. *)
Inductive iterator :=
| Filter (pred : json -> result bool) (source : list json).

Inductive pyobj :=
| Value (j : json)
| Iter (it : iterator).

(** [filter(pred, x)]: [x] must be iterable. *)
Definition py_filter (pred : json -> result bool) (x : json)
  : result iterator :=
  (l <- py_iter x ;; Ok (Filter pred l))%result.

Fixpoint first_match (pred : json -> result bool) (l : list json)
  : result (option json) :=
  match l with
  | [] => Ok None
  | x :: rest =>
      (b <- pred x ;; if b then Ok (Some x) else first_match pred rest)%result
  end.

(** [next(x, None)]: the first element an iterator produces, [None] when
    it is exhausted; [TypeError] when [x] is not an iterator (a list, a
    dict and every other parsed value has no [__next__]). *)
Definition next_or_None (x : pyobj) : result (option json) :=
  match x with
  | Iter (Filter pred l) => first_match pred l
  | Value _ => Raise TypeError
  end.

Module SecureKubeletPortHunter.

Module DebugHandlers.

Record t := mk {
  path : pystr;
  session : Session;
  pod : Target
}.

(** [self.session = session if session else requests.Session()] *)
Definition init (p : pystr) (target : Target) (s : option Session) : t :=
  mk p (match s with Some s' => s' | None => mkSession [] end) target.

Section Probes.
Variable rt : Runtime.
Variable net : Transport.
Variable self : t.

Definition test_container_logs : Run bool :=
  (suffix <- lift (format (value CONTAINERLOGS)
                     [(u "pod_namespace", py_str rt (target_namespace (pod self)));
                      (u "pod_id", py_str rt (target_name (pod self)));
                      (u "container_name", py_str rt (target_container (pod self)))]) ;;
   let logs_url := path self ++ suffix in
   r <- session_get net (session self) logs_url [] false true false ;;
   ret (status_code r =? 200))%run.

Definition test_exec_container : Run bool :=
  (let headers := [(u "X-Stream-Protocol-Version", u "v2.channel.k8s.io")] in
   suffix <- lift (format (value EXEC)
                     [(u "pod_namespace", py_str rt (target_namespace (pod self)));
                      (u "pod_id", py_str rt (target_name (pod self)));
                      (u "container_name", py_str rt (target_container (pod self)));
                      (u "cmd", u EmptyString)]) ;;
   let exec_url := path self ++ suffix in
   r <- session_get net (session self) exec_url headers false false false ;;
   ret (contains (u "/cri/exec/") (text r)))%run.

(** The comparison with 200 is computed and dropped; the method
    ends without a [return], so the caller receives [None]. *)
Definition test_port_forward : Run unit :=
  (let headers := [(u "Upgrade", u "websocket");
                   (u "Connection", u "Upgrade");
                   (u "Sec-Websocket-Key", u "s");
                   (u "Sec-Websocket-Version", u "13");
                   (u "Sec-Websocket-Protocol", u "SPDY")] in
   suffix <- lift (format (value PORTFORWARD)
                     [(u "pod_namespace", py_str rt (target_namespace (pod self)));
                      (u "pod_id", py_str rt (target_name (pod self)));
                      (u "port", str_of_Z 80)]) ;;
   let pf_url := path self ++ suffix in
   r <- session_get net (session self) pf_url headers false true true ;;
   let _ := status_code r =? 200 in
   ret tt)%run.

Definition test_run_container : Run bool :=
  (suffix <- lift (format (value RUN)
                     [(u "pod_namespace", u "test");
                      (u "pod_id", u "test");
                      (u "container_name", u "test");
                      (u "cmd", u EmptyString)]) ;;
   let run_url := path self ++ suffix in
   r <- session_get net (session self) run_url [] false true false ;;
   ret (status_code r =? 405))%run.

(** [r.json() if r.status_code == 200 else False]; [None] is
    [False]. *)
Definition test_running_pods : Run (option json) :=
  (let pods_url := path self ++ value RUNNINGPODS in
   r <- session_get net (session self) pods_url [] false true false ;;
   if status_code r =? 200
   then (j <- lift (json_body r) ;; ret (Some j))
   else ret None)%run.

Definition test_attach_container : Run bool :=
  (suffix <- lift (format (value ATTACH)
                     [(u "pod_namespace", py_str rt (target_namespace (pod self)));
                      (u "pod_id", py_str rt (target_name (pod self)));
                      (u "container_name", py_str rt (target_container (pod self)));
                      (u "cmd", u EmptyString)]) ;;
   let attach_url := path self ++ suffix in
   r <- session_get net (session self) attach_url [] false false false ;;
   ret (contains (u "/cri/attach/") (text r)))%run.

Definition test_logs_endpoint : Run bool :=
  (suffix <- lift (format (value LOGS) [(u "path", u EmptyString)]) ;;
   r <- session_get net (session self) (path self ++ suffix) [] true true false ;;
   let logs_url := text r in
   ret (contains (u "<pre>") logs_url))%run.

(** [cmd.text if cmd.status_code == 200 else None] *)
Definition test_pprof_cmdline : Run (option pystr) :=
  (cmd <- session_get net (session self)
            (path self ++ value PPROF_CMDLINE) [] false true false ;;
   ret (if status_code cmd =? 200 then Some (text cmd) else None))%run.

End Probes.

End DebugHandlers.

Record t := mk {
  event : SecureKubeletEvent;
  session : Session;
  path : pystr;
  kubehunter_pod : Target;
  pods_endpoint_data : option json
}.

Definition set_pods_endpoint_data (self : t) (d : option json) : t :=
  mk (event self) (session self) (path self) (kubehunter_pod self) d.

(** [f"Bearer {self.event.auth_token}"] *)
Definition bearer (tok : option pystr) : pystr :=
  u "Bearer " ++ match tok with Some s => s | None => u "None" end.

Definition init (ev : SecureKubeletEvent) : t :=
  let s := mkSession (if secure ev
                      then [(u "Authorization", bearer (auth_token ev))]
                      else []) in
  let ev' := mkSecureKubeletEvent (host ev) (port ev) (secure ev)
               (auth_token ev) (anonymous_auth ev) (Some s) in
  mk ev' s (u "https://{self.event.host}:10250")
     (mkTarget (JStr (u "kube-hunter")) (JStr (u "kube-hunter"))
               (JStr (u "default")))
     (Some (JStr [])).

Definition get_pods_endpoint (net : Transport) (self : t)
  : Run (option json) :=
  (response <- session_get net (session self) (path self ++ u "/pods") []
                 false true false ;;
   if contains (u "items") (text response)
   then (j <- lift (json_body response) ;; ret (Some j))
   else ret None)%run.

Definition healthz_request (self : t) : Request :=
  mkRequest (path self ++ u "/healthz") [] false true false.

Definition check_healthz_endpoint (net : Transport) (self : t)
  : Run (option pystr) :=
  (r <- requests_get net (healthz_request self) ;;
   ret (if status_code r =? 200 then Some (text r) else None))%run.

Definition is_default_pod (pod : json) : result bool :=
  (md <- getitem pod (u "metadata") ;;
   ns <- getitem md (u "namespace") ;;
   if eq_str ns (u "default")
   then (st <- getitem pod (u "status") ;;
         ph <- getitem st (u "phase") ;;
         Ok (eq_str ph (u "Running")))
   else Ok false)%result.

Definition is_kubesystem_pod (pod : json) : result bool :=
  (md <- getitem pod (u "metadata") ;;
   ns <- getitem md (u "namespace") ;;
   if eq_str ns (u "kube-system")
   then (st <- getitem pod (u "status") ;;
         ph <- getitem st (u "phase") ;;
         Ok (eq_str ph (u "Running")))
   else Ok false)%result.

(** [None] is the implicit [return None]. *)
Definition get_random_pod (self : t) : result (option Target) :=
  match pods_endpoint_data self with
  | Some data =>
      if truthy data then
        (pods_data <- getitem data (u "items") ;;
         it <- py_filter is_default_pod pods_data ;;
         pod_data <- next_or_None (Iter it) ;;
         pod_data <- (if negb (truthy_opt pod_data)
                      then (it' <- py_filter is_kubesystem_pod pods_data ;;
                            next_or_None (Iter it'))
                      else Ok pod_data) ;;
         match pod_data with
         | Some pd =>
             if truthy pd then
               (spec <- getitem pd (u "spec") ;;
                cs <- getitem spec (u "containers") ;;
                container_data <- next_or_None (Value cs) ;;
                match container_data with
                | Some cd =>
                    if truthy cd then
                      (md <- getitem pd (u "metadata") ;;
                       nm <- getitem md (u "name") ;;
                       cn <- getitem cd (u "name") ;;
                       md' <- getitem pd (u "metadata") ;;
                       ns <- getitem md' (u "namespace") ;;
                       Ok (Some (mkTarget nm cn ns)))
                    else Ok None
                | None => Ok None
                end)
             else Ok None
         | None => Ok None
         end)%result
      else Ok None
  | None => Ok None
  end.

(** [if debug_handlers.test_port_forward():] tests the [None] that the
    probe returns. *)
Definition truthy_None (_ : unit) : bool := false.

Definition battery (rt : Runtime) (net : Transport)
    (debug_handlers : DebugHandlers.t) : Run unit :=
  (running_pods <- DebugHandlers.test_running_pods net debug_handlers ;;
   match running_pods with
   | Some rp =>
       when (truthy rp)
         (items <- lift (getitem rp (u "items")) ;;
          n <- lift (py_len items) ;;
          yield (Vuln (ExposedRunningPodsHandler n)))
   | None => ret tt
   end ;;
   cmdline <- DebugHandlers.test_pprof_cmdline net debug_handlers ;;
   match cmdline with
   | Some c => when (nonempty c) (yield (Vuln (ExposedKubeletCmdline c)))
   | None => ret tt
   end ;;
   b <- DebugHandlers.test_container_logs rt net debug_handlers ;;
   when b (yield (Vuln ExposedContainerLogsHandler)) ;;
   b <- DebugHandlers.test_exec_container rt net debug_handlers ;;
   when b (yield (Vuln ExposedExecHandler)) ;;
   b <- DebugHandlers.test_run_container net debug_handlers ;;
   when b (yield (Vuln ExposedRunHandler)) ;;
   r <- DebugHandlers.test_port_forward rt net debug_handlers ;;
   when (truthy_None r) (yield (Vuln ExposedPortForwardHandler)) ;;
   b <- DebugHandlers.test_attach_container rt net debug_handlers ;;
   when b (yield (Vuln ExposedAttachHandler)) ;;
   b <- DebugHandlers.test_logs_endpoint net debug_handlers ;;
   when b (yield (Vuln ExposedSystemLogs)))%run.

Definition test_handlers (rt : Runtime) (config : Config) (net : Transport)
    (self : t) : Run unit :=
  (target <- (if pod config then ret (Some (kubehunter_pod self))
              else lift (get_random_pod self)) ;;
   match target with
   | Some p =>
       let debug_handlers :=
         DebugHandlers.init (path self) p (Some (session self)) in
       try_except (battery rt net debug_handlers)
   | None => ret tt
   end)%run.

Definition execute (rt : Runtime) (config : Config) (net : Transport)
    (self : t) : Run unit :=
  (when (anonymous_auth (event self)) (yield (Vuln AnonymousAuthEnabled)) ;;
   data <- get_pods_endpoint net self ;;
   let self := set_pods_endpoint_data self data in
   healthz <- check_healthz_endpoint net self ;;
   match pods_endpoint_data self with
   | Some d =>
       when (truthy d)
         (pods <- lift (getitem d (u "items")) ;;
          v <- lift (ExposedPodsHandler pods) ;;
          yield (Vuln v))
   | None => ret tt
   end ;;
   match healthz with
   | Some status =>
       when (nonempty status) (yield (Vuln (ExposedHealthzHandler status)))
   | None => ret tt
   end ;;
   test_handlers rt config net self)%run.

End SecureKubeletPortHunter.

(* ================================================================== *)
(** ** ProveSystemLogs *)
(* ================================================================== *)

(** [\w] on a [str] pattern: letters, digits and the underscore in ASCII,
    and whatever the Unicode database calls a word character beyond. *)
Definition ascii_word (c : N) : bool :=
  ((48 <=? c) && (c <=? 57) || (65 <=? c) && (c <=? 90)
   || (97 <=? c) && (c <=? 122) || (c =? 95))%N.

Definition is_word (rt : Runtime) (c : N) : bool :=
  if (c <? 128)%N then ascii_word c else unicode_word rt c.

(** The longest run of word characters at the head of [s]. *)
Fixpoint take_word (rt : Runtime) (s : pystr) : pystr :=
  match s with
  | [] => []
  | c :: s' => if is_word rt c then c :: take_word rt s' else []
  end.

(** A match of [proctitle=(\w+)] that starts at the head of [s]: the
    text of its group. *)
Definition match_here (rt : Runtime) (s : pystr) : option pystr :=
  if startswith (u "proctitle=") s then
    let w := take_word rt (skipn (List.length (u "proctitle=")) s) in
    if nonempty w then Some w else None
  else None.

(** [re.findall]: scan left to right, resume after the end of each match.
    [skip] counts the characters of the current match still to pass. *)
Fixpoint findall_from (rt : Runtime) (skip : nat) (s : pystr) : list pystr :=
  match s with
  | [] => []
  | _ :: s' =>
      match skip with
      | S k => findall_from rt k s'
      | O =>
          match match_here rt s with
          | Some w =>
              w :: findall_from rt
                     (List.length (u "proctitle=") + List.length w - 1) s'
          | None => findall_from rt 0 s'
          end
      end
  end.

Definition findall_proctitle (rt : Runtime) (s : pystr) : list pystr :=
  findall_from rt 0 s.

Definition hexval (c : N) : option N :=
  (if (48 <=? c) && (c <=? 57) then Some (c - 48)
   else if (97 <=? c) && (c <=? 102) then Some (c - 87)
   else if (65 <=? c) && (c <=? 70) then Some (c - 55)
   else None)%N.

Definition is_space (c : N) : bool :=
  ((c =? 32) || (9 <=? c) && (c <=? 13))%N.

(** [bytes.fromhex(s)]: two hexadecimal digits per byte, ASCII white
    space between bytes skipped, [ValueError] otherwise. *)
Fixpoint fromhex (s : pystr) : result (list N) :=
  match s with
  | [] => Ok []
  | c :: s' =>
      if is_space c then fromhex s'
      else match hexval c, s' with
           | Some h, d :: s'' =>
               match hexval d with
               | Some l => (bs <- fromhex s'' ;; Ok ((16 * h + l)%N :: bs))%result
               | None => Raise ValueError
               end
           | _, _ => Raise ValueError
           end
  end.

Definition continuation (b : N) : bool := ((128 <=? b) && (b <=? 191))%N.

Definition between (lo b hi : N) : bool := ((lo <=? b) && (b <=? hi))%N.

(** [bs.decode("utf-8")], strict: shortest form only, no surrogates,
    nothing above U+10FFFF. *)
Fixpoint decode_utf8 (bs : list N) : result pystr :=
  match bs with
  | [] => Ok []
  | b0 :: r0 =>
      if (b0 <? 128)%N then
        (t <- decode_utf8 r0 ;; Ok (b0 :: t))%result
      else if between 194 b0 223 then
        match r0 with
        | b1 :: r1 =>
            if continuation b1 then
              (t <- decode_utf8 r1 ;;
               Ok (((b0 - 192) * 64 + (b1 - 128))%N :: t))%result
            else Raise UnicodeDecodeError
        | _ => Raise UnicodeDecodeError
        end
      else if between 224 b0 239 then
        match r0 with
        | b1 :: b2 :: r2 =>
            if between (if (b0 =? 224)%N then 160 else 128)%N b1
                       (if (b0 =? 237)%N then 159 else 191)%N
               && continuation b2 then
              (t <- decode_utf8 r2 ;;
               Ok (((b0 - 224) * 4096 + (b1 - 128) * 64 + (b2 - 128))%N :: t))%result
            else Raise UnicodeDecodeError
        | _ => Raise UnicodeDecodeError
        end
      else if between 240 b0 244 then
        match r0 with
        | b1 :: b2 :: b3 :: r3 =>
            if between (if (b0 =? 240)%N then 144 else 128)%N b1
                       (if (b0 =? 244)%N then 143 else 191)%N
               && continuation b2 && continuation b3 then
              (t <- decode_utf8 r3 ;;
               Ok (((b0 - 240) * 262144 + (b1 - 128) * 4096
                    + (b2 - 128) * 64 + (b3 - 128))%N :: t))%result
            else Raise UnicodeDecodeError
        | _ => Raise UnicodeDecodeError
        end
      else Raise UnicodeDecodeError
  end.

Module ProveSystemLogs.

(** The [ExposedSystemLogs] event as the hunter sees it: the
    vulnerability, the attributes it carries from the events before it
    and the [proctitles] attribute the hunter adds. *)
Record SystemLogsEvent := mkEvent {
  vulnerability : Vulnerability;
  ev_host : pystr;
  ev_port : Z;
  ev_session : Session;
  proctitles : option (list pystr)
}.

Record t := mk {
  event : SystemLogsEvent;
  base_url : pystr
}.

Definition init (ev : SystemLogsEvent) : t :=
  mk ev (u "https://" ++ ev_host ev ++ u ":" ++ str_of_Z (ev_port ev)).

(** [bytes.fromhex(proctitle).decode("utf-8").replace("\x00", " ")] *)
Definition decode_proctitle (proctitle : pystr) : result pystr :=
  (bs <- fromhex proctitle ;;
   t <- decode_utf8 bs ;;
   Ok (replace 0%N (u " ") t))%result.

(** The loop that appends the decoded titles one by one. *)
Fixpoint decode_each (found : list pystr) (acc : list pystr)
  : result (list pystr) :=
  match found with
  | [] => Ok acc
  | proctitle :: rest =>
      (d <- decode_proctitle proctitle ;; decode_each rest (acc ++ [d]))%result
  end.

Definition audit_request (self : t) : result Request :=
  (suffix <- format (value LOGS) [(u "path", u "audit/audit.log")] ;;
   Ok (mkRequest (base_url self ++ u "/" ++ suffix)
                 (session_headers (ev_session (event self)))
                 false true false))%result.

(** Returns the event with the two attributes set. *)
Definition execute (rt : Runtime) (net : Transport) (self : t)
  : Run SystemLogsEvent :=
  (req <- lift (audit_request self) ;;
   r <- requests_get net req ;;
   let audit_logs := text r in
   titles <- lift (decode_each (findall_proctitle rt audit_logs) []) ;;
   let ev := event self in
   ret (mkEvent
          (set_evidence (vulnerability ev)
             (u "audit log: " ++ py_repr rt (JArr (map JStr titles))))
          (ev_host ev) (ev_port ev) (ev_session ev) (Some titles)))%run.

End ProveSystemLogs.

(* ================================================================== *)
(** ** ProveRunHandler and ProveContainerLogsHandler *)
(* ================================================================== *)

(** [next(x)] without a default, applied to a value of a response: a
    list, a dict and every other parsed value has no [__next__], so the
    built-in raises [TypeError] whatever the value holds. *)
Definition next_of_value (x : json) : result json :=
  match x with
  | _ => Raise TypeError
  end.

(** [session.post(url, verify=...)]: the agent's answers to POST requests
    are a transport of their own. *)
Definition session_post (post : Transport) (s : Session) (target : pystr)
    (vfy : bool) : Run Response :=
  requests_get post (mkRequest target (session_headers s) vfy true false).

(** The event of a debug-handler finding as the two hunters below see it:
    the vulnerability and the attributes it carries from the events
    before it. *)
Record HandlerEvent := mkHandlerEvent {
  he_vulnerability : Vulnerability;
  he_host : pystr;
  he_port : Z;
  he_session : Session
}.

Definition set_event_evidence (ev : HandlerEvent) (e : pystr) : HandlerEvent :=
  mkHandlerEvent (set_evidence (he_vulnerability ev) e) (he_host ev)
                 (he_port ev) (he_session ev).

Module ProveRunHandler.

Record t := mk {
  event : HandlerEvent;
  base_path : pystr
}.

Definition init (ev : HandlerEvent) : t :=
  mk ev (u "https://" ++ he_host ev ++ u ":" ++ str_of_Z (he_port ev)).

(** The dictionary passed as [container]. *)
Record Container := mkContainer {
  c_namespace : json;
  c_pod : json;
  c_name : json
}.

Definition run (rt : Runtime) (post : Transport) (self : t)
    (command : pystr) (container : Container) : Run pystr :=
  (run_url <- lift (format (value RUN)
                      [(u "pod_namespace", py_str rt (c_namespace container));
                       (u "pod_id", py_str rt (c_pod container));
                       (u "container_name", py_str rt (c_name container));
                       (u "cmd", command)]) ;;
   r <- session_post post (he_session (event self))
          (base_path self ++ u "/" ++ run_url) false ;;
   ret (text r))%run.

(** The loop over the pods: [Some e] is the evidence set before [break],
    [None] the loop running to its end. *)
Fixpoint try_pods (rt : Runtime) (post : Transport) (self : t)
    (pods_data : list json) : Run (option pystr) :=
  match pods_data with
  | [] => ret None
  | pod_data :: rest =>
      (spec <- lift (getitem pod_data (u "spec")) ;;
       cs <- lift (getitem spec (u "containers")) ;;
       container_data <- lift (next_of_value cs) ;;
       if truthy container_data then
         (md <- lift (getitem pod_data (u "metadata")) ;;
          ns <- lift (getitem md (u "namespace")) ;;
          md' <- lift (getitem pod_data (u "metadata")) ;;
          nm <- lift (getitem md' (u "name")) ;;
          cn <- lift (getitem container_data (u "name")) ;;
          output <- run rt post self (u "uname -a") (mkContainer ns nm cn) ;;
          if nonempty output && negb (contains (u "exited with") output)
          then ret (Some (u "uname -a: " ++ output))
          else try_pods rt post self rest)
       else try_pods rt post self rest)%run
  end.

Definition pods_request (self : t) : Request :=
  mkRequest (base_path self ++ value PODS)
            (session_headers (he_session (event self))) false true false.

(** Returns the event, with its evidence set when a command gave
    output. *)
Definition execute (rt : Runtime) (net post : Transport) (self : t)
  : Run HandlerEvent :=
  (r <- requests_get net (pods_request self) ;;
   if contains (u "items") (text r) then
     (j <- lift (json_body r) ;;
      items <- lift (getitem j (u "items")) ;;
      pods_data <- lift (py_iter items) ;;
      found <- try_pods rt post self pods_data ;;
      ret (match found with
           | Some e => set_event_evidence (event self) e
           | None => event self
           end))
   else ret (event self))%run.

End ProveRunHandler.

Module ProveContainerLogsHandler.

Record t := mk {
  event : HandlerEvent;
  base_url : pystr
}.

Definition init (ev : HandlerEvent) : t :=
  let protocol := if he_port ev =? 10250 then u "https" else u "http" in
  mk ev (protocol ++ u "://" ++ he_host ev ++ u ":" ++ str_of_Z (he_port ev)
           ++ u "/").

Definition logs_request (self : t) (suffix : pystr) : Request :=
  mkRequest (base_url self ++ u "/" ++ suffix) [] false true false.

(** The loop over the pods: [Some e] is the evidence set before
    [return], [None] the loop running to its end. *)
Fixpoint try_pods (rt : Runtime) (net : Transport) (self : t)
    (pods_data : list json) : Run (option pystr) :=
  match pods_data with
  | [] => ret None
  | pod_data :: rest =>
      (spec <- lift (getitem pod_data (u "spec")) ;;
       cs <- lift (getitem spec (u "containers")) ;;
       container_data <- lift (next_of_value cs) ;;
       if truthy container_data then
         (container_name <- lift (getitem container_data (u "name")) ;;
          md <- lift (getitem pod_data (u "metadata")) ;;
          ns <- lift (getitem md (u "namespace")) ;;
          md' <- lift (getitem pod_data (u "metadata")) ;;
          nm <- lift (getitem md' (u "name")) ;;
          suffix <- lift (format (value CONTAINERLOGS)
                            [(u "pod_namespace", py_str rt ns);
                             (u "pod_id", py_str rt nm);
                             (u "container_name", py_str rt container_name)]) ;;
          output <- requests_get net (logs_request self suffix) ;;
          if (status_code output =? 200) && nonempty (text output)
          then ret (Some (py_str rt container_name ++ u ": " ++ text output))
          else try_pods rt net self rest)
       else try_pods rt net self rest)%run
  end.

Definition pods_request (self : t) : Request :=
  mkRequest (base_url self ++ value PODS)
            (session_headers (he_session (event self))) false true false.

(** [json_loads] is [json.loads], applied to the text of the response. *)
Definition execute (rt : Runtime) (json_loads : pystr -> result json)
    (net : Transport) (self : t) : Run HandlerEvent :=
  (r <- requests_get net (pods_request self) ;;
   let pods_raw := text r in
   if contains (u "items") pods_raw then
     (j <- lift (json_loads pods_raw) ;;
      items <- lift (getitem j (u "items")) ;;
      pods_data <- lift (py_iter items) ;;
      found <- try_pods rt net self pods_data ;;
      ret (match found with
           | Some e => set_event_evidence (event self) e
           | None => event self
           end))
   else ret (event self))%run.

End ProveContainerLogsHandler.

(* ================================================================== *)
(** ** Vocabulary of the statements and example agents *)
(* ================================================================== *)

(** *** Reasoning about runs *)

(** Every event yielded by [m] satisfies [P]. *)
Definition all_yielded {A} (P : Event -> Prop) (m : Run A) : Prop :=
  Forall P (yielded m).

(** Every request sent by [m] satisfies [Q]. *)
Definition all_requests {A} (Q : Request -> Prop) (m : Run A) : Prop :=
  Forall Q (requests m).

(** The class of a yielded vulnerability; the imported version event has
    none of the classes of this file. *)
Definition class_of (ev : Event) : option VulnClass :=
  match ev with
  | Vuln v => Some (cls v)
  | K8sVersionDisclosure _ _ _ => None
  end.

(** *** Pod selection *)

Definition obj (fields : list (string * json)) : json :=
  JObj (map (fun kv => (u (fst kv), snd kv)) fields).

Definition str (s : string) : json := JStr (u s).

(** A listing with a Pending pod in [default] followed by a Running pod
    in [kube-system]. *)
Definition listing_pending_default_running_kube_system : json :=
  obj [("items",
        JArr [obj [("metadata", obj [("name", str "web");
                                     ("namespace", str "default")]);
                   ("status", obj [("phase", str "Pending")]);
                   ("spec", obj [("containers",
                                  JArr [obj [("name", str "nginx")]])])];
              obj [("metadata", obj [("name", str "kube-proxy");
                                     ("namespace", str "kube-system")]);
                   ("status", obj [("phase", str "Running")]);
                   ("spec", obj [("containers",
                                  JArr [obj [("name", str "proxy")]])])]])]%string.

(** *** Evidence and payload of published findings *)

(** The classes whose constructor passes no evidence and stores no
    attribute of its own. *)
Definition marker_class (c : VulnClass) : bool :=
  match c with
  | ClsAnonymousAuthEnabled | ClsExposedContainerLogsHandler
  | ClsExposedExecHandler | ClsExposedRunHandler
  | ClsExposedPortForwardHandler | ClsExposedAttachHandler
  | ClsExposedSystemLogs => true
  | _ => false
  end.

Definition evidence_populated (v : Vulnerability) : bool :=
  match evidence v with
  | Some e => nonempty e
  | None => false
  end.

Definition payload_populated (v : Vulnerability) : bool :=
  match payload v with
  | NoPayload => false
  | Pods _ => true
  | Count _ => true
  | Status s => nonempty s
  | Containers l => nonempty l
  | Cmdline c => nonempty c
  end.

(** "At least one of evidence and payload is populated". *)
Definition populated (ev : Event) : bool :=
  match ev with
  | Vuln v => evidence_populated v || payload_populated v
  | K8sVersionDisclosure version _ _ => nonempty version
  end.

(** What holds of an event at publication: a marker class carries
    neither evidence nor payload, every other class carries both. *)
Definition published_shape (ev : Event) : Prop :=
  match ev with
  | Vuln v =>
      if marker_class (cls v)
      then evidence v = None /\ payload v = NoPayload
      else evidence_populated v = true /\ payload_populated v = true
  | K8sVersionDisclosure version _ _ => nonempty version = true
  end.

(** A runtime for the concrete runs below, none of which renders a value
    with [repr] or meets a non-ASCII character. *)
Definition example_runtime : Runtime :=
  Build_Runtime (fun _ => u "<repr>") (fun _ => false).

(** An agent that answers every request with an empty 404. *)
Definition net_404 : Transport :=
  fun _ => Ok (mkResponse 404 [] (Raise JSONDecodeError)).

Definition anonymous_event : SecureKubeletEvent :=
  mkSecureKubeletEvent (u "10.0.0.7") 10250 false None true None.

(** *** The URLs of the secure-port hunter *)

(** Every URL the secure-port hunter can request. *)
Definition secure_request_urls : list pystr :=
  [ u "https://{self.event.host}:10250/pods";
    u "https://{self.event.host}:10250/healthz";
    u "https://{self.event.host}:10250runningpods";
    u "https://{self.event.host}:10250debug/pprof/cmdline";
    u "https://{self.event.host}:10250containerLogs/default/kube-hunter/kube-hunter";
    u "https://{self.event.host}:10250exec/default/kube-hunter/kube-hunter?command=&input=1&output=1&tty=1";
    u "https://{self.event.host}:10250run/test/test/test?cmd=";
    u "https://{self.event.host}:10250portForward/default/kube-hunter?port=80";
    u "https://{self.event.host}:10250attach/default/kube-hunter/kube-hunter?command=&input=1&output=1&tty=1";
    u "https://{self.event.host}:10250logs/" ].

(** *** The battery stops at the first probe that raises *)

(** Statements run one after the other. *)
Fixpoint run_all (steps : list (Run unit)) : Run unit :=
  match steps with
  | [] => ret tt
  | s :: rest => bind s (fun _ => run_all rest)
  end.

(** The eight statements of the battery, in the order of the source:
    each calls one probe and yields its finding when the probe's result
    is true. *)
Definition battery_steps (rt : Runtime) (net : Transport)
    (debug_handlers : SecureKubeletPortHunter.DebugHandlers.t)
  : list (Run unit) :=
  [ (running_pods <-
       SecureKubeletPortHunter.DebugHandlers.test_running_pods net debug_handlers ;;
     match running_pods with
     | Some rp =>
         when (truthy rp)
           (items <- lift (getitem rp (u "items")) ;;
            n <- lift (py_len items) ;;
            yield (Vuln (ExposedRunningPodsHandler n)))
     | None => ret tt
     end)%run;
    (cmdline <-
       SecureKubeletPortHunter.DebugHandlers.test_pprof_cmdline net debug_handlers ;;
     match cmdline with
     | Some c => when (nonempty c) (yield (Vuln (ExposedKubeletCmdline c)))
     | None => ret tt
     end)%run;
    (b <- SecureKubeletPortHunter.DebugHandlers.test_container_logs rt net debug_handlers ;;
     when b (yield (Vuln ExposedContainerLogsHandler)))%run;
    (b <- SecureKubeletPortHunter.DebugHandlers.test_exec_container rt net debug_handlers ;;
     when b (yield (Vuln ExposedExecHandler)))%run;
    (b <- SecureKubeletPortHunter.DebugHandlers.test_run_container net debug_handlers ;;
     when b (yield (Vuln ExposedRunHandler)))%run;
    (r <- SecureKubeletPortHunter.DebugHandlers.test_port_forward rt net debug_handlers ;;
     when (SecureKubeletPortHunter.truthy_None r)
       (yield (Vuln ExposedPortForwardHandler)))%run;
    (b <- SecureKubeletPortHunter.DebugHandlers.test_attach_container rt net debug_handlers ;;
     when b (yield (Vuln ExposedAttachHandler)))%run;
    (b <- SecureKubeletPortHunter.DebugHandlers.test_logs_endpoint net debug_handlers ;;
     when b (yield (Vuln ExposedSystemLogs)))%run ].

(** A run that yields nothing. *)
Definition no_yields {A} (m : Run A) : Prop := yielded m = [].

(** A run that has yielded nothing if it ends by raising. *)
Definition no_yield_on_raise {A} (m : Run A) : Prop :=
  forall e, outcome m = Raise e -> yielded m = [].

(** An agent described by routes: the first route whose marker occurs
    in the URL answers. *)
Definition route (routes : list (pystr * result Response))
    (fallback : result Response) : Transport :=
  fun req =>
    match List.find (fun kv => contains (fst kv) (url req)) routes with
    | Some kv => snd kv
    | None => fallback
    end.

Definition plain (status : Z) (body : pystr) : result Response :=
  Ok (mkResponse status body (Raise JSONDecodeError)).

(** The text of an empty pods collection and its parsed value. *)
Definition empty_listing_text : pystr :=
  u "{" ++ [dquote] ++ u "items" ++ [dquote] ++ u ": []}".

Definition empty_listing : result Response :=
  Ok (mkResponse 200 empty_listing_text (Ok (obj [("items"%string, JArr [])]))).

(** An agent on which every handler is exposed. *)
Definition exposed_routes : list (pystr * result Response) :=
  [ (u "containerLogs/", plain 200 (u "Started container"));
    (u "runningpods", empty_listing);
    (u "/pods", empty_listing);
    (u "/healthz", plain 200 (u "ok"));
    (u "debug/pprof/cmdline", plain 200 (u "/usr/bin/kubelet --v=2"));
    (u "exec/", plain 302 (u "<a href=/cri/exec/Yk3tq0aa>Found</a>"));
    (u "run/", plain 405 (u "Method Not Allowed"));
    (u "portForward/", plain 200 []);
    (u "attach/", plain 302 (u "<a href=/cri/attach/pQ8mE3cd>Found</a>"));
    (u "logs/", plain 200 (u "<pre><a href=audit/>audit/</a></pre>")) ].

Definition net_exposed : Transport := route exposed_routes (plain 404 []).

(** The same agent, except that the connection of the exec probe
    fails. *)
Definition net_exec_fails : Transport :=
  route ((u "exec/", Raise TransportError) :: exposed_routes) (plain 404 []).

Definition self_test : Config := mkConfig true.

Definition example_hunter : SecureKubeletPortHunter.t :=
  SecureKubeletPortHunter.init anonymous_event.

Definition example_handlers : SecureKubeletPortHunter.DebugHandlers.t :=
  SecureKubeletPortHunter.DebugHandlers.init
    (SecureKubeletPortHunter.path example_hunter)
    (SecureKubeletPortHunter.kubehunter_pod example_hunter)
    (Some (SecureKubeletPortHunter.session example_hunter)).

(** *** The read-only hunter: its four operations and its findings *)

(** What each operation's result contributes to the run: the four
    guarded [yield] statements, each as a function of its own result. *)
Definition version_events (k8s_version : option pystr) : list Event :=
  match k8s_version with
  | Some v =>
      if nonempty v
      then [K8sVersionDisclosure v (u "/metrics") (u "on Kubelet")]
      else []
  | None => []
  end.

Definition privileged_events (rt : Runtime)
    (privileged_containers : option (list (json * json))) : list Event :=
  match privileged_containers with
  | Some cs =>
      match PrivilegedContainers rt cs with
      | Ok v => [Vuln v]
      | Raise _ => []
      end
  | None => []
  end.

Definition healthz_events (healthz : option pystr) : list Event :=
  match healthz with
  | Some status =>
      if nonempty status then [Vuln (ExposedHealthzHandler status)] else []
  | None => []
  end.

Definition pods_events (data : option json) : list Event :=
  match data with
  | Some d =>
      if truthy d then
        match getitem d (u "items") with
        | Ok pods =>
            match ExposedPodsHandler pods with
            | Ok v => [Vuln v]
            | Raise _ => []
            end
        | Raise _ => []
        end
      else []
  | None => []
  end.

(** [m] sent [r], yielded [y] and ended with [o]. *)
Definition runs_as {A} (m : Run A) (r : list Request) (y : list Event)
    (o : result A) : Prop :=
  requests m = r /\ yielded m = y /\ outcome m = o.

(** An agent whose read-only port answers the three fetches. *)
Definition metrics_text : pystr :=
  u "# TYPE kubernetes_build_info gauge" ++ [newline]
  ++ u "kubernetes_build_info{gitVersion=" ++ [dquote] ++ u "v1.18.0"
  ++ [dquote] ++ u ",major=" ++ [dquote] ++ u "1" ++ [dquote] ++ u "} 1"
  ++ [newline].

Definition readonly_routes : list (pystr * result Response) :=
  [ (u "/pods", empty_listing);
    (u "/metrics", plain 200 metrics_text);
    (u "/healthz", plain 200 (u "ok")) ].

Definition net_readonly : Transport := route readonly_routes (plain 404 []).

(** The same agent, except that the connection of the pods fetch
    fails. *)
Definition net_pods_unreachable : Transport :=
  route ((u "/pods", Raise TransportError) :: readonly_routes) (plain 404 []).


Definition example_readonly : ReadOnlyKubeletPortHunter.t :=
  ReadOnlyKubeletPortHunter.init (mkReadOnlyKubeletEvent (u "10.0.0.7") 10255).

(** *** The health finding *)


(** *** The privileged-container scan *)

(** The pods listing as the agent's API types it: the reading of a
    listing that the statement of the scan relies on. *)
Definition field (k : string) (j : json) : option json :=
  match j with
  | JObj fields => lookup (u k) fields
  | _ => None
  end.

Definition pod_name (p : json) : option pystr :=
  match field "metadata" p with
  | Some md =>
      match field "name" md with
      | Some (JStr s) => Some s
      | _ => None
      end
  | None => None
  end.

Definition pod_containers (p : json) : option (list json) :=
  match field "spec" p with
  | Some sp =>
      match field "containers" sp with
      | Some (JArr cs) => Some cs
      | _ => None
      end
  | None => None
  end.

Definition container_name (c : json) : option pystr :=
  match field "name" c with
  | Some (JStr s) => Some s
  | _ => None
  end.

(** [securityContext.privileged == true] *)
Definition declares_privileged (c : json) : bool :=
  match field "securityContext" c with
  | Some sc =>
      match field "privileged" sc with
      | Some (JBool true) => true
      | _ => false
      end
  | None => false
  end.

(** A container has a name, and its security context, when present, is
    an object whose [privileged], when present, is a boolean. *)
Definition wf_container (c : json) : bool :=
  match c, container_name c with
  | JObj _, Some _ =>
      match field "securityContext" c with
      | None => true
      | Some (JObj g) =>
          match lookup (u "privileged") g with
          | None => true
          | Some (JBool _) => true
          | Some _ => false
          end
      | Some _ => false
      end
  | _, _ => false
  end.

Definition wf_pod (p : json) : bool :=
  match pod_name p, pod_containers p with
  | Some _, Some cs => forallb wf_container cs
  | _, _ => false
  end.

Definition pods_of (data : json) : list json :=
  match field "items" data with
  | Some (JArr ps) => ps
  | _ => []
  end.

Definition wf_podlist (data : json) : bool :=
  match field "items" data with
  | Some (JArr ps) => forallb wf_pod ps
  | _ => false
  end.

Definition containers_of (p : json) : list json :=
  match pod_containers p with
  | Some cs => cs
  | None => []
  end.

(** The (pod name, container name) pairs of the privileged containers of
    one pod, in the order of its containers. *)
Definition pod_matches (p : json) : list (pystr * pystr) :=
  match pod_name p with
  | Some n =>
      flat_map (fun c =>
                  match container_name c with
                  | Some cn => if declares_privileged c then [(n, cn)] else []
                  | None => []
                  end)
               (containers_of p)
  | None => []
  end.

Definition as_json_pair (pc : pystr * pystr) : json * json :=
  (JStr (fst pc), JStr (snd pc)).

Definition is_privileged_finding (ev : Event) : bool :=
  match class_of ev with
  | Some ClsPrivilegedContainers => true
  | _ => false
  end.

(** The finding that the scan publishes for a non-empty list of
    matches. *)
Definition privileged_finding (p0 c0 : pystr) (ms : list (pystr * pystr))
  : Event :=
  Vuln (mkVulnerability ClsPrivilegedContainers (u "Privileged Container")
          KubernetesCluster AccessRisk (Some (u "KHV044"))
          (Some (u "pod: " ++ p0 ++ u ", container: " ++ c0 ++ u ", count: "
                   ++ str_of_nat (List.length ms)))
          (Containers (map as_json_pair ms))).

(** A quoted name, as it occurs in the text of a JSON document. *)
Definition q (s : string) : pystr := dquote :: u s ++ [dquote].

(** A listing of two pods: [db] runs [init] and the privileged [mysql],
    [web] runs the privileged [nginx]. *)
Definition privileged_listing : json :=
  obj [("items",
        JArr [obj [("metadata", obj [("name", str "db")]);
                   ("spec",
                    obj [("containers",
                          JArr [obj [("name", str "init");
                                     ("securityContext", obj [])];
                                obj [("name", str "mysql");
                                     ("securityContext",
                                      obj [("privileged", JBool true)])]])])];
              obj [("metadata", obj [("name", str "web")]);
                   ("spec",
                    obj [("containers",
                          JArr [obj [("name", str "nginx");
                                     ("securityContext",
                                      obj [("privileged", JBool true)])]])])]])]%string.

Definition privileged_listing_text : pystr :=
  u "{" ++ q "items" ++ u ": [{" ++ q "metadata" ++ u ": {" ++ q "name"
  ++ u ": " ++ q "db" ++ u "}, " ++ q "spec" ++ u ": {" ++ q "containers"
  ++ u ": [{" ++ q "name" ++ u ": " ++ q "init" ++ u ", "
  ++ q "securityContext" ++ u ": {}}, {" ++ q "name" ++ u ": " ++ q "mysql"
  ++ u ", " ++ q "securityContext" ++ u ": {" ++ q "privileged"
  ++ u ": true}}]}}, {" ++ q "metadata" ++ u ": {" ++ q "name" ++ u ": "
  ++ q "web" ++ u "}, " ++ q "spec" ++ u ": {" ++ q "containers"
  ++ u ": [{" ++ q "name" ++ u ": " ++ q "nginx" ++ u ", "
  ++ q "securityContext" ++ u ": {" ++ q "privileged" ++ u ": true}}]}}]}".

Definition net_privileged : Transport :=
  route ((u "/pods",
          Ok (mkResponse 200 privileged_listing_text (Ok privileged_listing)))
           :: readonly_routes)
        (plain 404 []).

(** *** The audit-log proof *)

(** How the audit daemon writes a process title: two upper-case
    hexadecimal digits per byte. *)
Definition hexdigit (d : N) : N :=
  (if d <? 10 then 48 + d else 55 + d)%N.

Definition hexlify (bs : list N) : pystr :=
  flat_map (fun b => [hexdigit (b / 16); hexdigit (b mod 16)]%N) bs.

(** The literal text the pattern starts with, and the same text without
    its last character. *)
Definition proctitle_key : pystr := u "proctitle=".
Definition proctitle_key_init : pystr := u "proctitle".

(** One record of the audit log: the text before the key, the bytes of
    the process title (the arguments, separated by null bytes) and the
    text these bytes encode. *)
Record AuditRecord := mkAuditRecord {
  ar_prefix : pystr;
  ar_bytes : list N;
  ar_text : pystr
}.

Definition audit_line (a : AuditRecord) : pystr :=
  ar_prefix a ++ proctitle_key ++ hexlify (ar_bytes a) ++ [newline].

(** The log: its records, then text in which the key does not occur. *)
Definition audit_text (recs : list AuditRecord) (trailer : pystr) : pystr :=
  flat_map audit_line recs ++ trailer.

(** The key first occurs where the title starts, the title has at least
    one byte, and its bytes are the UTF-8 form of the text. *)
Definition well_formed_record (a : AuditRecord) : Prop :=
  contains proctitle_key (ar_prefix a ++ proctitle_key_init) = false /\
  ar_bytes a <> [] /\
  Forall (fun b => (b < 256)%N) (ar_bytes a) /\
  decode_utf8 (ar_bytes a) = Ok (ar_text a).

(** A text with every null character turned into a space. *)
Definition nulls_to_spaces (t : pystr) : pystr :=
  map (fun c => if (c =? 0)%N then 32%N else c) t.

(** The request of the audit log. *)
Definition audit_log_request (self : ProveSystemLogs.t) : Request :=
  mkRequest (ProveSystemLogs.base_url self ++ u "/logs/audit/audit.log")
            (session_headers (ProveSystemLogs.ev_session
                                (ProveSystemLogs.event self)))
            false true false.

(** A log with one record, the title of [/bin/sh -c]. *)
Definition example_audit_record : AuditRecord :=
  mkAuditRecord (u "type=PROCTITLE msg=audit(1604480000.123:4242): ")
                [47; 98; 105; 110; 47; 115; 104; 0; 45; 99]%N
                (u "/bin/sh" ++ [0%N] ++ u "-c").

Definition net_audit : Transport :=
  route [(u "logs/audit/audit.log",
          plain 200 (audit_text [example_audit_record] []))]
        (plain 404 []).

Definition example_prover : ProveSystemLogs.t :=
  ProveSystemLogs.init
    (ProveSystemLogs.mkEvent ExposedSystemLogs (u "10.0.0.7") 10250
       (mkSession []) None).

(** *** The version probe *)

Definition metric_name : pystr := u "kubernetes_build_info".

(** [s] contains none of the characters [cs]. *)
Definition avoids (cs : list N) (s : pystr) : bool :=
  forallb (fun c => negb (mem c cs)) s.

(** Texts joined by a separator. *)
Fixpoint join (sep : N) (l : list pystr) : pystr :=
  match l with
  | [] => []
  | [x] => x
  | x :: rest => x ++ sep :: join sep rest
  end.

(** The characters that give a metrics line its structure. *)
Definition item_breakers : list N := [ch ","; ch "{"; ch "}"; newline].
Definition label_breakers : list N :=
  [ch ","; ch "="; ch "{"; ch "}"; newline; dquote].

(** A label as the agent prints it: the key, [=], the quoted value. *)
Definition render_label (kv : pystr * pystr) : pystr :=
  fst kv ++ ch "=" :: dquote :: snd kv ++ [dquote].

Definition label_ok (kv : pystr * pystr) : bool :=
  avoids label_breakers (fst kv) && avoids label_breakers (snd kv).

Definition item_ok (item : pystr) : bool := avoids item_breakers item.

(** The value of the first label whose key is [gitVersion]. *)
Fixpoint first_git (labels : list (pystr * pystr)) : option pystr :=
  match labels with
  | [] => None
  | (k, v) :: rest =>
      if str_eqb k (u "gitVersion") then Some v else first_git rest
  end.

(** A line of the metric: the name, the items between braces separated
    by commas, and the rest of the line. *)
Definition build_info_line (items : list pystr) (tail : pystr) : pystr :=
  metric_name ++ ch "{" :: join (ch ",") items ++ ch "}" :: tail.

(** A document: lines that each end with a newline, one more line, and
    possibly a newline and more text. *)
Definition document (before : list pystr) (line : pystr)
    (after : option pystr) : pystr :=
  flat_map (fun l => l ++ [newline]) before ++ line
  ++ match after with Some r => newline :: r | None => [] end.

(** A metrics document whose build-info line has a label without [=]
    before the version label. *)
Definition malformed_metrics : pystr :=
  u "kubernetes_build_info{gitCommit,gitVersion=" ++ [dquote] ++ u "v1.18.0"
  ++ [dquote] ++ u "} 1".

Definition net_malformed_metrics : Transport :=
  route [(u "/metrics", plain 200 malformed_metrics)] (plain 404 []).

(** *** The hunters that prove the run and the container-logs findings *)

Definition example_run_prover : ProveRunHandler.t :=
  ProveRunHandler.init
    (mkHandlerEvent ExposedRunHandler (u "10.0.0.7") 10250 (mkSession [])).

Definition example_logs_prover : ProveContainerLogsHandler.t :=
  ProveContainerLogsHandler.init
    (mkHandlerEvent ExposedContainerLogsHandler (u "10.0.0.7") 10250
       (mkSession [])).

(** An agent that lists the pods [db] and [web] on every URL that
    mentions pods, runs every command and serves every log. *)
Definition net_pods_listing : Transport :=
  route [(u "pods",
          Ok (mkResponse 200 privileged_listing_text (Ok privileged_listing)))]
        (plain 200 (u "Linux db 5.4.0 x86_64")).

(** A [json.loads] that knows the text of that listing. *)
Definition loads_listing (s : pystr) : result json :=
  if str_eqb s privileged_listing_text then Ok privileged_listing
  else Raise JSONDecodeError.

(** *** The findings of a battery whose probes are all answered *)

(** A request of the battery: the hunter's base URL followed at once by
    the handler's path, the session's headers followed by the probe's. *)
Definition probe_request (dh : SecureKubeletPortHunter.DebugHandlers.t)
    (suffix : pystr) (h : list (pystr * pystr)) (vfy redirects strm : bool)
  : Request :=
  mkRequest (SecureKubeletPortHunter.DebugHandlers.path dh ++ suffix)
            (session_headers (SecureKubeletPortHunter.DebugHandlers.session dh)
               ++ h)
            vfy redirects strm.

(** The rendered fields of the target. *)
Definition target_ns (rt : Runtime)
    (dh : SecureKubeletPortHunter.DebugHandlers.t) : pystr :=
  py_str rt (target_namespace (SecureKubeletPortHunter.DebugHandlers.pod dh)).

Definition target_id (rt : Runtime)
    (dh : SecureKubeletPortHunter.DebugHandlers.t) : pystr :=
  py_str rt (target_name (SecureKubeletPortHunter.DebugHandlers.pod dh)).

Definition target_c (rt : Runtime)
    (dh : SecureKubeletPortHunter.DebugHandlers.t) : pystr :=
  py_str rt (target_container (SecureKubeletPortHunter.DebugHandlers.pod dh)).

Definition running_pods_request (dh : SecureKubeletPortHunter.DebugHandlers.t)
  : Request :=
  probe_request dh (u "runningpods") [] false true false.

Definition cmdline_request (dh : SecureKubeletPortHunter.DebugHandlers.t)
  : Request :=
  probe_request dh (u "debug/pprof/cmdline") [] false true false.

Definition container_logs_request (rt : Runtime)
    (dh : SecureKubeletPortHunter.DebugHandlers.t) : Request :=
  probe_request dh
    (u "containerLogs/" ++ target_ns rt dh ++ u "/" ++ target_id rt dh
       ++ u "/" ++ target_c rt dh)
    [] false true false.

Definition exec_request (rt : Runtime)
    (dh : SecureKubeletPortHunter.DebugHandlers.t) : Request :=
  probe_request dh
    (u "exec/" ++ target_ns rt dh ++ u "/" ++ target_id rt dh ++ u "/"
       ++ target_c rt dh ++ u "?command=&input=1&output=1&tty=1")
    [(u "X-Stream-Protocol-Version", u "v2.channel.k8s.io")]
    false false false.

Definition run_request (dh : SecureKubeletPortHunter.DebugHandlers.t)
  : Request :=
  probe_request dh (u "run/test/test/test?cmd=") [] false true false.

Definition port_forward_request (rt : Runtime)
    (dh : SecureKubeletPortHunter.DebugHandlers.t) : Request :=
  probe_request dh
    (u "portForward/" ++ target_ns rt dh ++ u "/" ++ target_id rt dh
       ++ u "?port=80")
    [(u "Upgrade", u "websocket");
     (u "Connection", u "Upgrade");
     (u "Sec-Websocket-Key", u "s");
     (u "Sec-Websocket-Version", u "13");
     (u "Sec-Websocket-Protocol", u "SPDY")]
    false true true.

Definition attach_request (rt : Runtime)
    (dh : SecureKubeletPortHunter.DebugHandlers.t) : Request :=
  probe_request dh
    (u "attach/" ++ target_ns rt dh ++ u "/" ++ target_id rt dh ++ u "/"
       ++ target_c rt dh ++ u "?command=&input=1&output=1&tty=1")
    [] false false false.

Definition system_logs_request (dh : SecureKubeletPortHunter.DebugHandlers.t)
  : Request :=
  probe_request dh (u "logs/") [] true true false.

(** What the answer to each probe contributes to the run. *)
Definition running_pods_finding (r : Response) : result (list Event) :=
  if status_code r =? 200 then
    (j <- json_body r ;;
     if truthy j then
       (items <- getitem j (u "items") ;;
        n <- py_len items ;;
        Ok [Vuln (ExposedRunningPodsHandler n)])
     else Ok [])%result
  else Ok [].

Definition cmdline_finding (r : Response) : list Event :=
  if (status_code r =? 200) && nonempty (text r)
  then [Vuln (ExposedKubeletCmdline (text r))]
  else [].

Definition finding_if (signal : bool) (v : Vulnerability) : list Event :=
  if signal then [Vuln v] else [].

(** *** The order of publication *)

(** [a] is [b] with some elements left out. *)
Inductive subseq {A : Type} : list A -> list A -> Prop :=
| subseq_nil l : subseq [] l
| subseq_skip x a b : subseq a b -> subseq a (x :: b)
| subseq_take x a b : subseq a b -> subseq (x :: a) (x :: b).

(** The classes of the [yield] statements of the secure-port hunter, in
    the order of the source; the port forward is left out. *)
Definition secure_order : list (option VulnClass) :=
  [ Some ClsAnonymousAuthEnabled; Some ClsExposedPodsHandler;
    Some ClsExposedHealthzHandler; Some ClsExposedRunningPodsHandler;
    Some ClsExposedKubeletCmdline; Some ClsExposedContainerLogsHandler;
    Some ClsExposedExecHandler; Some ClsExposedRunHandler;
    Some ClsExposedAttachHandler; Some ClsExposedSystemLogs ].

(** The same for the read-only hunter, whose first event is the version
    disclosure. *)
Definition readonly_order : list (option VulnClass) :=
  [ None; Some ClsPrivilegedContainers; Some ClsExposedHealthzHandler;
    Some ClsExposedPodsHandler ].

(** The classes of the events of [m], in the order of their publication,
    are among [cs], in the order of [cs], each at most once. *)
Definition within {A} (cs : list (option VulnClass)) (m : Run A) : Prop :=
  subseq (map class_of (yielded m)) cs.

(** *** Outside self-test mode *)

Definition secure_pods_request (self : SecureKubeletPortHunter.t) : Request :=
  mkRequest (SecureKubeletPortHunter.path self ++ u "/pods")
            (session_headers (SecureKubeletPortHunter.session self) ++ [])
            false true false.

(** The classes published before the battery. *)
Definition first_stage_class (ev : Event) : bool :=
  match class_of ev with
  | Some ClsAnonymousAuthEnabled | Some ClsExposedPodsHandler
  | Some ClsExposedHealthzHandler => true
  | _ => false
  end.

Definition remote_scan : Config := mkConfig false.

(** *** What the selector returns *)

Definition pod_namespace_of (p : json) : option json :=
  match field "metadata" p with
  | Some md => field "namespace" md
  | None => None
  end.

Definition pod_phase_of (p : json) : option json :=
  match field "status" p with
  | Some st => field "phase" st
  | None => None
  end.

(** A pod of namespace [ns] whose phase is [Running]. *)
Definition running_in (ns : string) (p : json) : bool :=
  match pod_namespace_of p, pod_phase_of p with
  | Some n, Some ph => eq_str n (u ns) && eq_str ph (u "Running")
  | _, _ => false
  end.

(** An entry of the listing with the fields the selector reads: a
    namespace, a phase and a container list. *)
Definition selectable (p : json) : bool :=
  match pod_namespace_of p, pod_phase_of p, field "spec" p with
  | Some _, Some _, Some sp =>
      match field "containers" sp with
      | Some _ => true
      | None => false
      end
  | _, _, _ => false
  end.

(** *** The requests of the secure-port hunter *)

(** The battery's handle in self-test mode. *)
Definition self_test_handlers (self : SecureKubeletPortHunter.t)
  : SecureKubeletPortHunter.DebugHandlers.t :=
  SecureKubeletPortHunter.DebugHandlers.init
    (SecureKubeletPortHunter.path self)
    (SecureKubeletPortHunter.kubehunter_pod self)
    (Some (SecureKubeletPortHunter.session self)).

(** Every request a run of the hunter can send, in the order of the
    source. *)
Definition secure_requests (rt : Runtime) (self : SecureKubeletPortHunter.t)
  : list Request :=
  [ secure_pods_request self;
    SecureKubeletPortHunter.healthz_request self;
    running_pods_request (self_test_handlers self);
    cmdline_request (self_test_handlers self);
    container_logs_request rt (self_test_handlers self);
    exec_request rt (self_test_handlers self);
    run_request (self_test_handlers self);
    port_forward_request rt (self_test_handlers self);
    attach_request rt (self_test_handlers self);
    system_logs_request (self_test_handlers self) ].

Definition healthz_url : pystr := u "https://{self.event.host}:10250/healthz".
Definition system_logs_url : pystr := u "https://{self.event.host}:10250logs/".
Definition exec_prefix : pystr := u "https://{self.event.host}:10250exec/".
Definition attach_prefix : pystr := u "https://{self.event.host}:10250attach/".
Definition port_forward_prefix : pystr :=
  u "https://{self.event.host}:10250portForward/".

(** An event of the secure port with a service-account token. *)
Definition token_event : SecureKubeletEvent :=
  mkSecureKubeletEvent (u "10.0.0.7") 10250 true (Some (u "eyJhbGciOi"))
                       false None.

(** *** Titles in UTF-8 *)

(** The UTF-8 form of a code point (RFC 3629): one to four bytes. *)
Definition utf8_of (c : N) : list N :=
  (if c <? 128 then [c]
   else if c <? 2048 then [192 + c / 64; 128 + c mod 64]
   else if c <? 65536 then
     [224 + c / 4096; 128 + (c / 64) mod 64; 128 + c mod 64]
   else [240 + c / 262144; 128 + (c / 4096) mod 64; 128 + (c / 64) mod 64;
         128 + c mod 64])%N.

Definition encode_utf8 (t : pystr) : list N := flat_map utf8_of t.

(** A Unicode scalar value: a code point that is no surrogate. *)
Definition scalar (c : N) : bool :=
  ((c <? 55296) || (57343 <? c) && (c <? 1114112))%N.

(** The title [/bin/café €5] followed by a null and an emoji. *)
Definition unicode_title : pystr :=
  u "/bin/caf" ++ [233; 32; 8364; 53; 0; 128512]%N.

(** An audit log in its interpreted form, in which a title is written
    out: the pattern matches the title's first word. *)
Definition net_interpreted_audit : Transport :=
  route [(u "logs/audit/audit.log",
          plain 200 (u "type=PROCTITLE msg=audit(11/04/2020 09:33:20.123:4242) : proctitle=cat /etc/passwd"))]
        (plain 404 []).

(** *** A listing with an incomplete entry *)

(** The pod [db] with its privileged [mysql], followed by an entry that
    has no [spec]. *)
Definition incomplete_listing : json :=
  obj [("items",
        JArr [obj [("metadata", obj [("name", str "db")]);
                   ("spec",
                    obj [("containers",
                          JArr [obj [("name", str "mysql");
                                     ("securityContext",
                                      obj [("privileged", JBool true)])]])])];
              obj [("metadata", obj [("name", str "web")])]])]%string.

(** A hexadecimal digit, in either case. *)
Definition is_hex (c : N) : bool :=
  match hexval c with
  | Some _ => true
  | None => false
  end.

(** *** The catalogue of vulnerability classes *)

(** The identifier, the component and the category that each class
    passes to the base constructor. *)
Definition identifier (c : VulnClass) : option pystr :=
  match c with
  | ClsExposedPodsHandler => None
  | ClsAnonymousAuthEnabled => Some (u "KHV036")
  | ClsExposedContainerLogsHandler => Some (u "KHV037")
  | ClsExposedRunningPodsHandler => Some (u "KHV038")
  | ClsExposedExecHandler => Some (u "KHV039")
  | ClsExposedRunHandler => Some (u "KHV040")
  | ClsExposedPortForwardHandler => Some (u "KHV041")
  | ClsExposedAttachHandler => Some (u "KHV042")
  | ClsExposedHealthzHandler => Some (u "KHV043")
  | ClsPrivilegedContainers => Some (u "KHV044")
  | ClsExposedSystemLogs => Some (u "KHV045")
  | ClsExposedKubeletCmdline => Some (u "KHV046")
  end.

Definition component_of (c : VulnClass) : Component :=
  match c with
  | ClsPrivilegedContainers => KubernetesCluster
  | _ => Kubelet
  end.

Definition category_of (c : VulnClass) : Category :=
  match c with
  | ClsAnonymousAuthEnabled | ClsExposedExecHandler | ClsExposedRunHandler
  | ClsExposedPortForwardHandler | ClsExposedAttachHandler => RemoteCodeExec
  | ClsPrivilegedContainers => AccessRisk
  | _ => InformationDisclosure
  end.

(** A published vulnerability carries the entries of its class. *)
Definition catalogued (ev : Event) : Prop :=
  match ev with
  | Vuln v =>
      vid v = identifier (cls v) /\ component v = component_of (cls v) /\
      category v = category_of (cls v)
  | K8sVersionDisclosure _ _ _ => True
  end.

(** *** Failures before the battery *)

(** An agent that cannot be reached. *)
Definition net_unreachable : Transport := fun _ => Raise TransportError.

(** *** The privileged-container scan, as the code tests it *)

(** The value of [securityContext.privileged] of a container, if it has
    one. *)
Definition privileged_value (c : json) : option json :=
  match field "securityContext" c with
  | Some sc => field "privileged" sc
  | None => None
  end.

(** The condition of the scan: the truth value of that value. *)
Definition flagged (c : json) : bool := truthy_opt (privileged_value c).

(** A container that the scan can read: an object with a name whose
    security context, when present, is an object.  Nothing is asked of
    the value of [privileged]. *)
Definition readable_container (c : json) : bool :=
  match c, container_name c with
  | JObj _, Some _ =>
      match field "securityContext" c with
      | None => true
      | Some (JObj _) => true
      | Some _ => false
      end
  | _, _ => false
  end.

Definition readable_pod (p : json) : bool :=
  match pod_name p, pod_containers p with
  | Some _, Some cs => forallb readable_container cs
  | _, _ => false
  end.

Definition readable_podlist (data : json) : bool :=
  match field "items" data with
  | Some (JArr ps) => forallb readable_pod ps
  | _ => false
  end.

(** The (pod name, container name) pairs of the flagged containers of
    one pod, in the order of its containers, and of a listing, pod by
    pod. *)
Definition flagged_of_pod (p : json) : list (pystr * pystr) :=
  match pod_name p with
  | Some n =>
      flat_map (fun c =>
                  match container_name c with
                  | Some cn => if flagged c then [(n, cn)] else []
                  | None => []
                  end)
               (containers_of p)
  | None => []
  end.

Definition flagged_matches (data : json) : list (pystr * pystr) :=
  flat_map flagged_of_pod (pods_of data).

(** Some container of the listing has [securityContext.privileged ==
    true]. *)
Definition some_declares_privileged (data : json) : bool :=
  existsb (fun p => existsb declares_privileged (containers_of p))
          (pods_of data).

(** A listing whose only container carries the string [false] as the
    value of [privileged]. *)
Definition lax_listing : json :=
  obj [("items",
        JArr [obj [("metadata", obj [("name", str "web")]);
                   ("spec",
                    obj [("containers",
                          JArr [obj [("name", str "nginx");
                                     ("securityContext",
                                      obj [("privileged", str "false")])]])])]])]%string.

Definition lax_listing_text : pystr :=
  u "{" ++ q "items" ++ u ": [{" ++ q "metadata" ++ u ": {" ++ q "name"
  ++ u ": " ++ q "web" ++ u "}, " ++ q "spec" ++ u ": {" ++ q "containers"
  ++ u ": [{" ++ q "name" ++ u ": " ++ q "nginx" ++ u ", "
  ++ q "securityContext" ++ u ": {" ++ q "privileged" ++ u ": " ++ q "false"
  ++ u "}}]}}]}".

Definition net_lax : Transport :=
  route ((u "/pods", Ok (mkResponse 200 lax_listing_text (Ok lax_listing)))
           :: readonly_routes)
        (plain 404 []).

(** The agent with the privileged [mysql] and [nginx], except that its
    metrics carry a label without [=]. *)
Definition net_privileged_malformed_metrics : Transport :=
  route [(u "/pods",
          Ok (mkResponse 200 privileged_listing_text (Ok privileged_listing)));
         (u "/metrics", plain 200 malformed_metrics);
         (u "/healthz", plain 200 (u "ok"))]
        (plain 404 []).

(** *** The audit-log proof, for every title *)

(** A record as the audit daemon writes it: the key first occurs where
    the title starts, and the bytes of the record are the UTF-8 form of
    its title, a non-empty text of Unicode scalar values. *)
Definition encoded_record (a : AuditRecord) : Prop :=
  contains proctitle_key (ar_prefix a ++ proctitle_key_init) = false /\
  ar_text a <> [] /\
  forallb scalar (ar_text a) = true /\
  ar_bytes a = encode_utf8 (ar_text a).

(** Every field decodes, one title for each. *)
Definition all_decode (found titles : list pystr) : Prop :=
  Forall2 (fun h t => ProveSystemLogs.decode_proctitle h = Ok t) found titles.

(** The event with the two attributes set. *)
Definition with_titles (rt : Runtime) (ev : ProveSystemLogs.SystemLogsEvent)
    (titles : list pystr) : ProveSystemLogs.SystemLogsEvent :=
  ProveSystemLogs.mkEvent
    (set_evidence (ProveSystemLogs.vulnerability ev)
       (u "audit log: " ++ py_repr rt (JArr (map JStr titles))))
    (ProveSystemLogs.ev_host ev) (ProveSystemLogs.ev_port ev)
    (ProveSystemLogs.ev_session ev) (Some titles).

(** A record whose title is not ASCII. *)
Definition unicode_audit_record : AuditRecord :=
  mkAuditRecord (u "type=PROCTITLE msg=audit(1604480001.456:4243): ")
                (encode_utf8 unicode_title) unicode_title.

Definition net_unicode_audit : Transport :=
  route [(u "logs/audit/audit.log",
          plain 200 (audit_text [example_audit_record; unicode_audit_record] []))]
        (plain 404 []).

(** A log with the title of [/bin/sh -c] and a second field, [FF], whose
    byte is no UTF-8 text. *)
Definition net_invalid_utf8_audit : Transport :=
  route [(u "logs/audit/audit.log",
          plain 200 (audit_text [example_audit_record] (u "proctitle=FF")))]
        (plain 404 []).

(* ================================================================== *)
(** ** Reasoning about runs *)
(* ================================================================== *)

Arguments u : simpl never.

Section RunLemmas.
Context {A B : Type}.

Lemma bind_Ok (m : Run A) (k : A -> Run B) a :
  outcome m = Ok a ->
  bind m k = mkRun (requests m ++ requests (k a))
                   (yielded m ++ yielded (k a)) (outcome (k a)).
Proof. intros H. unfold bind. rewrite H. reflexivity. Qed.

Lemma bind_Raise (m : Run A) (k : A -> Run B) e :
  outcome m = Raise e ->
  bind m k = mkRun (requests m) (yielded m) (Raise e).
Proof. intros H. unfold bind. rewrite H. reflexivity. Qed.

Lemma all_yielded_bind P (m : Run A) (k : A -> Run B) :
  all_yielded P m ->
  (forall a, outcome m = Ok a -> all_yielded P (k a)) ->
  Forall P (yielded (bind m k)).
Proof.
  unfold all_yielded. intros Hm Hk. unfold bind.
  destruct (outcome m) as [a|e] eqn:E; simpl; auto.
  apply Forall_app. split; auto.
Qed.

Lemma all_requests_bind Q (m : Run A) (k : A -> Run B) :
  all_requests Q m ->
  (forall a, outcome m = Ok a -> all_requests Q (k a)) ->
  Forall Q (requests (bind m k)).
Proof.
  unfold all_requests. intros Hm Hk. unfold bind.
  destruct (outcome m) as [a|e] eqn:E; simpl; auto.
  apply Forall_app. split; auto.
Qed.

End RunLemmas.

Lemma all_yielded_when P c body :
  (c = true -> all_yielded P body) -> all_yielded P (when c body).
Proof. destruct c; simpl; intros H; [auto | constructor]. Qed.

Lemma all_requests_when Q c body :
  (c = true -> all_requests Q body) -> all_requests Q (when c body).
Proof. destruct c; simpl; intros H; [auto | constructor]. Qed.

Lemma all_yielded_yield (P : Event -> Prop) ev :
  P ev -> all_yielded P (yield ev).
Proof. intros H. repeat constructor. exact H. Qed.

Lemma all_requests_get (Q : Request -> Prop) net req :
  Q req -> all_requests Q (requests_get net req).
Proof. intros H. repeat constructor. exact H. Qed.

(** One step through the structure of a generator body, for a goal about
    all its yielded events. *)
Ltac yielded_step :=
  match goal with
  | |- all_yielded _ (bind _ _) => apply all_yielded_bind; [| intros ? ?]
  | |- Forall _ (yielded (bind _ _)) => apply all_yielded_bind; [| intros ? ?]
  | |- all_yielded _ (when _ _) => apply all_yielded_when; intros ?
  | |- all_yielded _ (yield _) => apply all_yielded_yield
  | |- all_yielded _ (try_except _) => unfold try_except, all_yielded; simpl
  | |- all_yielded _ (ret _) => constructor
  | |- all_yielded _ (lift _) => constructor
  | |- all_yielded _ (raise _) => constructor
  | |- all_yielded _ (requests_get _ _) => constructor
  | |- all_yielded _ (session_get _ _ _ _ _ _ _) => constructor
  | |- all_yielded _ (match ?x with _ => _ end) => destruct x eqn:?
  | |- all_yielded _ (if ?x then _ else _) => destruct x eqn:?
  end.

Lemma rbind_Ok_inv {A B} (r : result A) (k : A -> result B) b :
  rbind r k = Ok b -> exists a, r = Ok a /\ k a = Ok b.
Proof. destruct r as [a|e]; simpl; intros H; [eauto | discriminate]. Qed.

(** Inversion of a successful [rbind] in hypothesis [H]. *)
Ltac rinv H :=
  let a := fresh "a" in
  let E := fresh "E" in
  apply rbind_Ok_inv in H; destruct H as (a & E & H).

Lemma nonempty_app_r {A} (a b : list A) :
  nonempty b = true -> nonempty (a ++ b) = true.
Proof. destruct a; simpl; auto. Qed.

Lemma ExposedPodsHandler_Ok pods v :
  ExposedPodsHandler pods = Ok v ->
  exists n, py_len pods = Ok n /\
    v = mkVulnerability ClsExposedPodsHandler (u "Exposed Pods") Kubelet
          InformationDisclosure None (Some (u "count: " ++ str_of_nat n))
          (Pods pods).
Proof.
  unfold ExposedPodsHandler. intros H. rinv H.
  injection H as <-. eauto.
Qed.

Lemma PrivilegedContainers_Ok rt cs v :
  PrivilegedContainers rt cs = Ok v ->
  exists p0 c0 rest, cs = (p0, c0) :: rest /\
    v = mkVulnerability ClsPrivilegedContainers (u "Privileged Container")
          KubernetesCluster AccessRisk (Some (u "KHV044"))
          (Some (u "pod: " ++ py_str rt p0 ++ u ", container: "
                   ++ py_str rt c0 ++ u ", count: "
                   ++ str_of_nat (List.length cs)))
          (Containers cs).
Proof.
  destruct cs as [|[p0 c0] rest]; simpl; intros H; [discriminate|].
  injection H as <-. eauto.
Qed.

(** The selector never produces a target: once a pod is chosen, [next]
    is applied to the parsed container list, which is no iterator. *)
Lemma get_random_pod_no_target self target :
  SecureKubeletPortHunter.get_random_pod self <> Ok (Some target).
Proof.
  unfold SecureKubeletPortHunter.get_random_pod. intros H.
  destruct (SecureKubeletPortHunter.pods_endpoint_data self) as [data|];
    [|discriminate].
  destruct (truthy data); [|discriminate].
  rinv H. rinv H. rinv H. rinv H.
  destruct a2 as [pd|]; [|discriminate].
  destruct (truthy pd); [|discriminate].
  rinv H. rinv H. rinv H.
  simpl in E5. discriminate.
Qed.

(* ================================================================== *)
(** ** The port-forward probe is inert *)
(* ================================================================== *)

Ltac unfold_secure :=
  unfold SecureKubeletPortHunter.execute,
    SecureKubeletPortHunter.test_handlers, SecureKubeletPortHunter.battery,
    SecureKubeletPortHunter.get_pods_endpoint,
    SecureKubeletPortHunter.check_healthz_endpoint,
    SecureKubeletPortHunter.DebugHandlers.test_running_pods,
    SecureKubeletPortHunter.DebugHandlers.test_pprof_cmdline,
    SecureKubeletPortHunter.DebugHandlers.test_container_logs,
    SecureKubeletPortHunter.DebugHandlers.test_exec_container,
    SecureKubeletPortHunter.DebugHandlers.test_run_container,
    SecureKubeletPortHunter.DebugHandlers.test_port_forward,
    SecureKubeletPortHunter.DebugHandlers.test_attach_container,
    SecureKubeletPortHunter.DebugHandlers.test_logs_endpoint.

Ltac unfold_readonly :=
  unfold ReadOnlyKubeletPortHunter.execute,
    ReadOnlyKubeletPortHunter.get_pods_endpoint,
    ReadOnlyKubeletPortHunter.get_k8s_version,
    ReadOnlyKubeletPortHunter.check_healthz_endpoint.

(** Turns the successful outcomes of the class constructors found among
    the hypotheses into the records they built. *)
Ltac constructor_facts :=
  repeat match goal with
  | H : outcome (lift _) = Ok _ |- _ => simpl in H
  | H : ExposedPodsHandler _ = Ok _ |- _ =>
      apply ExposedPodsHandler_Ok in H; destruct H as (? & ? & ->)
  | H : PrivilegedContainers _ _ = Ok _ |- _ =>
      apply PrivilegedContainers_Ok in H; destruct H as (? & ? & ? & ? & ->)
  end.

(** C10.  In every run of the secure-port hunter, whatever the agent
    answers to any request, no yielded event is an
    [ExposedPortForwardHandler]: the port-forward probe returns nothing
    to test, so its finding is never published. *)
Theorem port_forward_never_yielded :
  forall rt config net self ev,
    In ev (yielded (SecureKubeletPortHunter.execute rt config net self)) ->
    class_of ev <> Some ClsExposedPortForwardHandler.
Proof.
  intros rt config net self.
  apply Forall_forall.
  unfold_secure.
  repeat yielded_step; constructor_facts; discriminate.
Qed.

(** On the agent on which every handler is exposed, the port-forward
    endpoint answers 200 and the run still publishes nothing for it. *)
Lemma port_forward_never_yielded_witness :
  In (Vuln ExposedRunHandler)
     (yielded (SecureKubeletPortHunter.execute example_runtime self_test
                 net_exposed example_hunter)) /\
  net_exposed
    (mkRequest (u "https://{self.event.host}:10250portForward/default/kube-hunter?port=80")
       [(u "Upgrade", u "websocket"); (u "Connection", u "Upgrade");
        (u "Sec-Websocket-Key", u "s"); (u "Sec-Websocket-Version", u "13");
        (u "Sec-Websocket-Protocol", u "SPDY")] false true true)
  = plain 200 [] /\
  class_of (Vuln ExposedRunHandler) <> Some ClsExposedPortForwardHandler.
Proof.
  assert (H : In (Vuln ExposedRunHandler)
                (yielded (SecureKubeletPortHunter.execute example_runtime
                            self_test net_exposed example_hunter))).
  { vm_compute. do 7 right. left. reflexivity. }
  split; [exact H|]. split; [reflexivity|].
  exact (@port_forward_never_yielded example_runtime self_test net_exposed
           example_hunter (Vuln ExposedRunHandler) H).
Defined.

(* ================================================================== *)
(** ** Pod selection *)
(* ================================================================== *)

(** C4.  On the listing with a Running [kube-system] pod and a Pending
    [default] pod, the selector chooses the [kube-system] pod and then
    raises [TypeError] instead of returning its first container. *)
Theorem get_random_pod_raises_on_kube_system_listing :
  forall ev,
    SecureKubeletPortHunter.get_random_pod
      (SecureKubeletPortHunter.set_pods_endpoint_data
         (SecureKubeletPortHunter.init ev)
         (Some listing_pending_default_running_kube_system))
    = Raise TypeError.
Proof. intros ev. reflexivity. Qed.

(* ================================================================== *)
(** ** Evidence and payload of published findings *)
(* ================================================================== *)

(** C6, as stated, fails: with anonymous access flagged the secure-port
    hunter publishes [AnonymousAuthEnabled], which has neither evidence
    nor payload. *)
Lemma anonymous_auth_published_bare :
  In (Vuln AnonymousAuthEnabled)
     (yielded (SecureKubeletPortHunter.execute example_runtime (mkConfig true)
                 net_404 (SecureKubeletPortHunter.init anonymous_event)))
  /\ populated (Vuln AnonymousAuthEnabled) = false.
Proof. split; [left|]; reflexivity. Qed.

(** C6, amended.  Every event published by either prober has the shape
    of its class: [AnonymousAuthEnabled], [ExposedContainerLogsHandler],
    [ExposedExecHandler], [ExposedRunHandler], [ExposedAttachHandler] and
    [ExposedSystemLogs] are published with no evidence and no payload;
    every other vulnerability is published with non-empty evidence and a
    populated payload, and a version disclosure with a non-empty
    version. *)
Theorem published_events_shape :
  forall rt config net,
    (forall self ev,
        In ev (yielded (ReadOnlyKubeletPortHunter.execute rt net self)) ->
        published_shape ev) /\
    (forall self ev,
        In ev (yielded (SecureKubeletPortHunter.execute rt config net self)) ->
        published_shape ev).
Proof.
  intros rt config net. split; intros self; apply Forall_forall.
  - unfold_readonly.
    repeat yielded_step; constructor_facts; simpl; auto.
    all: try (split; [reflexivity | assumption]).
  - unfold_secure.
    repeat yielded_step; constructor_facts; simpl; auto.
    all: try (split; [reflexivity | assumption]).
    split; [apply nonempty_app_r; reflexivity | reflexivity].
Qed.

(** With anonymous access flagged the first published event is the bare
    [AnonymousAuthEnabled]. *)
Lemma published_events_shape_witness :
  published_shape (Vuln AnonymousAuthEnabled).
Proof.
  apply (proj2 (published_events_shape example_runtime self_test net_404)
               example_hunter).
  left. reflexivity.
Defined.

(* ================================================================== *)
(** ** The URLs of the secure-port hunter *)
(* ================================================================== *)

Lemma all_requests_session_get (Q : Request -> Prop) net s target h v r st :
  Q (mkRequest target (session_headers s ++ h) v r st) ->
  all_requests Q (session_get net s target h v r st).
Proof. intros H. repeat constructor. exact H. Qed.

Ltac requests_step :=
  match goal with
  | |- all_requests _ (bind _ _) => apply all_requests_bind; [| intros ? ?]
  | |- Forall _ (requests (bind _ _)) => apply all_requests_bind; [| intros ? ?]
  | |- all_requests _ (when _ _) => apply all_requests_when; intros ?
  | |- all_requests _ (yield _) => constructor
  | |- all_requests _ (try_except _) => unfold try_except, all_requests; simpl
  | |- all_requests _ (ret _) => constructor
  | |- all_requests _ (lift _) => constructor
  | |- all_requests _ (raise _) => constructor
  | |- all_requests _ (requests_get _ _) => apply all_requests_get
  | |- all_requests _ (session_get _ _ _ _ _ _ _) => apply all_requests_session_get
  | |- all_requests _ (match ?x with _ => _ end) => destruct x eqn:?
  | |- all_requests _ (if ?x then _ else _) => destruct x eqn:?
  end.

(** The target of a battery is the hunter's own pod: the selector never
    returns one. *)
Lemma selected_target config self target :
  outcome (if pod config
           then ret (Some (SecureKubeletPortHunter.kubehunter_pod self))
           else lift (SecureKubeletPortHunter.get_random_pod self))
  = Ok (Some target) ->
  pod config = true /\ target = SecureKubeletPortHunter.kubehunter_pod self.
Proof.
  destruct (pod config); simpl; intros H.
  - injection H as <-. auto.
  - exfalso. exact (get_random_pod_no_target _ H).
Qed.

(** C2.  Whatever the host and port of the event, the hunter's base URL
    is the literal text [https://{self.event.host}:10250], in which the
    placeholder is not replaced; so the base URLs of any two events are
    equal, and every request of every run (pods, healthz and each probe
    of the battery) goes to one of ten constant URLs. *)
Theorem secure_hunter_urls_constant :
  forall ev1 ev2 rt config net,
    SecureKubeletPortHunter.path (SecureKubeletPortHunter.init ev1)
    = u "https://{self.event.host}:10250" /\
    SecureKubeletPortHunter.path (SecureKubeletPortHunter.init ev1)
    = SecureKubeletPortHunter.path (SecureKubeletPortHunter.init ev2) /\
    Forall (fun r => In (url r) secure_request_urls)
      (requests (SecureKubeletPortHunter.execute rt config net
                   (SecureKubeletPortHunter.init ev1))).
Proof.
  intros ev1 ev2 rt config net. split; [reflexivity|]. split; [reflexivity|].
  unfold_secure.
  repeat requests_step.
  all: try match goal with
       | H : outcome (if pod _ then _ else _) = Ok (Some _) |- _ =>
           apply selected_target in H; destruct H as [_ ->]
       end.
  all: repeat match goal with
       | H : outcome (lift (format _ _)) = Ok _ |- _ =>
           vm_compute in H; injection H as <-
       end.
  all: simpl url; unfold secure_request_urls.
  all: repeat first [ left; vm_compute; reflexivity | right ].
Qed.

(* ================================================================== *)
(** ** The battery stops at the first probe that raises *)
(* ================================================================== *)

Lemma bind_assoc {A B C} (m : Run A) (f : A -> Run B) (g : B -> Run C) :
  bind (bind m f) g = bind m (fun a => bind (f a) g).
Proof.
  unfold bind. destruct (outcome m) as [a|e]; simpl; [|reflexivity].
  destruct (outcome (f a)) as [b|e]; simpl; [|reflexivity].
  rewrite !app_assoc. reflexivity.
Qed.

Lemma bind_ret_tt (m : Run unit) : bind m (fun _ => ret tt) = m.
Proof.
  destruct m as [r y [[]|e]]; unfold bind; simpl; [|reflexivity].
  rewrite !app_nil_r. reflexivity.
Qed.

Lemma bind_ext {A B} (m : Run A) (k k' : A -> Run B) :
  (forall a, k a = k' a) -> bind m k = bind m k'.
Proof.
  intros H. unfold bind. destruct (outcome m); [rewrite H|]; reflexivity.
Qed.

Lemma run_all_ok steps :
  Forall (fun s => outcome s = Ok tt) steps ->
  run_all steps = mkRun (List.concat (map (@requests unit) steps))
                        (List.concat (map (@yielded unit) steps)) (Ok tt).
Proof.
  induction 1 as [|s rest Hs _ IH]; simpl; [reflexivity|].
  rewrite (bind_Ok _ _ Hs), IH. reflexivity.
Qed.

Lemma run_all_first_failure before s after e :
  Forall (fun s => outcome s = Ok tt) before ->
  outcome s = Raise e ->
  run_all (before ++ s :: after)
  = mkRun (List.concat (map (@requests unit) before) ++ requests s)
          (List.concat (map (@yielded unit) before) ++ yielded s) (Raise e).
Proof.
  intros Hb Hs. induction Hb as [|b rest Hb _ IH]; simpl.
  - rewrite (bind_Raise _ _ Hs). reflexivity.
  - rewrite (bind_Ok _ _ Hb), IH. simpl. rewrite !app_assoc. reflexivity.
Qed.

Lemma battery_as_steps rt net dh :
  SecureKubeletPortHunter.battery rt net dh = run_all (battery_steps rt net dh).
Proof.
  unfold SecureKubeletPortHunter.battery, battery_steps, run_all.
  do 7 (rewrite bind_assoc; apply bind_ext; intros ?; apply bind_ext; intros _).
  symmetry. apply bind_ret_tt.
Qed.

Lemma no_yields_bind {A B} (m : Run A) (k : A -> Run B) :
  no_yields m -> (forall a, no_yields (k a)) -> no_yields (bind m k).
Proof.
  unfold no_yields, bind. intros Hm Hk.
  destruct (outcome m) as [a|e]; simpl; [rewrite Hm, Hk|]; auto.
Qed.

Lemma no_yield_on_raise_bind {A B} (m : Run A) (k : A -> Run B) :
  no_yields m -> (forall a, no_yield_on_raise (k a)) ->
  no_yield_on_raise (bind m k).
Proof.
  unfold no_yields, no_yield_on_raise, bind. intros Hm Hk e.
  destruct (outcome m) as [a|e'] eqn:E; simpl; intros H; [|exact Hm].
  rewrite Hm. simpl. eauto.
Qed.

Ltac no_yields_tac :=
  repeat first
    [ reflexivity
    | apply no_yields_bind; [| intros ?]
    | match goal with
      | |- no_yields (if ?c then _ else _) => destruct c
      | |- no_yields (match ?x with _ => _ end) => destruct x
      end ].

Ltac no_yield_on_raise_tac :=
  repeat first
    [ apply no_yield_on_raise_bind; [solve [no_yields_tac] | intros ?]
    | match goal with
      | |- no_yield_on_raise (when ?c _) => destruct c; simpl
      | |- no_yield_on_raise (match ?x with _ => _ end) => destruct x
      | |- no_yield_on_raise (yield _) => intros ? ?; discriminate
      | |- no_yield_on_raise (ret _) => intros ? ?; reflexivity
      end ].

Lemma battery_step_no_yield_on_raise rt net dh :
  Forall (fun s => no_yield_on_raise s) (battery_steps rt net dh).
Proof.
  unfold battery_steps.
  repeat constructor.
  all: unfold SecureKubeletPortHunter.DebugHandlers.test_running_pods,
    SecureKubeletPortHunter.DebugHandlers.test_pprof_cmdline,
    SecureKubeletPortHunter.DebugHandlers.test_container_logs,
    SecureKubeletPortHunter.DebugHandlers.test_exec_container,
    SecureKubeletPortHunter.DebugHandlers.test_run_container,
    SecureKubeletPortHunter.DebugHandlers.test_port_forward,
    SecureKubeletPortHunter.DebugHandlers.test_attach_container,
    SecureKubeletPortHunter.DebugHandlers.test_logs_endpoint.
  all: no_yield_on_raise_tac.
Qed.

(** C1, as stated, fails: when the exec probe raises a transport error
    the run, attach and logs probes, which would all have succeeded, are
    not run, and their findings are missing from the run. *)
Lemma exec_failure_suppresses_later_probes :
  outcome (SecureKubeletPortHunter.DebugHandlers.test_exec_container
             example_runtime net_exec_fails example_handlers)
  = Raise TransportError /\
  outcome (SecureKubeletPortHunter.DebugHandlers.test_run_container
             net_exec_fails example_handlers) = Ok true /\
  outcome (SecureKubeletPortHunter.DebugHandlers.test_attach_container
             example_runtime net_exec_fails example_handlers) = Ok true /\
  outcome (SecureKubeletPortHunter.DebugHandlers.test_logs_endpoint
             net_exec_fails example_handlers) = Ok true /\
  yielded (SecureKubeletPortHunter.test_handlers example_runtime self_test
             net_exec_fails example_hunter)
  = [ Vuln (ExposedRunningPodsHandler 0);
      Vuln (ExposedKubeletCmdline (u "/usr/bin/kubelet --v=2"));
      Vuln ExposedContainerLogsHandler ].
Proof. repeat split; vm_compute; reflexivity. Qed.

(** C1, amended.  In self-test mode the battery runs its probes in the
    order of the source and stops at the first one that raises: the run
    of the handlers ends normally, it has yielded exactly the findings of
    the probes before the failing one, and it has sent no request of a
    later probe. *)
Theorem battery_stops_at_first_failure :
  forall rt config net self before s after e,
    pod config = true ->
    battery_steps rt net
      (SecureKubeletPortHunter.DebugHandlers.init
         (SecureKubeletPortHunter.path self)
         (SecureKubeletPortHunter.kubehunter_pod self)
         (Some (SecureKubeletPortHunter.session self)))
    = before ++ s :: after ->
    Forall (fun m => outcome m = Ok tt) before ->
    outcome s = Raise e ->
    let run := SecureKubeletPortHunter.test_handlers rt config net self in
    outcome run = Ok tt /\
    yielded run = List.concat (map (@yielded unit) before) /\
    requests run = List.concat (map (@requests unit) before) ++ requests s.
Proof.
  intros rt config net self before s after e Hpod Hsteps Hbefore Hs.
  assert (Hy : yielded s = []).
  { pose proof (battery_step_no_yield_on_raise rt net
      (SecureKubeletPortHunter.DebugHandlers.init
         (SecureKubeletPortHunter.path self)
         (SecureKubeletPortHunter.kubehunter_pod self)
         (Some (SecureKubeletPortHunter.session self)))) as HF.
    rewrite Hsteps in HF. apply Forall_app in HF. destruct HF as [_ HF].
    inversion HF as [|? ? Hns _]. exact (Hns e Hs). }
  unfold SecureKubeletPortHunter.test_handlers. rewrite Hpod.
  unfold bind at 1. simpl.
  rewrite battery_as_steps, Hsteps.
  rewrite (@run_all_first_failure before s after e Hbefore Hs), Hy, app_nil_r.
  simpl. auto.
Qed.

(** At the agent whose exec probe fails, the three probes before it are
    the ones whose findings are published. *)
Lemma battery_stops_at_first_failure_witness :
  let steps := battery_steps example_runtime net_exec_fails example_handlers in
  let run := SecureKubeletPortHunter.test_handlers example_runtime self_test
               net_exec_fails example_hunter in
  outcome run = Ok tt /\
  yielded run = List.concat (map (@yielded unit) (firstn 3 steps)) /\
  requests run = List.concat (map (@requests unit) (firstn 3 steps))
                 ++ requests (nth 3 steps (ret tt)).
Proof.
  apply (@battery_stops_at_first_failure example_runtime self_test
           net_exec_fails example_hunter
           (firstn 3 (battery_steps example_runtime net_exec_fails example_handlers))
           (nth 3 (battery_steps example_runtime net_exec_fails example_handlers) (ret tt))
           (skipn 4 (battery_steps example_runtime net_exec_fails example_handlers))
           TransportError).
  - reflexivity.
  - reflexivity.
  - repeat constructor.
  - vm_compute. reflexivity.
Defined.

(* ================================================================== *)
(** ** The read-only hunter: its four operations and its findings *)
(* ================================================================== *)

(** Case analysis on everything a goal still matches on. *)
Ltac cases :=
  repeat match goal with
  | |- context [match ?x with _ => _ end] => destruct x; simpl
  end.

Lemma ro_pods_stage net self :
  requests (ReadOnlyKubeletPortHunter.get_pods_endpoint net self)
  = [ReadOnlyKubeletPortHunter.pods_request self] /\
  yielded (ReadOnlyKubeletPortHunter.get_pods_endpoint net self) = [].
Proof.
  unfold ReadOnlyKubeletPortHunter.get_pods_endpoint, requests_get, bind.
  simpl. cases; auto.
Qed.

Lemma ro_version_stage net self :
  requests (ReadOnlyKubeletPortHunter.get_k8s_version net self)
  = [ReadOnlyKubeletPortHunter.metrics_request self] /\
  yielded (ReadOnlyKubeletPortHunter.get_k8s_version net self) = [].
Proof.
  unfold ReadOnlyKubeletPortHunter.get_k8s_version, requests_get, bind.
  simpl. destruct (net _); simpl; auto.
Qed.

Lemma ro_healthz_stage net self :
  requests (ReadOnlyKubeletPortHunter.check_healthz_endpoint net self)
  = [ReadOnlyKubeletPortHunter.healthz_request self] /\
  yielded (ReadOnlyKubeletPortHunter.check_healthz_endpoint net self) = [].
Proof.
  unfold ReadOnlyKubeletPortHunter.check_healthz_endpoint, requests_get, bind.
  simpl. destruct (net _); simpl; auto.
Qed.

Lemma py_iter_len x l : py_iter x = Ok l -> exists n, py_len x = Ok n.
Proof. destruct x; simpl; intros H; try discriminate; eauto. Qed.

(** When the scan returns, the listing (if it is true) has items with a
    length, and a returned list is not empty. *)
Lemma find_privileged_containers_Ok self priv :
  ReadOnlyKubeletPortHunter.find_privileged_containers self = Ok priv ->
  (forall cs, priv = Some cs -> nonempty cs = true) /\
  (forall d, ReadOnlyKubeletPortHunter.pods_endpoint_data self = Some d ->
             truthy d = true ->
             exists items n, getitem d (u "items") = Ok items /\
                             py_len items = Ok n).
Proof.
  unfold ReadOnlyKubeletPortHunter.find_privileged_containers. intros H.
  rinv H. injection H as <-. split.
  - intros cs. destruct a as [|c l]; simpl; [discriminate|].
    intros [= <-]. reflexivity.
  - intros d Hd Ht. rewrite Hd in E. simpl in E. rewrite Ht in E.
    rinv E. rinv E. destruct (py_iter_len _ E1) as [n Hn]. eauto.
Qed.

Lemma run_eta {A} (m : Run A) :
  m = mkRun (requests m) (yielded m) (outcome m).
Proof. destruct m; reflexivity. Qed.

Lemma guard_version ver :
  match ver with
  | Some version =>
      when (nonempty version)
        (yield (K8sVersionDisclosure version (u "/metrics") (u "on Kubelet")))
  | None => ret tt
  end = mkRun [] (version_events ver) (Ok tt).
Proof. destruct ver as [v|]; simpl; [destruct (nonempty v)|]; reflexivity. Qed.

Lemma guard_privileged rt priv :
  (forall cs, priv = Some cs -> nonempty cs = true) ->
  match priv with
  | Some containers =>
      when (nonempty containers)
        (v <- lift (PrivilegedContainers rt containers) ;; yield (Vuln v))%run
  | None => ret tt
  end = mkRun [] (privileged_events rt priv) (Ok tt).
Proof.
  intros H. destruct priv as [cs|]; simpl; [|reflexivity].
  destruct cs as [|[p c] rest]; [|reflexivity].
  specialize (H [] eq_refl). discriminate.
Qed.

Lemma guard_healthz hz :
  match hz with
  | Some status =>
      when (nonempty status) (yield (Vuln (ExposedHealthzHandler status)))
  | None => ret tt
  end = mkRun [] (healthz_events hz) (Ok tt).
Proof. destruct hz as [v|]; simpl; [destruct (nonempty v)|]; reflexivity. Qed.

Lemma guard_pods data :
  (forall d, data = Some d -> truthy d = true ->
             exists items n, getitem d (u "items") = Ok items /\
                             py_len items = Ok n) ->
  match data with
  | Some d =>
      when (truthy d)
        (pods <- lift (getitem d (u "items")) ;;
         v <- lift (ExposedPodsHandler pods) ;;
         yield (Vuln v))%run
  | None => ret tt
  end = mkRun [] (pods_events data) (Ok tt).
Proof.
  intros H. destruct data as [d|]; simpl; [|reflexivity].
  destruct (truthy d) eqn:T; simpl; [|reflexivity].
  destruct (H d eq_refl T) as (items & n & -> & Hn).
  unfold ExposedPodsHandler, bind, lift. simpl. rewrite Hn. reflexivity.
Qed.

Lemma runs_as_eq {A} (m : Run A) r y o : runs_as m r y o -> m = mkRun r y o.
Proof. intros (<- & <- & <-). apply run_eta. Qed.

Lemma runs_as_mk {A} r y (o : result A) : runs_as (mkRun r y o) r y o.
Proof. repeat split. Qed.

Lemma runs_as_bind {A B} (m : Run A) (k : A -> Run B) r1 y1 a r2 y2 o :
  runs_as m r1 y1 (Ok a) -> runs_as (k a) r2 y2 o ->
  runs_as (bind m k) (r1 ++ r2) (y1 ++ y2) o.
Proof.
  intros (<- & <- & Ho) (<- & <- & <-). rewrite (bind_Ok _ _ Ho).
  repeat split.
Qed.

Lemma runs_as_bind_raise {A B} (m : Run A) (k : A -> Run B) r y e :
  runs_as m r y (Raise e) -> runs_as (bind m k) r y (Raise e).
Proof.
  intros (<- & <- & Ho). rewrite (bind_Raise _ _ Ho). repeat split.
Qed.

Lemma runs_as_conv {A} (m : Run A) r y o r' y' :
  runs_as m r y o -> r = r' -> y = y' -> runs_as m r' y' o.
Proof. intros H <- <-. exact H. Qed.

Lemma ro_execute_ok rt net self data ver priv hz :
  outcome (ReadOnlyKubeletPortHunter.get_pods_endpoint net self) = Ok data ->
  outcome (ReadOnlyKubeletPortHunter.get_k8s_version net self) = Ok ver ->
  ReadOnlyKubeletPortHunter.find_privileged_containers
    (ReadOnlyKubeletPortHunter.set_pods_endpoint_data self data) = Ok priv ->
  outcome (ReadOnlyKubeletPortHunter.check_healthz_endpoint net self) = Ok hz ->
  ReadOnlyKubeletPortHunter.execute rt net self
  = mkRun [ReadOnlyKubeletPortHunter.pods_request self;
           ReadOnlyKubeletPortHunter.metrics_request self;
           ReadOnlyKubeletPortHunter.healthz_request self]
          (version_events ver ++ privileged_events rt priv
             ++ healthz_events hz ++ pods_events data)
          (Ok tt).
Proof.
  intros Hp Hv Hs Hh.
  destruct (find_privileged_containers_Ok _ Hs) as [Hne Hitems].
  simpl in Hitems.
  apply runs_as_eq.
  unfold ReadOnlyKubeletPortHunter.execute.
  eapply runs_as_conv.
  - eapply runs_as_bind.
    { destruct (ro_pods_stage net self) as [R Y]. split; [exact R|].
      split; [exact Y | exact Hp]. }
    eapply runs_as_bind.
    { destruct (ro_version_stage net self) as [R Y]. split; [exact R|].
      split; [exact Y | exact Hv]. }
    eapply runs_as_bind.
    { unfold lift. rewrite Hs. apply runs_as_mk. }
    eapply runs_as_bind.
    { destruct (ro_healthz_stage net self) as [R Y]. split; [exact R|].
      split; [exact Y | exact Hh]. }
    eapply runs_as_bind; [rewrite guard_version; apply runs_as_mk|].
    eapply runs_as_bind;
      [rewrite (guard_privileged rt Hne); apply runs_as_mk|].
    eapply runs_as_bind; [rewrite guard_healthz; apply runs_as_mk|].
    simpl. rewrite (guard_pods Hitems). apply runs_as_mk.
  - reflexivity.
  - simpl. reflexivity.
Qed.

Lemma ro_pods_answered net self data :
  outcome (ReadOnlyKubeletPortHunter.get_pods_endpoint net self) = Ok data ->
  exists r, net (ReadOnlyKubeletPortHunter.pods_request self) = Ok r.
Proof.
  unfold ReadOnlyKubeletPortHunter.get_pods_endpoint, requests_get, bind.
  simpl. destruct (net _) as [r|e]; simpl; [eauto | discriminate].
Qed.

Lemma ro_version_answered net self ver :
  outcome (ReadOnlyKubeletPortHunter.get_k8s_version net self) = Ok ver ->
  exists r, net (ReadOnlyKubeletPortHunter.metrics_request self) = Ok r.
Proof.
  unfold ReadOnlyKubeletPortHunter.get_k8s_version, requests_get, bind.
  simpl. destruct (net _) as [r|e]; simpl; [eauto | discriminate].
Qed.

Lemma ro_healthz_answered net self hz :
  outcome (ReadOnlyKubeletPortHunter.check_healthz_endpoint net self) = Ok hz ->
  exists r, net (ReadOnlyKubeletPortHunter.healthz_request self) = Ok r /\
            hz = if status_code r =? 200 then Some (text r) else None.
Proof.
  unfold ReadOnlyKubeletPortHunter.check_healthz_endpoint, requests_get, bind.
  simpl. destruct (net _) as [r|e]; simpl; [|discriminate].
  intros [= <-]. eauto.
Qed.

Lemma ro_pods_runs net self o :
  outcome (ReadOnlyKubeletPortHunter.get_pods_endpoint net self) = o ->
  runs_as (ReadOnlyKubeletPortHunter.get_pods_endpoint net self)
          [ReadOnlyKubeletPortHunter.pods_request self] [] o.
Proof. intros H. destruct (ro_pods_stage net self). repeat split; auto. Qed.

Lemma ro_version_runs net self d o :
  outcome (ReadOnlyKubeletPortHunter.get_k8s_version net self) = o ->
  runs_as (ReadOnlyKubeletPortHunter.get_k8s_version net
             (ReadOnlyKubeletPortHunter.set_pods_endpoint_data self d))
          [ReadOnlyKubeletPortHunter.metrics_request self] [] o.
Proof. intros H. destruct (ro_version_stage net self). repeat split; auto. Qed.

Lemma ro_healthz_runs net self d o :
  outcome (ReadOnlyKubeletPortHunter.check_healthz_endpoint net self) = o ->
  runs_as (ReadOnlyKubeletPortHunter.check_healthz_endpoint net
             (ReadOnlyKubeletPortHunter.set_pods_endpoint_data self d))
          [ReadOnlyKubeletPortHunter.healthz_request self] [] o.
Proof. intros H. destruct (ro_healthz_stage net self). repeat split; auto. Qed.

Lemma lift_runs {A} (r o : result A) : r = o -> runs_as (lift r) [] [] o.
Proof. intros <-. repeat split. Qed.

(** A run of the read-only hunter either raises in one of its four
    operations, before anything is yielded, or all four return. *)
Lemma ro_execute_cases rt net self :
  (exists e, outcome (ReadOnlyKubeletPortHunter.execute rt net self) = Raise e /\
             yielded (ReadOnlyKubeletPortHunter.execute rt net self) = []) \/
  (exists data ver priv hz,
      outcome (ReadOnlyKubeletPortHunter.get_pods_endpoint net self) = Ok data /\
      outcome (ReadOnlyKubeletPortHunter.get_k8s_version net self) = Ok ver /\
      ReadOnlyKubeletPortHunter.find_privileged_containers
        (ReadOnlyKubeletPortHunter.set_pods_endpoint_data self data) = Ok priv /\
      outcome (ReadOnlyKubeletPortHunter.check_healthz_endpoint net self) = Ok hz).
Proof.
  assert (raised : forall r e,
            runs_as (ReadOnlyKubeletPortHunter.execute rt net self) r
                    [] (Raise e) ->
            exists e, outcome (ReadOnlyKubeletPortHunter.execute rt net self)
                      = Raise e /\
                      yielded (ReadOnlyKubeletPortHunter.execute rt net self) = []).
  { intros r e (_ & Y & O). eauto. }
  destruct (outcome (ReadOnlyKubeletPortHunter.get_pods_endpoint net self))
    as [data|e] eqn:Hp.
  2:{ left. eapply raised. unfold ReadOnlyKubeletPortHunter.execute.
      eapply runs_as_bind_raise. apply ro_pods_runs. exact Hp. }
  destruct (outcome (ReadOnlyKubeletPortHunter.get_k8s_version net self))
    as [ver|e] eqn:Hv.
  2:{ left. eapply raised. unfold ReadOnlyKubeletPortHunter.execute.
      eapply runs_as_conv;
        [eapply runs_as_bind; [apply ro_pods_runs; exact Hp|];
         eapply runs_as_bind_raise; apply ro_version_runs; exact Hv
        | reflexivity | reflexivity]. }
  destruct (ReadOnlyKubeletPortHunter.find_privileged_containers
              (ReadOnlyKubeletPortHunter.set_pods_endpoint_data self data))
    as [priv|e] eqn:Hs.
  2:{ left. eapply raised. unfold ReadOnlyKubeletPortHunter.execute.
      eapply runs_as_conv;
        [eapply runs_as_bind; [apply ro_pods_runs; exact Hp|];
         eapply runs_as_bind; [apply ro_version_runs; exact Hv|];
         eapply runs_as_bind_raise; apply lift_runs; exact Hs
        | reflexivity | reflexivity]. }
  destruct (outcome (ReadOnlyKubeletPortHunter.check_healthz_endpoint net self))
    as [hz|e] eqn:Hh.
  2:{ left. eapply raised. unfold ReadOnlyKubeletPortHunter.execute.
      eapply runs_as_conv;
        [eapply runs_as_bind; [apply ro_pods_runs; exact Hp|];
         eapply runs_as_bind; [apply ro_version_runs; exact Hv|];
         eapply runs_as_bind; [apply lift_runs; exact Hs|];
         eapply runs_as_bind_raise; apply ro_healthz_runs; exact Hh
        | reflexivity | reflexivity]. }
  right. exists data, ver, priv, hz. auto.
Qed.

(** C5, as stated, fails: a transport error on the pods fetch ends the
    run before the metrics and health fetches are made, and nothing is
    published although both would have produced a finding. *)
Lemma pods_failure_suppresses_other_findings :
  outcome (ReadOnlyKubeletPortHunter.get_k8s_version net_pods_unreachable
             example_readonly) = Ok (Some (u "v1.18.0")) /\
  outcome (ReadOnlyKubeletPortHunter.check_healthz_endpoint
             net_pods_unreachable example_readonly) = Ok (Some (u "ok")) /\
  ReadOnlyKubeletPortHunter.execute example_runtime net_pods_unreachable
    example_readonly
  = mkRun [ReadOnlyKubeletPortHunter.pods_request example_readonly] []
          (Raise TransportError).
Proof. repeat split; vm_compute; reflexivity. Qed.

(** The first of the four operations that raises ends the run: the
    requests made so far have been sent, nothing has been yielded, and
    the run raises the exception of that operation. *)
Lemma ro_execute_first_failure rt net self :
  (forall e,
      outcome (ReadOnlyKubeletPortHunter.get_pods_endpoint net self) = Raise e ->
      ReadOnlyKubeletPortHunter.execute rt net self
      = mkRun [ReadOnlyKubeletPortHunter.pods_request self] [] (Raise e)) /\
  (forall data e,
      outcome (ReadOnlyKubeletPortHunter.get_pods_endpoint net self) = Ok data ->
      outcome (ReadOnlyKubeletPortHunter.get_k8s_version net self) = Raise e ->
      ReadOnlyKubeletPortHunter.execute rt net self
      = mkRun [ReadOnlyKubeletPortHunter.pods_request self;
               ReadOnlyKubeletPortHunter.metrics_request self] [] (Raise e)) /\
  (forall data ver e,
      outcome (ReadOnlyKubeletPortHunter.get_pods_endpoint net self) = Ok data ->
      outcome (ReadOnlyKubeletPortHunter.get_k8s_version net self) = Ok ver ->
      ReadOnlyKubeletPortHunter.find_privileged_containers
        (ReadOnlyKubeletPortHunter.set_pods_endpoint_data self data) = Raise e ->
      ReadOnlyKubeletPortHunter.execute rt net self
      = mkRun [ReadOnlyKubeletPortHunter.pods_request self;
               ReadOnlyKubeletPortHunter.metrics_request self] [] (Raise e)) /\
  (forall data ver priv e,
      outcome (ReadOnlyKubeletPortHunter.get_pods_endpoint net self) = Ok data ->
      outcome (ReadOnlyKubeletPortHunter.get_k8s_version net self) = Ok ver ->
      ReadOnlyKubeletPortHunter.find_privileged_containers
        (ReadOnlyKubeletPortHunter.set_pods_endpoint_data self data) = Ok priv ->
      outcome (ReadOnlyKubeletPortHunter.check_healthz_endpoint net self)
      = Raise e ->
      ReadOnlyKubeletPortHunter.execute rt net self
      = mkRun [ReadOnlyKubeletPortHunter.pods_request self;
               ReadOnlyKubeletPortHunter.metrics_request self;
               ReadOnlyKubeletPortHunter.healthz_request self] [] (Raise e)).
Proof.
  repeat split.
  - intros e Hp. apply runs_as_eq.
    unfold ReadOnlyKubeletPortHunter.execute.
    eapply runs_as_bind_raise. apply ro_pods_runs. exact Hp.
  - intros data e Hp Hv. apply runs_as_eq.
    unfold ReadOnlyKubeletPortHunter.execute.
    eapply runs_as_conv;
      [eapply runs_as_bind; [apply ro_pods_runs; exact Hp|];
       eapply runs_as_bind_raise; apply ro_version_runs; exact Hv
      | reflexivity | reflexivity].
  - intros data ver e Hp Hv Hs. apply runs_as_eq.
    unfold ReadOnlyKubeletPortHunter.execute.
    eapply runs_as_conv;
      [eapply runs_as_bind; [apply ro_pods_runs; exact Hp|];
       eapply runs_as_bind; [apply ro_version_runs; exact Hv|];
       eapply runs_as_bind_raise; apply lift_runs; exact Hs
      | reflexivity | reflexivity].
  - intros data ver priv e Hp Hv Hs Hh. apply runs_as_eq.
    unfold ReadOnlyKubeletPortHunter.execute.
    eapply runs_as_conv;
      [eapply runs_as_bind; [apply ro_pods_runs; exact Hp|];
       eapply runs_as_bind; [apply ro_version_runs; exact Hv|];
       eapply runs_as_bind; [apply lift_runs; exact Hs|];
       eapply runs_as_bind_raise; apply ro_healthz_runs; exact Hh
      | reflexivity | reflexivity].
Qed.

(** C5, amended.  A run of the read-only hunter performs the pods fetch,
    the version probe, the privileged-container scan and the health
    fetch in this order, all before it publishes anything.  The first of
    the four that raises, whatever the cause (a transport error, a body
    that is not JSON, a metrics line or a listing that cannot be read),
    ends the run with that very exception: the requests made so far are
    the only ones sent, the later operations are not performed and
    nothing is published.  So a run that raises has published nothing,
    and a transport error on any of the three requests makes the run
    raise.  If all four return, the three requests have been sent, the
    run ends normally and the published events are the concatenation of
    what each result contributes on its own: a negative result of one
    does not touch the findings of the others. *)
Theorem read_only_run_aborts_or_combines :
  forall rt net self,
    (forall e,
        outcome (ReadOnlyKubeletPortHunter.execute rt net self) = Raise e ->
        yielded (ReadOnlyKubeletPortHunter.execute rt net self) = []) /\
    (forall e,
        outcome (ReadOnlyKubeletPortHunter.get_pods_endpoint net self) = Raise e ->
        ReadOnlyKubeletPortHunter.execute rt net self
        = mkRun [ReadOnlyKubeletPortHunter.pods_request self] [] (Raise e)) /\
    (forall data e,
        outcome (ReadOnlyKubeletPortHunter.get_pods_endpoint net self) = Ok data ->
        outcome (ReadOnlyKubeletPortHunter.get_k8s_version net self) = Raise e ->
        ReadOnlyKubeletPortHunter.execute rt net self
        = mkRun [ReadOnlyKubeletPortHunter.pods_request self;
                 ReadOnlyKubeletPortHunter.metrics_request self] [] (Raise e)) /\
    (forall data ver e,
        outcome (ReadOnlyKubeletPortHunter.get_pods_endpoint net self) = Ok data ->
        outcome (ReadOnlyKubeletPortHunter.get_k8s_version net self) = Ok ver ->
        ReadOnlyKubeletPortHunter.find_privileged_containers
          (ReadOnlyKubeletPortHunter.set_pods_endpoint_data self data)
        = Raise e ->
        ReadOnlyKubeletPortHunter.execute rt net self
        = mkRun [ReadOnlyKubeletPortHunter.pods_request self;
                 ReadOnlyKubeletPortHunter.metrics_request self] [] (Raise e)) /\
    (forall data ver priv e,
        outcome (ReadOnlyKubeletPortHunter.get_pods_endpoint net self) = Ok data ->
        outcome (ReadOnlyKubeletPortHunter.get_k8s_version net self) = Ok ver ->
        ReadOnlyKubeletPortHunter.find_privileged_containers
          (ReadOnlyKubeletPortHunter.set_pods_endpoint_data self data)
        = Ok priv ->
        outcome (ReadOnlyKubeletPortHunter.check_healthz_endpoint net self)
        = Raise e ->
        ReadOnlyKubeletPortHunter.execute rt net self
        = mkRun [ReadOnlyKubeletPortHunter.pods_request self;
                 ReadOnlyKubeletPortHunter.metrics_request self;
                 ReadOnlyKubeletPortHunter.healthz_request self] []
                (Raise e)) /\
    (forall req e,
        In req [ReadOnlyKubeletPortHunter.pods_request self;
                ReadOnlyKubeletPortHunter.metrics_request self;
                ReadOnlyKubeletPortHunter.healthz_request self] ->
        net req = Raise e ->
        exists e',
          outcome (ReadOnlyKubeletPortHunter.execute rt net self) = Raise e') /\
    (forall data ver priv hz,
        outcome (ReadOnlyKubeletPortHunter.get_pods_endpoint net self) = Ok data ->
        outcome (ReadOnlyKubeletPortHunter.get_k8s_version net self) = Ok ver ->
        ReadOnlyKubeletPortHunter.find_privileged_containers
          (ReadOnlyKubeletPortHunter.set_pods_endpoint_data self data) = Ok priv ->
        outcome (ReadOnlyKubeletPortHunter.check_healthz_endpoint net self) = Ok hz ->
        ReadOnlyKubeletPortHunter.execute rt net self
        = mkRun [ReadOnlyKubeletPortHunter.pods_request self;
                 ReadOnlyKubeletPortHunter.metrics_request self;
                 ReadOnlyKubeletPortHunter.healthz_request self]
                (version_events ver ++ privileged_events rt priv
                   ++ healthz_events hz ++ pods_events data)
                (Ok tt)).
Proof.
  intros rt net self.
  destruct (ro_execute_first_failure rt net self) as (F1 & F2 & F3 & F4).
  split; [|split; [exact F1|split; [exact F2|split; [exact F3|split;
    [exact F4|split]]]]].
  - intros e He.
    destruct (ro_execute_cases rt net self)
      as [(e' & _ & Y) | (data & ver & priv & hz & Hp & Hv & Hs & Hh)];
      [exact Y|].
    rewrite (ro_execute_ok rt _ _ Hp Hv Hs Hh) in He. discriminate.
  - intros req e Hin Hreq.
    destruct (ro_execute_cases rt net self)
      as [(e' & O & _) | (data & ver & priv & hz & Hp & Hv & _ & Hh)];
      [eauto|].
    exfalso.
    destruct (ro_pods_answered _ _ Hp) as [r1 H1].
    destruct (ro_version_answered _ _ Hv) as [r2 H2].
    destruct (ro_healthz_answered _ _ Hh) as (r3 & H3 & _).
    destruct Hin as [<- | [<- | [<- | []]]]; congruence.
  - intros data ver priv hz. apply ro_execute_ok.
Qed.

(** On the agent that answers all three fetches, the run publishes the
    version, the health status and the (empty) pods listing; on the
    agent whose metrics carry a label without [=], the version probe
    raises [ValueError] after the pods listing was fetched, and the run
    ends with that exception before the health fetch. *)
Lemma read_only_run_aborts_or_combines_witness :
  ReadOnlyKubeletPortHunter.execute example_runtime net_readonly
    example_readonly
  = mkRun [ReadOnlyKubeletPortHunter.pods_request example_readonly;
           ReadOnlyKubeletPortHunter.metrics_request example_readonly;
           ReadOnlyKubeletPortHunter.healthz_request example_readonly]
          (version_events (Some (u "v1.18.0"))
             ++ privileged_events example_runtime None
             ++ healthz_events (Some (u "ok"))
             ++ pods_events (Some (obj [("items"%string, JArr [])])))
          (Ok tt) /\
  ReadOnlyKubeletPortHunter.execute example_runtime net_malformed_metrics
    example_readonly
  = mkRun [ReadOnlyKubeletPortHunter.pods_request example_readonly;
           ReadOnlyKubeletPortHunter.metrics_request example_readonly] []
          (Raise ValueError).
Proof.
  split.
  - apply (proj2 (proj2 (proj2 (proj2 (proj2 (proj2
             (read_only_run_aborts_or_combines example_runtime net_readonly
                example_readonly))))))).
    all: vm_compute; reflexivity.
  - apply (proj1 (proj2 (proj2
             (read_only_run_aborts_or_combines example_runtime
                net_malformed_metrics example_readonly))) None ValueError).
    all: vm_compute; reflexivity.
Defined.

(* ================================================================== *)
(** ** The health finding *)
(* ================================================================== *)






















(* ================================================================== *)
(** ** The privileged-container scan *)
(* ================================================================== *)

Lemma getitem_field k j v : field k j = Some v -> getitem j (u k) = Ok v.
Proof.
  destruct j; simpl; try discriminate. intros ->. reflexivity.
Qed.

Lemma wf_container_scan c :
  wf_container c = true ->
  exists cn, container_name c = Some cn /\
             getitem c (u "name") = Ok (JStr cn) /\
             ReadOnlyKubeletPortHunter.is_privileged c
             = Ok (declares_privileged c).
Proof.
  unfold wf_container, ReadOnlyKubeletPortHunter.is_privileged,
    declares_privileged, container_name.
  destruct c as [| | | | |?|fields]; try discriminate.
  destruct (field "name" (JObj fields)) as [[| | | |cn| |]|] eqn:N;
    try discriminate.
  intros H. exists cn. split; [reflexivity|].
  split; [apply getitem_field; exact N|].
  simpl in *.
  destruct (lookup (u "securityContext") fields) as [[| | | | | |g]|];
    try discriminate; simpl; [|reflexivity].
  destruct (lookup (u "privileged") g) as [[|[|]| | | | |]|];
    try discriminate; reflexivity.
Qed.

Lemma scan_containers_wf pod n cs acc :
  pod_name pod = Some n ->
  forallb wf_container cs = true ->
  ReadOnlyKubeletPortHunter.scan_containers pod cs acc
  = Ok (acc ++ map as_json_pair
          (flat_map (fun c =>
                       match container_name c with
                       | Some cn =>
                           if declares_privileged c then [(n, cn)] else []
                       | None => []
                       end) cs)).
Proof.
  intros Hn. revert acc.
  assert (Hmd : exists md, getitem pod (u "metadata") = Ok md /\
                           getitem md (u "name") = Ok (JStr n)).
  { unfold pod_name in Hn.
    destruct (field "metadata" pod) as [md|] eqn:M; [|discriminate].
    destruct (field "name" md) as [[| | | |s| |]|] eqn:N; try discriminate.
    injection Hn as ->. exists md.
    split; apply getitem_field; assumption. }
  destruct Hmd as (md & Hmd & Hname).
  induction cs as [|c cs IH]; intros acc Hwf; simpl.
  - rewrite app_nil_r. reflexivity.
  - simpl in Hwf. apply andb_prop in Hwf. destruct Hwf as [Hc Hcs].
    destruct (wf_container_scan _ Hc) as (cn & -> & Hcn & ->). simpl.
    destruct (declares_privileged c); simpl.
    + rewrite Hmd. simpl. rewrite Hname. simpl. rewrite Hcn. simpl.
      rewrite IH by exact Hcs. rewrite <- app_assoc. reflexivity.
    + apply IH. exact Hcs.
Qed.

Lemma readable_container_scan c :
  readable_container c = true ->
  exists cn, container_name c = Some cn /\
             getitem c (u "name") = Ok (JStr cn) /\
             ReadOnlyKubeletPortHunter.is_privileged c = Ok (flagged c).
Proof.
  unfold readable_container, ReadOnlyKubeletPortHunter.is_privileged,
    flagged, privileged_value, container_name.
  destruct c as [| | | | |?|fields]; try discriminate.
  destruct (field "name" (JObj fields)) as [[| | | |cn| |]|] eqn:N;
    try discriminate.
  intros H. exists cn. split; [reflexivity|].
  split; [apply getitem_field; exact N|].
  cbn [field dict_get] in *.
  destruct (lookup (u "securityContext") fields) as [[| | | | | |g]|];
    try discriminate; cbn [rbind dict_get field]; [|reflexivity].
  destruct (lookup (u "privileged") g); reflexivity.
Qed.

Lemma scan_containers_readable pod n cs acc :
  pod_name pod = Some n ->
  forallb readable_container cs = true ->
  ReadOnlyKubeletPortHunter.scan_containers pod cs acc
  = Ok (acc ++ map as_json_pair
          (flat_map (fun c =>
                       match container_name c with
                       | Some cn => if flagged c then [(n, cn)] else []
                       | None => []
                       end) cs)).
Proof.
  intros Hn. revert acc.
  assert (Hmd : exists md, getitem pod (u "metadata") = Ok md /\
                           getitem md (u "name") = Ok (JStr n)).
  { unfold pod_name in Hn.
    destruct (field "metadata" pod) as [md|] eqn:M; [|discriminate].
    destruct (field "name" md) as [[| | | |s| |]|] eqn:N; try discriminate.
    injection Hn as ->. exists md.
    split; apply getitem_field; assumption. }
  destruct Hmd as (md & Hmd & Hname).
  induction cs as [|c cs IH]; intros acc Hr.
  - cbn [ReadOnlyKubeletPortHunter.scan_containers flat_map map].
    rewrite app_nil_r. reflexivity.
  - cbn [forallb] in Hr. apply andb_prop in Hr. destruct Hr as [Hc Hcs].
    cbn [ReadOnlyKubeletPortHunter.scan_containers flat_map].
    destruct (readable_container_scan _ Hc) as (cn & -> & Hcn & ->).
    cbn [rbind]. destruct (flagged c).
    + rewrite Hmd. cbn [rbind]. rewrite Hname. cbn [rbind].
      rewrite Hcn. cbn [rbind].
      rewrite (IH _ Hcs), <- app_assoc. reflexivity.
    + exact (IH _ Hcs).
Qed.

Lemma scan_pods_readable ps acc :
  forallb readable_pod ps = true ->
  ReadOnlyKubeletPortHunter.scan_pods ps acc
  = Ok (acc ++ map as_json_pair (flat_map flagged_of_pod ps)).
Proof.
  revert acc. induction ps as [|p ps IH]; intros acc Hr.
  - cbn [ReadOnlyKubeletPortHunter.scan_pods flat_map map].
    rewrite app_nil_r. reflexivity.
  - cbn [forallb] in Hr. apply andb_prop in Hr. destruct Hr as [Hp Hps].
    cbn [ReadOnlyKubeletPortHunter.scan_pods flat_map].
    unfold readable_pod in Hp. unfold flagged_of_pod at 1, containers_of.
    destruct (pod_name p) as [n|] eqn:Hn; [|discriminate].
    destruct (pod_containers p) as [cs|] eqn:Hcs; [|discriminate].
    unfold pod_containers in Hcs.
    destruct (field "spec" p) as [sp|] eqn:S; [|discriminate].
    destruct (field "containers" sp) as [[| | | | |cs'|]|] eqn:C;
      try discriminate.
    injection Hcs as ->.
    rewrite (getitem_field _ _ S). cbn [rbind].
    rewrite (getitem_field _ _ C). cbn [rbind py_iter].
    rewrite (@scan_containers_readable p n cs acc Hn Hp). cbn [rbind].
    rewrite (IH _ Hps), map_app, app_assoc. reflexivity.
Qed.

Lemma readable_podlist_truthy data :
  readable_podlist data = true -> truthy data = true.
Proof.
  unfold readable_podlist. destruct data as [| | | | | |[|kv fields]]; simpl;
    try discriminate. reflexivity.
Qed.

(** On a readable listing the scan returns the flagged pairs, or [None]
    when there is none. *)
Lemma find_privileged_containers_readable self data :
  readable_podlist data = true ->
  ReadOnlyKubeletPortHunter.find_privileged_containers
    (ReadOnlyKubeletPortHunter.set_pods_endpoint_data self (Some data))
  = Ok (match flagged_matches data with
        | [] => None
        | ms => Some (map as_json_pair ms)
        end).
Proof.
  intros Hr. unfold ReadOnlyKubeletPortHunter.find_privileged_containers.
  cbn [ReadOnlyKubeletPortHunter.pods_endpoint_data
       ReadOnlyKubeletPortHunter.set_pods_endpoint_data truthy_opt].
  rewrite (readable_podlist_truthy _ Hr).
  unfold readable_podlist in Hr. unfold flagged_matches, pods_of.
  destruct (field "items" data) as [[| | | | |ps|]|] eqn:I; try discriminate.
  rewrite (getitem_field _ _ I).
  cbn [rbind py_iter].
  rewrite (@scan_pods_readable ps [] Hr). cbn [rbind app].
  destruct (flat_map flagged_of_pod ps); reflexivity.
Qed.

Lemma flagged_matches_nonempty data :
  readable_podlist data = true ->
  (flagged_matches data <> [] <->
   exists p c, In p (pods_of data) /\ In c (containers_of p) /\
               flagged c = true).
Proof.
  intros Hr. split.
  - intros Hne. destruct (flagged_matches data) as [|x l] eqn:E;
      [contradiction|].
    assert (Hx : In x (flagged_matches data)) by (rewrite E; left; auto).
    unfold flagged_matches in Hx. apply in_flat_map in Hx.
    destruct Hx as (p & Hp & Hx). exists p.
    unfold flagged_of_pod in Hx.
    destruct (pod_name p) as [n|]; [|contradiction].
    apply in_flat_map in Hx. destruct Hx as (c & Hc & Hx). exists c.
    destruct (container_name c); [|contradiction].
    destruct (flagged c); [auto | contradiction].
  - intros (p & c & Hp & Hc & Hd) Hnil.
    assert (Hrp : readable_pod p = true).
    { unfold readable_podlist in Hr. unfold pods_of in Hp.
      destruct (field "items" data) as [[| | | | |ps|]|]; try contradiction.
      exact (proj1 (forallb_forall _ _) Hr p Hp). }
    unfold readable_pod in Hrp. unfold containers_of in Hc.
    destruct (pod_name p) as [n|] eqn:Hn; [|discriminate].
    destruct (pod_containers p) as [cs|] eqn:Hcs; [|discriminate].
    pose proof (proj1 (forallb_forall _ _) Hrp c Hc) as Hrc.
    destruct (readable_container_scan _ Hrc) as (cn & Hcn & _).
    assert (Hin : In (n, cn) (flagged_matches data)).
    { unfold flagged_matches. apply in_flat_map. exists p.
      split; [exact Hp|]. unfold flagged_of_pod, containers_of.
      rewrite Hn, Hcs. apply in_flat_map. exists c.
      split; [exact Hc|]. rewrite Hcn, Hd. left. reflexivity. }
    rewrite Hnil in Hin. contradiction.
Qed.

(** With a boolean for [privileged], being flagged is declaring
    [privileged == true]. *)
Lemma flagged_declares c :
  wf_container c = true -> flagged c = declares_privileged c.
Proof.
  unfold wf_container, flagged, privileged_value, declares_privileged.
  destruct c as [| | | | |?|fields]; try discriminate.
  destruct (container_name (JObj fields)); [|discriminate].
  destruct (field "securityContext" (JObj fields)) as [[| | | | | |g]|];
    try discriminate; [|reflexivity].
  cbn [field].
  destruct (lookup (u "privileged") g) as [[|[|]| | | | |]|];
    try discriminate; reflexivity.
Qed.

(** C8, as stated, fails in both directions.  A container whose
    [privileged] is the string [false] is published, although no
    container of the listing has [privileged == true]; and the two
    privileged containers of the other listing are not published when
    the version probe that follows the scan raises. *)
Lemma privileged_iff_fails_both_ways :
  some_declares_privileged lax_listing = false /\
  filter is_privileged_finding
    (yielded (ReadOnlyKubeletPortHunter.execute example_runtime net_lax
                example_readonly))
  = [privileged_finding (u "web") (u "nginx") [(u "web", u "nginx")]] /\
  some_declares_privileged privileged_listing = true /\
  outcome (ReadOnlyKubeletPortHunter.get_pods_endpoint
             net_privileged_malformed_metrics example_readonly)
  = Ok (Some privileged_listing) /\
  ReadOnlyKubeletPortHunter.execute example_runtime
    net_privileged_malformed_metrics example_readonly
  = mkRun [ReadOnlyKubeletPortHunter.pods_request example_readonly;
           ReadOnlyKubeletPortHunter.metrics_request example_readonly] []
          (Raise ValueError).
Proof. repeat split; vm_compute; reflexivity. Qed.

(** C8, amended.  Take a run whose pods fetch returned a listing that the
    scan can read: every pod has a name and a list of containers, every
    container is an object with a name, and a security context, where
    there is one, is an object.  A container is flagged when the value
    of its [securityContext.privileged] is true in the sense of a
    condition: [true], a number other than zero, a non-empty string,
    list or object.  When the version probe and the health fetch
    return, the run publishes a [PrivilegedContainers] finding if and
    only if some container of some pod is flagged; the finding carries
    all flagged (pod, container) pairs in pod-then-container order, and
    its evidence names the first pair and the number of pairs; with no
    flagged container nothing is published for the scan.  When the
    version probe or the health fetch raises, nothing is published for
    the scan, whatever the listing holds.  Where [privileged] is a
    boolean, as the agent's API types it, a container is flagged exactly
    when [privileged == true]. *)
Theorem privileged_containers_finding :
  forall rt net self data,
    outcome (ReadOnlyKubeletPortHunter.get_pods_endpoint net self)
    = Ok (Some data) ->
    readable_podlist data = true ->
    let published :=
      filter is_privileged_finding
        (yielded (ReadOnlyKubeletPortHunter.execute rt net self)) in
    (forall ver hz,
        outcome (ReadOnlyKubeletPortHunter.get_k8s_version net self) = Ok ver ->
        outcome (ReadOnlyKubeletPortHunter.check_healthz_endpoint net self)
        = Ok hz ->
        (published <> [] <->
         exists p c, In p (pods_of data) /\ In c (containers_of p) /\
                     flagged c = true) /\
        published = match flagged_matches data with
                    | [] => []
                    | (p0, c0) :: _ =>
                        [privileged_finding p0 c0 (flagged_matches data)]
                    end) /\
    (forall e,
        outcome (ReadOnlyKubeletPortHunter.get_k8s_version net self) = Raise e \/
        outcome (ReadOnlyKubeletPortHunter.check_healthz_endpoint net self)
        = Raise e ->
        published = []) /\
    (wf_podlist data = true ->
     forall p c,
       In p (pods_of data) -> In c (containers_of p) ->
       flagged c = declares_privileged c).
Proof.
  intros rt net self data Hp Hr published.
  pose proof (@find_privileged_containers_readable self data Hr) as Hs.
  split; [|split].
  - intros ver hz Hv Hh.
    assert (E : published = match flagged_matches data with
                            | [] => []
                            | (p0, c0) :: _ =>
                                [privileged_finding p0 c0 (flagged_matches data)]
                            end).
    { unfold published.
      rewrite (ro_execute_ok rt _ _ Hp Hv Hs Hh).
      cbn [yielded]. rewrite !filter_app.
      assert (Hver : filter is_privileged_finding (version_events ver) = []).
      { destruct ver as [v|]; simpl; [destruct (nonempty v)|]; reflexivity. }
      assert (Hhz : filter is_privileged_finding (healthz_events hz) = []).
      { destruct hz as [v|]; simpl; [destruct (nonempty v)|]; reflexivity. }
      assert (Hpods : filter is_privileged_finding (pods_events (Some data)) = []).
      { unfold pods_events. destruct (truthy data); [|reflexivity].
        destruct (getitem data (u "items")) as [pods|]; [|reflexivity].
        destruct (ExposedPodsHandler pods) as [v|] eqn:Ev; [|reflexivity].
        apply ExposedPodsHandler_Ok in Ev. destruct Ev as (n & _ & ->).
        reflexivity. }
      rewrite Hver, Hhz, Hpods, app_nil_r. simpl.
      destruct (flagged_matches data) as [|[p0 c0] ms]; [reflexivity|].
      simpl. unfold privileged_finding. simpl.
      rewrite length_map. reflexivity. }
    split; [|exact E].
    rewrite <- (@flagged_matches_nonempty data Hr), E.
    destruct (flagged_matches data) as [|[p0 c0] ms].
    + split; intros H; exfalso; apply H; reflexivity.
    + split; intros _; discriminate.
  - intros e H. unfold published.
    destruct (outcome (ReadOnlyKubeletPortHunter.get_k8s_version net self))
      as [ver|e'] eqn:Hv.
    + destruct H as [H|H]; [discriminate|].
      rewrite (proj2 (proj2 (proj2 (ro_execute_first_failure rt net self)))
                 _ _ _ _ Hp Hv Hs H).
      reflexivity.
    + rewrite (proj1 (proj2 (ro_execute_first_failure rt net self))
                 _ _ Hp Hv).
      reflexivity.
  - intros Hwf p c Hin Hc. apply flagged_declares.
    assert (Hwp : wf_pod p = true).
    { unfold wf_podlist in Hwf. unfold pods_of in Hin.
      destruct (field "items" data) as [[| | | | |ps|]|]; try contradiction.
      exact (proj1 (forallb_forall _ _) Hwf p Hin). }
    unfold wf_pod in Hwp. unfold containers_of in Hc.
    destruct (pod_name p); [|discriminate].
    destruct (pod_containers p) as [cs|]; [|discriminate].
    exact (proj1 (forallb_forall _ _) Hwp c Hc).
Qed.

(** On that listing the finding names [db] and [mysql] and counts two
    containers. *)
Lemma privileged_containers_finding_witness :
  filter is_privileged_finding
    (yielded (ReadOnlyKubeletPortHunter.execute example_runtime net_privileged
                example_readonly))
  = [privileged_finding (u "db") (u "mysql")
       [(u "db", u "mysql"); (u "web", u "nginx")]] /\
  u "pod: " ++ u "db" ++ u ", container: " ++ u "mysql" ++ u ", count: "
    ++ str_of_nat 2
  = u "pod: db, container: mysql, count: 2".
Proof.
  split; [|reflexivity].
  apply (proj2 (proj1 (@privileged_containers_finding example_runtime
                         net_privileged example_readonly privileged_listing
                         ltac:(vm_compute; reflexivity)
                         ltac:(vm_compute; reflexivity))
                  (Some (u "v1.18.0")) (Some (u "ok"))
                  ltac:(vm_compute; reflexivity)
                  ltac:(vm_compute; reflexivity))).
Defined.

(* ================================================================== *)
(** ** The audit-log proof *)
(* ================================================================== *)

Lemma hexdigit_facts d :
  (d < 16)%N ->
  hexval (hexdigit d) = Some d /\ is_space (hexdigit d) = false /\
  forall rt, is_word rt (hexdigit d) = true.
Proof.
  intros H.
  destruct d as [|p]; [repeat split|].
  do 4 (destruct p as [p|p|]; try (repeat split; fail)); lia.
Qed.

Lemma fromhex_hexlify bs :
  Forall (fun b => (b < 256)%N) bs -> fromhex (hexlify bs) = Ok bs.
Proof.
  induction 1 as [|b bs Hb _ IH]; [reflexivity|].
  assert (Hhi : (b / 16 < 16)%N) by (apply N.Div0.div_lt_upper_bound; lia).
  assert (Hlo : (b mod 16 < 16)%N) by (apply N.mod_lt; lia).
  destruct (hexdigit_facts Hhi) as (Vh & Sh & _).
  destruct (hexdigit_facts Hlo) as (Vl & _ & _).
  change (hexlify (b :: bs))
    with (hexdigit (b / 16) :: hexdigit (b mod 16) :: hexlify bs).
  cbn [fromhex]. rewrite Sh, Vh, Vl, IH. cbn [rbind].
  do 2 f_equal. symmetry. apply N.Div0.div_mod.
Qed.

Lemma hexlify_word rt bs :
  Forall (fun b => (b < 256)%N) bs ->
  Forall (fun c => is_word rt c = true) (hexlify bs).
Proof.
  induction 1 as [|b bs Hb _ IH]; [constructor|].
  assert (Hhi : (b / 16 < 16)%N) by (apply N.Div0.div_lt_upper_bound; lia).
  assert (Hlo : (b mod 16 < 16)%N) by (apply N.mod_lt; lia).
  change (hexlify (b :: bs))
    with (hexdigit (b / 16) :: hexdigit (b mod 16) :: hexlify bs).
  repeat constructor; try apply hexdigit_facts; assumption.
Qed.

Lemma startswith_app_long p x y :
  (List.length p <= List.length x)%nat ->
  startswith p (x ++ y) = startswith p x.
Proof.
  revert x. induction p as [|a p IH]; intros x H; [reflexivity|].
  destruct x as [|b x]; simpl in *; [lia|].
  rewrite IH by lia. reflexivity.
Qed.

Lemma take_word_stop rt h c rest :
  Forall (fun x => is_word rt x = true) h ->
  is_word rt c = false ->
  take_word rt (h ++ c :: rest) = h.
Proof.
  intros Hh Hc. induction Hh as [|x h Hx _ IH]; simpl.
  - rewrite Hc. reflexivity.
  - rewrite Hx, IH. reflexivity.
Qed.

Lemma findall_skip rt x rest :
  findall_from rt (List.length x) (x ++ rest) = findall_from rt 0 rest.
Proof.
  induction x as [|c x IH]; [reflexivity|].
  simpl. exact IH.
Qed.

(** A match, followed by a newline: the scan records the group and goes
    on after the newline. *)
Lemma findall_match rt h rest :
  h <> [] ->
  Forall (fun x => is_word rt x = true) h ->
  findall_from rt 0 (proctitle_key ++ h ++ newline :: rest)
  = h :: findall_from rt 0 rest.
Proof.
  intros Hne Hw.
  change (proctitle_key ++ h ++ newline :: rest)
    with (ch "p" :: (u "roctitle=" ++ h ++ newline :: rest)).
  cbn [findall_from].
  assert (M : match_here rt (ch "p" :: (u "roctitle=" ++ h ++ newline :: rest))
              = Some h).
  { unfold match_here.
    change (ch "p" :: (u "roctitle=" ++ h ++ newline :: rest))
      with (u "proctitle=" ++ (h ++ newline :: rest)).
    rewrite startswith_app_long by reflexivity.
    change (startswith (u "proctitle=") (u "proctitle=")) with true.
    cbv iota.
    change (skipn (List.length (u "proctitle="))
              (u "proctitle=" ++ (h ++ newline :: rest)))
      with (h ++ newline :: rest).
    rewrite (@take_word_stop rt h newline rest Hw) by reflexivity.
    destruct h; [contradiction | reflexivity]. }
  rewrite M. f_equal.
  replace (List.length (u "proctitle=") + List.length h - 1)%nat
    with (List.length (u "roctitle=" ++ h))%nat
    by (rewrite length_app; change (List.length (u "roctitle=")) with 9%nat;
        change (List.length (u "proctitle=")) with 10%nat; lia).
  rewrite app_assoc, findall_skip.
  reflexivity.
Qed.

Lemma contains_cons sub c s :
  contains sub (c :: s) = startswith sub (c :: s) || contains sub s.
Proof. reflexivity. Qed.

(** Text in which the key does not occur produces no match. *)
Lemma findall_no_key rt s :
  contains proctitle_key s = false -> findall_from rt 0 s = [].
Proof.
  induction s as [|c s IH]; [reflexivity|].
  intros H. rewrite contains_cons in H.
  apply orb_false_elim in H. destruct H as [H1 H2].
  cbn [findall_from]. unfold match_here.
  change (u "proctitle=") with proctitle_key. rewrite H1. auto.
Qed.

(** A prefix in which the key does not begin is passed over. *)
Lemma findall_prefix rt pre tail :
  contains proctitle_key (pre ++ proctitle_key_init) = false ->
  findall_from rt 0 (pre ++ proctitle_key ++ tail)
  = findall_from rt 0 (proctitle_key ++ tail).
Proof.
  induction pre as [|c pre IH]; [reflexivity|].
  intros H. change ((c :: pre) ++ proctitle_key_init)
    with (c :: (pre ++ proctitle_key_init)) in H.
  rewrite contains_cons in H.
  apply orb_false_elim in H. destruct H as [H1 H2].
  change ((c :: pre) ++ proctitle_key ++ tail)
    with (c :: (pre ++ proctitle_key ++ tail)).
  cbn [findall_from]. unfold match_here.
  assert (S : startswith (u "proctitle=") (c :: pre ++ proctitle_key ++ tail)
              = false).
  { change (c :: pre ++ proctitle_key ++ tail)
      with ((c :: pre) ++ (proctitle_key_init ++ [ch "="]) ++ tail).
    rewrite <- app_assoc, app_assoc.
    rewrite startswith_app_long; [exact H1|].
    rewrite length_app. simpl. change (List.length proctitle_key_init) with 9%nat.
    change (List.length (u "proctitle=")) with 10%nat. lia. }
  rewrite S. apply IH. exact H2.
Qed.

Lemma replace_null t : replace 0%N (u " ") t = nulls_to_spaces t.
Proof.
  induction t as [|c t IH]; [reflexivity|].
  unfold replace in *. simpl. rewrite IH.
  destruct (c =? 0)%N; reflexivity.
Qed.

Lemma hexlify_nonempty bs : bs <> [] -> hexlify bs <> [].
Proof. destruct bs; [contradiction | discriminate]. Qed.

Lemma findall_audit_text rt recs trailer :
  Forall well_formed_record recs ->
  contains proctitle_key trailer = false ->
  findall_proctitle rt (audit_text recs trailer)
  = map (fun a => hexlify (ar_bytes a)) recs.
Proof.
  intros Hrecs Htr. unfold findall_proctitle, audit_text.
  induction Hrecs as [|a recs (Hpre & Hne & Hb & _) _ IH]; simpl.
  - apply findall_no_key. exact Htr.
  - unfold audit_line at 1. rewrite <- !app_assoc.
    rewrite findall_prefix by exact Hpre.
    change ([newline] ++ flat_map audit_line recs ++ trailer)
      with (newline :: (flat_map audit_line recs ++ trailer)).
    rewrite findall_match;
      [| apply hexlify_nonempty; exact Hne | apply hexlify_word; exact Hb].
    rewrite IH. reflexivity.
Qed.

Lemma decode_proctitle_hexlify a :
  well_formed_record a ->
  ProveSystemLogs.decode_proctitle (hexlify (ar_bytes a))
  = Ok (nulls_to_spaces (ar_text a)).
Proof.
  intros (_ & _ & Hb & Hd). unfold ProveSystemLogs.decode_proctitle.
  rewrite (fromhex_hexlify Hb). simpl. rewrite Hd. simpl.
  rewrite replace_null. reflexivity.
Qed.

Lemma decode_each_audit recs acc :
  Forall well_formed_record recs ->
  ProveSystemLogs.decode_each (map (fun a => hexlify (ar_bytes a)) recs) acc
  = Ok (acc ++ map (fun a => nulls_to_spaces (ar_text a)) recs).
Proof.
  intros H. revert acc.
  induction H as [|a recs Ha _ IH]; intros acc; simpl.
  - rewrite app_nil_r. reflexivity.
  - rewrite (decode_proctitle_hexlify Ha). simpl.
    rewrite IH, <- app_assoc. reflexivity.
Qed.

Lemma audit_request_Ok self :
  ProveSystemLogs.audit_request self = Ok (audit_log_request self).
Proof. reflexivity. Qed.

(** The UTF-8 form of ASCII text is the text itself. *)
Lemma decode_utf8_ascii bs :
  Forall (fun b => (b < 128)%N) bs -> decode_utf8 bs = Ok bs.
Proof.
  induction 1 as [|b bs Hb _ IH]; [reflexivity|].
  cbn [decode_utf8]. apply N.ltb_lt in Hb. rewrite Hb, IH. reflexivity.
Qed.

(* ================================================================== *)
(** ** The version probe *)
(* ================================================================== *)

Lemma avoids_char cs s c :
  avoids cs s = true -> In c cs -> Forall (fun x => x <> c) s.
Proof.
  intros H Hc. apply Forall_forall. intros x Hx ->.
  unfold avoids in H. rewrite forallb_forall in H. specialize (H c Hx).
  apply negb_true_iff in H.
  assert (M : mem c cs = true).
  { unfold mem. apply existsb_exists. exists c. split; [exact Hc|].
    apply N.eqb_refl. }
  congruence.
Qed.

Lemma avoids_app cs a b :
  avoids cs (a ++ b) = avoids cs a && avoids cs b.
Proof. unfold avoids. apply forallb_app. Qed.

Lemma split_sep sep x rest :
  Forall (fun c => c <> sep) x ->
  split sep (x ++ sep :: rest) = x :: split sep rest.
Proof.
  induction 1 as [|c x Hc _ IH]; simpl.
  - rewrite N.eqb_refl. reflexivity.
  - apply N.eqb_neq in Hc. rewrite Hc, IH. reflexivity.
Qed.

Lemma split_none sep x :
  Forall (fun c => c <> sep) x -> split sep x = [x].
Proof.
  induction 1 as [|c x Hc _ IH]; simpl; [reflexivity|].
  apply N.eqb_neq in Hc. rewrite Hc, IH. reflexivity.
Qed.

Lemma split_length sep s :
  List.length (split sep s) = S (count_occ N.eq_dec s sep).
Proof.
  induction s as [|c s IH]; [reflexivity|].
  simpl. destruct (N.eqb_spec c sep) as [->|Hne].
  - destruct (N.eq_dec sep sep); [|contradiction]. simpl. rewrite IH.
    reflexivity.
  - destruct (N.eq_dec c sep); [contradiction|].
    destruct (split sep s); simpl in *; [discriminate | exact IH].
Qed.

Lemma split_join sep l :
  l <> [] ->
  Forall (fun x => Forall (fun c => c <> sep) x) l ->
  split sep (join sep l) = l.
Proof.
  intros Hne H. induction H as [|x l Hx Hl IH]; [contradiction|].
  destruct l as [|y l]; simpl.
  - apply split_none. exact Hx.
  - rewrite (split_sep _ Hx). f_equal. apply IH. discriminate.
Qed.

Lemma find_first c pre post :
  Forall (fun x => x <> c) pre ->
  find [c] (pre ++ c :: post) = Z.of_nat (List.length pre).
Proof.
  induction 1 as [|a pre Ha _ IH].
  - simpl. rewrite N.eqb_refl. reflexivity.
  - change (find [c] ((a :: pre) ++ c :: post))
      with (if startswith [c] (a :: pre ++ c :: post) then 0
            else let r := find [c] (pre ++ c :: post) in
                 if r <? 0 then -1 else r + 1).
    assert (S : startswith [c] (a :: pre ++ c :: post) = false).
    { simpl. apply not_eq_sym in Ha. apply N.eqb_neq in Ha. rewrite Ha.
      reflexivity. }
    rewrite S, IH. cbv zeta.
    destruct (Z.ltb_spec (Z.of_nat (List.length pre)) 0); [lia|].
    simpl List.length. lia.
Qed.

Lemma lstrip_keep cs s :
  match s with [] => True | c :: _ => mem c cs = false end ->
  lstrip cs s = s.
Proof. destruct s as [|c s]; simpl; [reflexivity|]. intros ->. reflexivity. Qed.

(** A value between two quotes is returned without them. *)
Lemma strip_quoted v :
  avoids [dquote] v = true -> strip [dquote] (dquote :: v ++ [dquote]) = v.
Proof.
  intros H. unfold strip.
  assert (Hhead : forall w, avoids [dquote] w = true ->
            match w with [] => True | c :: _ => mem c [dquote] = false end).
  { intros [|c w]; [trivial|]. simpl. intros Hw.
    apply andb_prop in Hw. destruct Hw as [Hc _].
    apply negb_true_iff in Hc. exact Hc. }
  change (lstrip [dquote] (dquote :: v ++ [dquote]))
    with (lstrip [dquote] (v ++ [dquote])).
  destruct v as [|c v].
  - reflexivity.
  - rewrite (lstrip_keep [dquote] ((c :: v) ++ [dquote]))
      by (exact (Hhead (c :: v) H)).
    unfold rstrip. rewrite rev_app_distr.
    change (rev [dquote] ++ rev (c :: v)) with (dquote :: rev (c :: v)).
    change (lstrip [dquote] (dquote :: rev (c :: v)))
      with (lstrip [dquote] (rev (c :: v))).
    rewrite lstrip_keep; [apply rev_involutive|].
    apply Hhead. unfold avoids in *. rewrite forallb_forall in *.
    intros x Hx. apply H. apply in_rev. exact Hx.
Qed.

Lemma avoids_join cs sep l :
  mem sep cs = false ->
  Forall (fun x => avoids cs x = true) l ->
  avoids cs (join sep l) = true.
Proof.
  intros Hsep H. induction H as [|x l Hx _ IH]; [reflexivity|].
  destruct l as [|y l]; [exact Hx|].
  change (join sep (x :: y :: l)) with (x ++ sep :: join sep (y :: l)).
  rewrite avoids_app, Hx. simpl. rewrite Hsep. exact IH.
Qed.

Lemma avoids_weaken cs cs' s :
  (forall c, In c cs' -> In c cs) ->
  avoids cs s = true -> avoids cs' s = true.
Proof.
  intros Hsub H. unfold avoids in *. rewrite forallb_forall in *.
  intros x Hx. specialize (H x Hx). apply negb_true_iff in H.
  apply negb_true_iff. destruct (mem x cs') eqn:M; [|reflexivity].
  unfold mem in *. apply existsb_exists in M. destruct M as (c & Hc & E).
  assert (existsb (N.eqb x) cs = true)
    by (apply existsb_exists; exists c; auto).
  congruence.
Qed.

Lemma render_label_item kv : label_ok kv = true -> item_ok (render_label kv) = true.
Proof.
  unfold label_ok, item_ok, render_label. intros H.
  apply andb_prop in H. destruct H as [Hk Hv].
  assert (W : forall s, avoids label_breakers s = true ->
                        avoids item_breakers s = true).
  { intros s. apply avoids_weaken. unfold item_breakers, label_breakers.
    simpl. intuition. }
  rewrite avoids_app, (W _ Hk).
  change (avoids item_breakers (ch "=" :: dquote :: snd kv ++ [dquote]))
    with (avoids item_breakers (snd kv ++ [dquote])).
  rewrite avoids_app, (W _ Hv). reflexivity.
Qed.

Lemma scan_labels_rendered labels more :
  Forall (fun kv => label_ok kv = true) labels ->
  ReadOnlyKubeletPortHunter.scan_labels (map render_label labels ++ more)
  = match first_git labels with
    | Some v => Ok (Some v)
    | None => ReadOnlyKubeletPortHunter.scan_labels more
    end.
Proof.
  induction 1 as [|[k v] labels Hkv _ IH]; [reflexivity|].
  unfold label_ok in Hkv. simpl fst in Hkv. simpl snd in Hkv.
  apply andb_prop in Hkv. destruct Hkv as [Hk Hv].
  assert (In (ch "=") label_breakers) by (simpl; auto).
  assert (In dquote label_breakers) by (simpl; auto 10).
  change (map render_label ((k, v) :: labels) ++ more)
    with ((k ++ ch "=" :: (dquote :: v ++ [dquote]))
            :: (map render_label labels ++ more)).
  cbn [ReadOnlyKubeletPortHunter.scan_labels first_git].
  rewrite (@split_sep (ch "=") k _ (@avoids_char label_breakers k (ch "=") Hk H)).
  rewrite (@split_none (ch "=") (dquote :: v ++ [dquote])).
  2:{ constructor; [discriminate|]. apply Forall_app. split.
      - exact (@avoids_char label_breakers v (ch "=") Hv H).
      - repeat constructor. discriminate. }
  destruct (str_eqb k (u "gitVersion")); [|exact IH].
  rewrite strip_quoted; [reflexivity|].
  revert Hv. apply avoids_weaken. simpl. intuition.
Qed.

Lemma labels_of_line items tail :
  items <> [] ->
  Forall (fun x => item_ok x = true) items ->
  ReadOnlyKubeletPortHunter.labels_of (build_info_line items tail) = items.
Proof.
  intros Hne Hitems.
  set (body := join (ch ",") items).
  assert (Hbody : forall c, In c item_breakers -> c <> ch "," ->
                            Forall (fun x => x <> c) body).
  { intros c Hc Hcomma.
    apply (@avoids_char [c] body c); [|left; reflexivity].
    apply avoids_join.
    - unfold mem. cbn [existsb]. apply orb_false_intro; [|reflexivity].
      apply N.eqb_neq. auto.
    - eapply Forall_impl; [|exact Hitems]. intros x Hx.
      revert Hx. apply avoids_weaken. intros c' [<-|[]]. exact Hc. }
  unfold ReadOnlyKubeletPortHunter.labels_of, build_info_line.
  fold body.
  change (find (u "{") (metric_name ++ ch "{" :: body ++ ch "}" :: tail))
    with 21.
  assert (Hclose : find (u "}") (metric_name ++ ch "{" :: body ++ ch "}" :: tail)
                   = Z.of_nat (List.length (metric_name ++ ch "{" :: body))).
  { change (metric_name ++ ch "{" :: body ++ ch "}" :: tail)
      with ((metric_name ++ ch "{" :: body) ++ ch "}" :: tail).
    change (u "}") with [ch "}"].
    apply find_first. apply Forall_app. split.
    - unfold metric_name. vm_compute. repeat constructor; discriminate.
    - constructor; [discriminate|].
      apply Hbody; [simpl; auto | discriminate]. }
  rewrite Hclose.
  unfold py_slice.
  rewrite !length_app. simpl List.length.
  change (List.length metric_name) with 21%nat.
  rewrite length_app. simpl List.length.
  set (n := List.length body). set (m := List.length tail).
  replace (21 + 1 <? 0) with false by (symmetry; apply Z.ltb_ge; lia).
  replace (Z.of_nat (21 + S n) <? 0) with false
    by (symmetry; apply Z.ltb_ge; lia).
  replace (Z.min (21 + 1) (Z.of_nat (21 + S (n + S m)))) with 22 by lia.
  replace (Z.min (Z.of_nat (21 + S n)) (Z.of_nat (21 + S (n + S m))))
    with (Z.of_nat (22 + n)) by lia.
  replace (Z.to_nat (Z.of_nat (22 + n) - 22)) with n by lia.
  change (skipn (Z.to_nat 22)
            (metric_name ++ ch "{" :: body ++ ch "}" :: tail))
    with (body ++ ch "}" :: tail).
  subst n m. rewrite firstn_app, firstn_all, Nat.sub_diag. simpl.
  rewrite app_nil_r.
  apply split_join; [exact Hne|].
  eapply Forall_impl; [|exact Hitems]. intros x Hx.
  apply (@avoids_char item_breakers x (ch ",") Hx). simpl. auto.
Qed.

Lemma split_document before line after :
  Forall (fun l => avoids [newline] l = true) before ->
  avoids [newline] line = true ->
  split newline (document before line after)
  = before ++ line :: match after with
                      | Some r => split newline r
                      | None => []
                      end.
Proof.
  intros Hb Hl. unfold document.
  assert (N : forall l, avoids [newline] l = true ->
                        Forall (fun c => c <> newline) l).
  { intros l H. apply (@avoids_char [newline] l newline H). left. reflexivity. }
  induction Hb as [|l before Hl' _ IH]; simpl.
  - destruct after as [r|].
    + apply split_sep. apply N. exact Hl.
    + rewrite app_nil_r. apply split_none. apply N. exact Hl.
  - rewrite <- (app_assoc (l ++ [newline])), <- (app_assoc l [newline]).
    change ([newline] ++ ?x) with (newline :: x).
    cbn [app].
    rewrite (@split_sep newline l _ (N _ Hl')), IH.
    reflexivity.
Qed.

Lemma scan_lines_skip before rest :
  Forall (fun l => startswith metric_name l = false) before ->
  ReadOnlyKubeletPortHunter.scan_lines (before ++ rest)
  = ReadOnlyKubeletPortHunter.scan_lines rest.
Proof.
  induction 1 as [|l before Hl _ IH]; [reflexivity|].
  cbn [app ReadOnlyKubeletPortHunter.scan_lines].
  change (u "kubernetes_build_info") with metric_name.
  rewrite Hl. exact IH.
Qed.

Lemma build_info_line_avoids_newline items tail :
  Forall (fun x => item_ok x = true) items ->
  avoids [newline] tail = true ->
  avoids [newline] (build_info_line items tail) = true.
Proof.
  intros Hi Ht. unfold build_info_line.
  rewrite avoids_app.
  change (avoids [newline] metric_name) with true.
  change (avoids [newline] (ch "{" :: join (ch ",") items ++ ch "}" :: tail))
    with (avoids [newline] (join (ch ",") items ++ ch "}" :: tail)).
  rewrite avoids_app.
  change (avoids [newline] (ch "}" :: tail)) with (avoids [newline] tail).
  rewrite Ht, andb_true_r. simpl.
  apply avoids_join; [reflexivity|].
  eapply Forall_impl; [|exact Hi]. intros x.
  apply avoids_weaken. intros c [<-|[]]. simpl. auto.
Qed.

(** The scan of a document stops at its first line of the metric, with
    what the labels of that line give, unless they give nothing. *)
Lemma parse_version_document before items tail after :
  Forall (fun l => avoids [newline] l = true) before ->
  Forall (fun l => startswith metric_name l = false) before ->
  items <> [] ->
  Forall (fun x => item_ok x = true) items ->
  avoids [newline] tail = true ->
  ReadOnlyKubeletPortHunter.scan_labels items <> Ok None ->
  ReadOnlyKubeletPortHunter.parse_version
    (document before (build_info_line items tail) after)
  = ReadOnlyKubeletPortHunter.scan_labels items.
Proof.
  intros Hb Hs Hne Hi Ht Hsome.
  unfold ReadOnlyKubeletPortHunter.parse_version.
  rewrite (@split_document before (build_info_line items tail) after Hb
             (@build_info_line_avoids_newline items tail Hi Ht)).
  rewrite (@scan_lines_skip before _ Hs).
  cbn [ReadOnlyKubeletPortHunter.scan_lines].
  change (u "kubernetes_build_info") with metric_name.
  assert (S : startswith metric_name (build_info_line items tail) = true).
  { unfold build_info_line.
    rewrite startswith_app_long by reflexivity. reflexivity. }
  rewrite S, (@labels_of_line items tail Hne Hi).
  destruct (ReadOnlyKubeletPortHunter.scan_labels items) as [[v|]|e];
    [reflexivity | contradiction | reflexivity].
Qed.

Lemma split_cons sep s : exists w ws, split sep s = w :: ws.
Proof.
  induction s as [|c s (w & ws & E)]; simpl; [eauto|].
  destruct (c =? sep)%N; [eauto|]. rewrite E. eauto.
Qed.

Lemma startswith_app_true p x y :
  startswith p x = true -> startswith p (x ++ y) = true.
Proof.
  revert x. induction p as [|a p IH]; intros x; [reflexivity|].
  destruct x as [|b x]; simpl; [discriminate|].
  intros H. apply andb_prop in H. destruct H as [-> H].
  apply IH. exact H.
Qed.

(** The first line of a text is a prefix of the text. *)
Lemma first_line_prefix sep d w ws :
  split sep d = w :: ws -> exists rest, d = w ++ rest.
Proof.
  revert w ws. induction d as [|c d IH]; intros w ws; simpl.
  - intros [= <- <-]. exists []. reflexivity.
  - destruct (c =? sep)%N.
    + intros [= <- <-]. exists (c :: d). reflexivity.
    + destruct (split sep d) as [|w' ws'] eqn:E.
      * intros [= <- <-]. destruct (split_cons sep d) as (? & ? & E').
        congruence.
      * intros [= <- <-]. destruct (IH _ _ eq_refl) as (rest & ->).
        exists rest. reflexivity.
Qed.

(** When the name neither starts the text nor follows a newline in it,
    no line starts with the name. *)
Lemma lines_without_metric m doc :
  m <> [] ->
  startswith m doc = false ->
  contains (newline :: m) doc = false ->
  Forall (fun l => startswith m l = false) (split newline doc).
Proof.
  intros Hm.
  assert (First : forall d w ws, split newline d = w :: ws ->
                    startswith m d = false -> startswith m w = false).
  { intros d w ws E Hd. destruct (@first_line_prefix newline d w ws E) as (rest & ->).
    destruct (startswith m w) eqn:S; [|reflexivity].
    rewrite (@startswith_app_true m w rest S) in Hd. discriminate. }
  assert (Later : forall d w ws, split newline d = w :: ws ->
                    contains (newline :: m) d = false ->
                    Forall (fun l => startswith m l = false) ws).
  { induction d as [|c d IH]; intros w ws E Hc.
    - simpl in E. injection E as <- <-. constructor.
    - rewrite contains_cons in Hc. apply orb_false_elim in Hc.
      destruct Hc as [Hs Hc]. simpl in E.
      destruct (N.eqb_spec c newline) as [->|Hne].
      + injection E as <- <-.
        destruct (split_cons newline d) as (w' & ws' & E').
        rewrite E'. constructor.
        * apply (First d w' ws' E'). exact Hs.
        * exact (IH _ _ E' Hc).
      + destruct (split_cons newline d) as (w' & ws' & E').
        rewrite E' in E. injection E as <- <-. exact (IH _ _ E' Hc). }
  intros Hs Hc. destruct (split_cons newline doc) as (w & ws & E).
  rewrite E. constructor; [exact (First _ _ _ E Hs) | exact (Later _ _ _ E Hc)].
Qed.

Lemma scan_lines_none lines :
  Forall (fun l => startswith metric_name l = false) lines ->
  ReadOnlyKubeletPortHunter.scan_lines lines = Ok None.
Proof.
  intros H. rewrite <- (app_nil_r lines). rewrite (@scan_lines_skip lines [] H).
  reflexivity.
Qed.

Lemma scan_labels_malformed bad more :
  count_occ N.eq_dec bad (ch "=") <> 1%nat ->
  ReadOnlyKubeletPortHunter.scan_labels (bad :: more) = Raise ValueError.
Proof.
  intros H. pose proof (split_length (ch "=") bad) as L.
  cbn [ReadOnlyKubeletPortHunter.scan_labels].
  destruct (split (ch "=") bad) as [|a [|b [|c l]]]; cbn [List.length] in L;
    try reflexivity.
  exfalso. apply H. injection L as L. symmetry. exact L.
Qed.

(** C7, as stated, fails: a malformed label makes the version probe
    raise [ValueError] instead of yielding no result. *)
Lemma malformed_label_raises :
  ReadOnlyKubeletPortHunter.parse_version malformed_metrics
  = Raise ValueError /\
  outcome (ReadOnlyKubeletPortHunter.get_k8s_version net_malformed_metrics
             example_readonly) = Raise ValueError.
Proof. split; vm_compute; reflexivity. Qed.

(** C7, amended.  The version probe reads the metrics document line by
    line.  When no line begins with [kubernetes_build_info] it returns
    no result.  At the first line that does, it reads the items between
    the braces: when the labels [key="value"] that come first include a
    [gitVersion] label, it returns the value of the first one without
    its quotes; when none of them is a [gitVersion] label and the next
    item does not contain exactly one [=], it raises [ValueError]. *)
Theorem version_probe :
  (forall net self r,
      net (ReadOnlyKubeletPortHunter.metrics_request self) = Ok r ->
      outcome (ReadOnlyKubeletPortHunter.get_k8s_version net self)
      = ReadOnlyKubeletPortHunter.parse_version (text r)) /\
  (forall doc,
      startswith metric_name doc = false ->
      contains (newline :: metric_name) doc = false ->
      ReadOnlyKubeletPortHunter.parse_version doc = Ok None) /\
  (forall before labels more tail after v,
      Forall (fun l => avoids [newline] l = true) before ->
      Forall (fun l => startswith metric_name l = false) before ->
      Forall (fun kv => label_ok kv = true) labels ->
      Forall (fun x => item_ok x = true) more ->
      avoids [newline] tail = true ->
      first_git labels = Some v ->
      ReadOnlyKubeletPortHunter.parse_version
        (document before
           (build_info_line (map render_label labels ++ more) tail) after)
      = Ok (Some v)) /\
  (forall before labels bad more tail after,
      Forall (fun l => avoids [newline] l = true) before ->
      Forall (fun l => startswith metric_name l = false) before ->
      Forall (fun kv => label_ok kv = true) labels ->
      first_git labels = None ->
      item_ok bad = true ->
      count_occ N.eq_dec bad (ch "=") <> 1%nat ->
      Forall (fun x => item_ok x = true) more ->
      avoids [newline] tail = true ->
      ReadOnlyKubeletPortHunter.parse_version
        (document before
           (build_info_line (map render_label labels ++ bad :: more) tail)
           after)
      = Raise ValueError).
Proof.
  assert (Items : forall labels more,
            Forall (fun kv => label_ok kv = true) labels ->
            Forall (fun x => item_ok x = true) more ->
            Forall (fun x => item_ok x = true) (map render_label labels ++ more)).
  { intros labels more Hl Hm. apply Forall_app. split; [|exact Hm].
    apply Forall_map. eapply Forall_impl; [|exact Hl].
    intros kv. apply render_label_item. }
  split; [|split; [|split]].
  - intros net self r Hr.
    unfold ReadOnlyKubeletPortHunter.get_k8s_version, requests_get, bind.
    simpl. rewrite Hr. reflexivity.
  - intros doc Hs Hc. unfold ReadOnlyKubeletPortHunter.parse_version.
    apply scan_lines_none. apply lines_without_metric; [discriminate| |];
      assumption.
  - intros before labels more tail after v Hb Hs Hl Hm Ht Hv.
    rewrite parse_version_document; try assumption.
    + rewrite (@scan_labels_rendered labels more Hl), Hv. reflexivity.
    + destruct labels; [discriminate | discriminate].
    + apply Items; assumption.
    + rewrite (@scan_labels_rendered labels more Hl), Hv. discriminate.
  - intros before labels bad more tail after Hb Hs Hl Hv Hbad Hcount Hm Ht.
    assert (R : ReadOnlyKubeletPortHunter.scan_labels
                  (map render_label labels ++ bad :: more) = Raise ValueError).
    { rewrite (@scan_labels_rendered labels (bad :: more) Hl), Hv.
      apply scan_labels_malformed. exact Hcount. }
    rewrite parse_version_document; try assumption.
    + destruct labels; discriminate.
    + apply Items; [assumption|]. constructor; assumption.
    + rewrite R. discriminate.
Qed.

(** The document of a real agent: a comment line, then the line of the
    metric with three labels. *)
Lemma version_probe_witness :
  document [u "# TYPE kubernetes_build_info gauge"]
    (build_info_line
       (map render_label [(u "buildDate", u "2020-03-25T14:58:59Z");
                          (u "gitVersion", u "v1.18.0");
                          (u "major", u "1")] ++ [])
       (u " 1"))
    (Some [])
  = u "# TYPE kubernetes_build_info gauge" ++ [newline]
    ++ u "kubernetes_build_info{buildDate=" ++ [dquote]
    ++ u "2020-03-25T14:58:59Z" ++ [dquote] ++ u ",gitVersion=" ++ [dquote]
    ++ u "v1.18.0" ++ [dquote] ++ u ",major=" ++ [dquote] ++ u "1"
    ++ [dquote] ++ u "} 1" ++ [newline] /\
  ReadOnlyKubeletPortHunter.parse_version
    (document [u "# TYPE kubernetes_build_info gauge"]
       (build_info_line
          (map render_label [(u "buildDate", u "2020-03-25T14:58:59Z");
                             (u "gitVersion", u "v1.18.0");
                             (u "major", u "1")] ++ [])
          (u " 1"))
       (Some []))
  = Ok (Some (u "v1.18.0")).
Proof.
  split; [reflexivity|].
  apply (proj1 (proj2 (proj2 version_probe))).
  - repeat constructor.
  - repeat constructor.
  - repeat constructor.
  - constructor.
  - reflexivity.
  - reflexivity.
Defined.

(* ================================================================== *)
(** ** The hunters that prove the run and the container-logs findings *)
(* ================================================================== *)

Lemma bind_lift_Ok {A B} (a : A) (k : A -> Run B) : bind (lift (Ok a)) k = k a.
Proof. unfold bind, lift. cbn [outcome requests yielded app]. apply eq_sym, run_eta. Qed.

Lemma bind_lift_Raise {A B} e (k : A -> Run B) :
  bind (lift (Raise e)) k = raise e.
Proof. reflexivity. Qed.

Lemma bind_mk_Ok {A B} r y (a : A) (k : A -> Run B) :
  bind (mkRun r y (Ok a)) k
  = mkRun (r ++ requests (k a)) (y ++ yielded (k a)) (outcome (k a)).
Proof. reflexivity. Qed.

Lemma bind_mk_Raise {A B} r y e (k : A -> Run B) :
  bind (mkRun r y (Raise e)) k = mkRun r y (Raise e).
Proof. reflexivity. Qed.

(** Both loops end at once: on an empty list they fall through, on any
    other they raise before the first request, at the latest when
    [next] is applied to the container list. *)
Lemma run_try_pods_ends rt post self l :
  ProveRunHandler.try_pods rt post self l = ret None \/
  exists e, ProveRunHandler.try_pods rt post self l = raise e.
Proof.
  destruct l as [|p rest]; [left; reflexivity | right].
  cbn [ProveRunHandler.try_pods].
  destruct (getitem p (u "spec")) as [spec|e];
    [rewrite bind_lift_Ok | rewrite bind_lift_Raise; eauto].
  destruct (getitem spec (u "containers")) as [cs|e];
    [rewrite bind_lift_Ok | rewrite bind_lift_Raise; eauto].
  unfold next_of_value. rewrite bind_lift_Raise. eauto.
Qed.

Lemma logs_try_pods_ends rt net self l :
  ProveContainerLogsHandler.try_pods rt net self l = ret None \/
  exists e, ProveContainerLogsHandler.try_pods rt net self l = raise e.
Proof.
  destruct l as [|p rest]; [left; reflexivity | right].
  cbn [ProveContainerLogsHandler.try_pods].
  destruct (getitem p (u "spec")) as [spec|e];
    [rewrite bind_lift_Ok | rewrite bind_lift_Raise; eauto].
  destruct (getitem spec (u "containers")) as [cs|e];
    [rewrite bind_lift_Ok | rewrite bind_lift_Raise; eauto].
  unfold next_of_value. rewrite bind_lift_Raise. eauto.
Qed.

(** What follows the fetch of the listing sends nothing and leaves the
    event as it is. *)
Lemma after_listing_quiet (ev : HandlerEvent) (parsed : result json)
    (loop : list json -> Run (option pystr)) :
  (forall l, loop l = ret None \/ exists e, loop l = raise e) ->
  exists o,
    (j <- lift parsed ;;
     items <- lift (getitem j (u "items")) ;;
     pods_data <- lift (py_iter items) ;;
     found <- loop pods_data ;;
     ret (match found with
          | Some e => set_event_evidence ev e
          | None => ev
          end))%run = mkRun [] [] o /\
    (o = Ok ev \/ exists e, o = Raise e).
Proof.
  intros Hloop.
  destruct parsed as [j|e];
    [rewrite bind_lift_Ok | rewrite bind_lift_Raise; unfold raise; eauto].
  destruct (getitem j (u "items")) as [items|e];
    [rewrite bind_lift_Ok | rewrite bind_lift_Raise; unfold raise; eauto].
  destruct (py_iter items) as [l|e];
    [rewrite bind_lift_Ok | rewrite bind_lift_Raise; unfold raise; eauto].
  destruct (Hloop l) as [-> | [e ->]].
  - unfold ret. rewrite bind_mk_Ok. cbn [requests yielded outcome app]. eauto.
  - unfold raise. rewrite bind_mk_Raise. eauto.
Qed.

Lemma run_execute_shape rt net post self :
  exists o,
    ProveRunHandler.execute rt net post self
    = mkRun [ProveRunHandler.pods_request self] [] o /\
    (o = Ok (ProveRunHandler.event self) \/ exists e, o = Raise e).
Proof.
  unfold ProveRunHandler.execute, requests_get.
  destruct (net (ProveRunHandler.pods_request self)) as [r|e];
    [rewrite bind_mk_Ok | rewrite bind_mk_Raise; eauto].
  destruct (contains (u "items") (text r)).
  - destruct (@after_listing_quiet (ProveRunHandler.event self) (json_body r)
                (ProveRunHandler.try_pods rt post self)
                (run_try_pods_ends rt post self)) as (o & -> & H).
    cbn [requests yielded outcome app]. eauto.
  - cbn [requests yielded outcome app ret]. eauto.
Qed.

Lemma logs_execute_shape rt json_loads net self :
  exists o,
    ProveContainerLogsHandler.execute rt json_loads net self
    = mkRun [ProveContainerLogsHandler.pods_request self] [] o /\
    (o = Ok (ProveContainerLogsHandler.event self) \/ exists e, o = Raise e).
Proof.
  unfold ProveContainerLogsHandler.execute, requests_get.
  destruct (net (ProveContainerLogsHandler.pods_request self)) as [r|e];
    [rewrite bind_mk_Ok | rewrite bind_mk_Raise; eauto].
  cbv zeta.
  destruct (contains (u "items") (text r)).
  - destruct (@after_listing_quiet (ProveContainerLogsHandler.event self)
                (json_loads (text r))
                (ProveContainerLogsHandler.try_pods rt net self)
                (logs_try_pods_ends rt net self)) as (o & -> & H).
    cbn [requests yielded outcome app]. eauto.
  - cbn [requests yielded outcome app ret]. eauto.
Qed.

(** X1.  [ProveRunHandler.execute] never runs a command and never sets
    the evidence: whatever the agent answers, the only request of the run
    is the GET of the pods listing, no POST is sent, and the run either
    returns the event unchanged or raises. *)
Theorem prove_run_handler_sends_no_command :
  forall rt net post self,
    requests (ProveRunHandler.execute rt net post self)
    = [ProveRunHandler.pods_request self] /\
    yielded (ProveRunHandler.execute rt net post self) = [] /\
    (outcome (ProveRunHandler.execute rt net post self)
     = Ok (ProveRunHandler.event self) \/
     exists e, outcome (ProveRunHandler.execute rt net post self) = Raise e).
Proof.
  intros rt net post self.
  destruct (run_execute_shape rt net post self) as (o & -> & H).
  simpl. auto.
Qed.

(** X2.  On a listing whose first pod has a [spec] with [containers],
    [ProveRunHandler.execute] raises [TypeError]: [next] is applied to
    the parsed container list. *)
Theorem prove_run_handler_raises_on_listing :
  forall rt net post self r j p ps spec cs,
    net (ProveRunHandler.pods_request self) = Ok r ->
    contains (u "items") (text r) = true ->
    json_body r = Ok j ->
    getitem j (u "items") = Ok (JArr (p :: ps)) ->
    getitem p (u "spec") = Ok spec ->
    getitem spec (u "containers") = Ok cs ->
    outcome (ProveRunHandler.execute rt net post self) = Raise TypeError.
Proof.
  intros rt net post self r j p ps spec cs Hr Hi Hj Hit Hs Hc.
  unfold ProveRunHandler.execute, requests_get.
  rewrite Hr, bind_mk_Ok, Hi. cbn [outcome].
  rewrite Hj, bind_lift_Ok, Hit, bind_lift_Ok.
  cbn [py_iter]. rewrite bind_lift_Ok.
  cbn [ProveRunHandler.try_pods].
  rewrite Hs, bind_lift_Ok, Hc, bind_lift_Ok.
  unfold next_of_value. rewrite bind_lift_Raise.
  unfold raise. rewrite bind_mk_Raise. reflexivity.
Qed.

Lemma prove_run_handler_raises_on_listing_witness :
  outcome (ProveRunHandler.execute example_runtime net_pods_listing
             net_pods_listing example_run_prover) = Raise TypeError.
Proof.
  eapply (@prove_run_handler_raises_on_listing example_runtime
            net_pods_listing net_pods_listing example_run_prover
            (mkResponse 200 privileged_listing_text (Ok privileged_listing))
            privileged_listing).
  - reflexivity.
  - vm_compute. reflexivity.
  - reflexivity.
  - vm_compute. reflexivity.
  - vm_compute. reflexivity.
  - vm_compute. reflexivity.
Defined.

(** X3.  [ProveContainerLogsHandler.execute] never fetches a log and
    never sets the evidence: whatever the agent answers and whatever
    [json.loads] makes of the text, the only request of the run is the
    GET of the pods listing, and the run either returns the event
    unchanged or raises. *)
Theorem prove_container_logs_fetches_no_log :
  forall rt json_loads net self,
    requests (ProveContainerLogsHandler.execute rt json_loads net self)
    = [ProveContainerLogsHandler.pods_request self] /\
    yielded (ProveContainerLogsHandler.execute rt json_loads net self) = [] /\
    (outcome (ProveContainerLogsHandler.execute rt json_loads net self)
     = Ok (ProveContainerLogsHandler.event self) \/
     exists e,
       outcome (ProveContainerLogsHandler.execute rt json_loads net self)
       = Raise e).
Proof.
  intros rt json_loads net self.
  destruct (logs_execute_shape rt json_loads net self) as (o & -> & H).
  simpl. auto.
Qed.

(** X4.  On a listing whose first pod has a [spec] with [containers],
    [ProveContainerLogsHandler.execute] raises [TypeError]. *)
Theorem prove_container_logs_raises_on_listing :
  forall rt json_loads net self r j p ps spec cs,
    net (ProveContainerLogsHandler.pods_request self) = Ok r ->
    contains (u "items") (text r) = true ->
    json_loads (text r) = Ok j ->
    getitem j (u "items") = Ok (JArr (p :: ps)) ->
    getitem p (u "spec") = Ok spec ->
    getitem spec (u "containers") = Ok cs ->
    outcome (ProveContainerLogsHandler.execute rt json_loads net self)
    = Raise TypeError.
Proof.
  intros rt json_loads net self r j p ps spec cs Hr Hi Hj Hit Hs Hc.
  unfold ProveContainerLogsHandler.execute, requests_get.
  rewrite Hr, bind_mk_Ok. cbv zeta. rewrite Hi. cbn [outcome].
  rewrite Hj, bind_lift_Ok, Hit, bind_lift_Ok.
  cbn [py_iter]. rewrite bind_lift_Ok.
  cbn [ProveContainerLogsHandler.try_pods].
  rewrite Hs, bind_lift_Ok, Hc, bind_lift_Ok.
  unfold next_of_value. rewrite bind_lift_Raise.
  unfold raise. rewrite bind_mk_Raise. reflexivity.
Qed.

Lemma prove_container_logs_raises_on_listing_witness :
  outcome (ProveContainerLogsHandler.execute example_runtime loads_listing
             net_pods_listing example_logs_prover) = Raise TypeError.
Proof.
  eapply (@prove_container_logs_raises_on_listing example_runtime
            loads_listing net_pods_listing example_logs_prover
            (mkResponse 200 privileged_listing_text (Ok privileged_listing))
            privileged_listing).
  - reflexivity.
  - vm_compute. reflexivity.
  - vm_compute. reflexivity.
  - vm_compute. reflexivity.
  - vm_compute. reflexivity.
  - vm_compute. reflexivity.
Defined.

(* ================================================================== *)
(** ** The findings of a battery whose probes are all answered *)
(* ================================================================== *)

Lemma format_container_logs ns id c :
  format (value CONTAINERLOGS)
    [(u "pod_namespace", ns); (u "pod_id", id); (u "container_name", c)]
  = Ok (u "containerLogs/" ++ ns ++ u "/" ++ id ++ u "/" ++ c).
Proof.
  transitivity (Ok (u "containerLogs/" ++ ns ++ u "/" ++ id ++ u "/" ++ c ++ []));
    [reflexivity | rewrite app_nil_r; reflexivity].
Qed.

Lemma format_exec ns id c :
  format (value EXEC)
    [(u "pod_namespace", ns); (u "pod_id", id); (u "container_name", c);
     (u "cmd", u EmptyString)]
  = Ok (u "exec/" ++ ns ++ u "/" ++ id ++ u "/" ++ c
          ++ u "?command=&input=1&output=1&tty=1").
Proof. reflexivity. Qed.

Lemma format_attach ns id c :
  format (value ATTACH)
    [(u "pod_namespace", ns); (u "pod_id", id); (u "container_name", c);
     (u "cmd", u EmptyString)]
  = Ok (u "attach/" ++ ns ++ u "/" ++ id ++ u "/" ++ c
          ++ u "?command=&input=1&output=1&tty=1").
Proof. reflexivity. Qed.

Lemma format_port_forward ns id :
  format (value PORTFORWARD)
    [(u "pod_namespace", ns); (u "pod_id", id); (u "port", str_of_Z 80)]
  = Ok (u "portForward/" ++ ns ++ u "/" ++ id ++ u "?port=80").
Proof. reflexivity. Qed.

Lemma session_get_answered net s target h v rd st r :
  net (mkRequest target (session_headers s ++ h) v rd st) = Ok r ->
  session_get net s target h v rd st
  = mkRun [mkRequest target (session_headers s ++ h) v rd st] [] (Ok r).
Proof. intros H. unfold session_get, requests_get. rewrite H. reflexivity. Qed.

(** Each statement of the battery, when its request is answered. *)
Ltac answered H :=
  unfold running_pods_request, cmdline_request, container_logs_request,
    exec_request, run_request, port_forward_request, attach_request,
    system_logs_request, probe_request, target_ns, target_id, target_c in H;
  rewrite (session_get_answered _ _ _ _ _ _ _ H).

Lemma running_pods_step net dh r evs :
  net (running_pods_request dh) = Ok r ->
  running_pods_finding r = Ok evs ->
  (running_pods <-
     SecureKubeletPortHunter.DebugHandlers.test_running_pods net dh ;;
   match running_pods with
   | Some rp =>
       when (truthy rp)
         (items <- lift (getitem rp (u "items")) ;;
          n <- lift (py_len items) ;;
          yield (Vuln (ExposedRunningPodsHandler n)))
   | None => ret tt
   end)%run
  = mkRun [running_pods_request dh] evs (Ok tt).
Proof.
  intros H F. unfold running_pods_finding in F.
  unfold SecureKubeletPortHunter.DebugHandlers.test_running_pods.
  change (value RUNNINGPODS) with (u "runningpods").
  answered H. rewrite bind_mk_Ok.
  destruct (status_code r =? 200).
  - destruct (json_body r) as [j|e]; [|discriminate]. cbn [rbind] in F.
    rewrite bind_lift_Ok. cbn [ret requests yielded outcome app].
    rewrite bind_mk_Ok. unfold when.
    destruct (truthy j).
    + destruct (getitem j (u "items")) as [items|e]; [|discriminate].
      cbn [rbind] in F. rewrite bind_lift_Ok.
      destruct (py_len items) as [n|e]; [|discriminate].
      cbn [rbind] in F. injection F as <-.
      rewrite bind_lift_Ok. reflexivity.
    + injection F as <-. reflexivity.
  - injection F as <-. reflexivity.
Qed.

Lemma cmdline_step net dh r :
  net (cmdline_request dh) = Ok r ->
  (cmdline <-
     SecureKubeletPortHunter.DebugHandlers.test_pprof_cmdline net dh ;;
   match cmdline with
   | Some c => when (nonempty c) (yield (Vuln (ExposedKubeletCmdline c)))
   | None => ret tt
   end)%run
  = mkRun [cmdline_request dh] (cmdline_finding r) (Ok tt).
Proof.
  intros H.
  unfold SecureKubeletPortHunter.DebugHandlers.test_pprof_cmdline,
    cmdline_finding.
  change (value PPROF_CMDLINE) with (u "debug/pprof/cmdline").
  answered H. rewrite bind_mk_Ok.
  destruct (status_code r =? 200); [|reflexivity].
  cbn [ret requests yielded outcome app andb]. rewrite bind_mk_Ok.
  destruct (nonempty (text r)); reflexivity.
Qed.

Lemma container_logs_step rt net dh r :
  net (container_logs_request rt dh) = Ok r ->
  (b <- SecureKubeletPortHunter.DebugHandlers.test_container_logs rt net dh ;;
   when b (yield (Vuln ExposedContainerLogsHandler)))%run
  = mkRun [container_logs_request rt dh]
          (finding_if (status_code r =? 200) ExposedContainerLogsHandler)
          (Ok tt).
Proof.
  intros H.
  unfold SecureKubeletPortHunter.DebugHandlers.test_container_logs.
  rewrite format_container_logs, bind_lift_Ok.
  answered H. rewrite bind_mk_Ok.
  destruct (status_code r =? 200); reflexivity.
Qed.

Lemma exec_step rt net dh r :
  net (exec_request rt dh) = Ok r ->
  (b <- SecureKubeletPortHunter.DebugHandlers.test_exec_container rt net dh ;;
   when b (yield (Vuln ExposedExecHandler)))%run
  = mkRun [exec_request rt dh]
          (finding_if (contains (u "/cri/exec/") (text r)) ExposedExecHandler)
          (Ok tt).
Proof.
  intros H.
  unfold SecureKubeletPortHunter.DebugHandlers.test_exec_container.
  cbv zeta. rewrite format_exec, bind_lift_Ok.
  answered H. rewrite bind_mk_Ok.
  destruct (contains (u "/cri/exec/") (text r)); reflexivity.
Qed.

Lemma run_step net dh r :
  net (run_request dh) = Ok r ->
  (b <- SecureKubeletPortHunter.DebugHandlers.test_run_container net dh ;;
   when b (yield (Vuln ExposedRunHandler)))%run
  = mkRun [run_request dh]
          (finding_if (status_code r =? 405) ExposedRunHandler) (Ok tt).
Proof.
  intros H.
  unfold SecureKubeletPortHunter.DebugHandlers.test_run_container.
  assert (F : format (value RUN)
                [(u "pod_namespace", u "test"); (u "pod_id", u "test");
                 (u "container_name", u "test"); (u "cmd", u EmptyString)]
              = Ok (u "run/test/test/test?cmd=")) by reflexivity.
  rewrite F, bind_lift_Ok.
  answered H. rewrite bind_mk_Ok.
  destruct (status_code r =? 405); reflexivity.
Qed.

Lemma port_forward_step rt net dh r :
  net (port_forward_request rt dh) = Ok r ->
  (x <- SecureKubeletPortHunter.DebugHandlers.test_port_forward rt net dh ;;
   when (SecureKubeletPortHunter.truthy_None x)
     (yield (Vuln ExposedPortForwardHandler)))%run
  = mkRun [port_forward_request rt dh] [] (Ok tt).
Proof.
  intros H.
  unfold SecureKubeletPortHunter.DebugHandlers.test_port_forward.
  cbv zeta. rewrite format_port_forward, bind_lift_Ok.
  answered H. reflexivity.
Qed.

Lemma attach_step rt net dh r :
  net (attach_request rt dh) = Ok r ->
  (b <- SecureKubeletPortHunter.DebugHandlers.test_attach_container rt net dh ;;
   when b (yield (Vuln ExposedAttachHandler)))%run
  = mkRun [attach_request rt dh]
          (finding_if (contains (u "/cri/attach/") (text r))
             ExposedAttachHandler)
          (Ok tt).
Proof.
  intros H.
  unfold SecureKubeletPortHunter.DebugHandlers.test_attach_container.
  rewrite format_attach, bind_lift_Ok.
  answered H. rewrite bind_mk_Ok.
  destruct (contains (u "/cri/attach/") (text r)); reflexivity.
Qed.

Lemma system_logs_step net dh r :
  net (system_logs_request dh) = Ok r ->
  (b <- SecureKubeletPortHunter.DebugHandlers.test_logs_endpoint net dh ;;
   when b (yield (Vuln ExposedSystemLogs)))%run
  = mkRun [system_logs_request dh]
          (finding_if (contains (u "<pre>") (text r)) ExposedSystemLogs)
          (Ok tt).
Proof.
  intros H.
  unfold SecureKubeletPortHunter.DebugHandlers.test_logs_endpoint.
  assert (F : format (value LOGS) [(u "path", u EmptyString)]
              = Ok (u "logs/")) by reflexivity.
  rewrite F, bind_lift_Ok.
  answered H. rewrite bind_mk_Ok. cbv zeta.
  destruct (contains (u "<pre>") (text r)); reflexivity.
Qed.

(** X5.  When the agent answers the eight requests of the battery and the
    body of the running-pods answer can be read, the battery sends
    exactly these eight requests in the order of the source, ends
    normally, and publishes what the answers signal: the running pods
    for a true JSON body of a 200, the command line for a non-empty text
    of a 200, the container logs for a 200, exec and attach for a body
    that mentions [/cri/exec/] and [/cri/attach/], run for a 405, the
    system logs for a body that contains [<pre>], and nothing for the
    port forward. *)
Theorem battery_findings :
  forall rt net dh r1 r2 r3 r4 r5 r6 r7 r8 evs,
    net (running_pods_request dh) = Ok r1 ->
    net (cmdline_request dh) = Ok r2 ->
    net (container_logs_request rt dh) = Ok r3 ->
    net (exec_request rt dh) = Ok r4 ->
    net (run_request dh) = Ok r5 ->
    net (port_forward_request rt dh) = Ok r6 ->
    net (attach_request rt dh) = Ok r7 ->
    net (system_logs_request dh) = Ok r8 ->
    running_pods_finding r1 = Ok evs ->
    SecureKubeletPortHunter.battery rt net dh
    = mkRun [ running_pods_request dh; cmdline_request dh;
              container_logs_request rt dh; exec_request rt dh;
              run_request dh; port_forward_request rt dh;
              attach_request rt dh; system_logs_request dh ]
            (evs ++ cmdline_finding r2
               ++ finding_if (status_code r3 =? 200) ExposedContainerLogsHandler
               ++ finding_if (contains (u "/cri/exec/") (text r4))
                    ExposedExecHandler
               ++ finding_if (status_code r5 =? 405) ExposedRunHandler
               ++ finding_if (contains (u "/cri/attach/") (text r7))
                    ExposedAttachHandler
               ++ finding_if (contains (u "<pre>") (text r8))
                    ExposedSystemLogs)
            (Ok tt).
Proof.
  intros rt net dh r1 r2 r3 r4 r5 r6 r7 r8 evs H1 H2 H3 H4 H5 H6 H7 H8 F.
  rewrite battery_as_steps. unfold battery_steps, run_all.
  rewrite (@running_pods_step net dh r1 evs H1 F),
    (@cmdline_step net dh r2 H2),
    (@container_logs_step rt net dh r3 H3), (@exec_step rt net dh r4 H4),
    (@run_step net dh r5 H5), (@port_forward_step rt net dh r6 H6),
    (@attach_step rt net dh r7 H7), (@system_logs_step net dh r8 H8).
  unfold bind. cbn [outcome requests yielded app ret].
  rewrite !app_nil_r. reflexivity.
Qed.

(** The agent on which every handler is exposed: seven findings. *)
Lemma battery_findings_witness :
  SecureKubeletPortHunter.battery example_runtime net_exposed example_handlers
  = mkRun [ running_pods_request example_handlers;
            cmdline_request example_handlers;
            container_logs_request example_runtime example_handlers;
            exec_request example_runtime example_handlers;
            run_request example_handlers;
            port_forward_request example_runtime example_handlers;
            attach_request example_runtime example_handlers;
            system_logs_request example_handlers ]
          [ Vuln (ExposedRunningPodsHandler 0);
            Vuln (ExposedKubeletCmdline (u "/usr/bin/kubelet --v=2"));
            Vuln ExposedContainerLogsHandler;
            Vuln ExposedExecHandler;
            Vuln ExposedRunHandler;
            Vuln ExposedAttachHandler;
            Vuln ExposedSystemLogs ]
          (Ok tt).
Proof.
  apply (@battery_findings example_runtime net_exposed example_handlers
           (mkResponse 200 empty_listing_text
              (Ok (obj [("items"%string, JArr [])])))
           (mkResponse 200 (u "/usr/bin/kubelet --v=2") (Raise JSONDecodeError))
           (mkResponse 200 (u "Started container") (Raise JSONDecodeError))
           (mkResponse 302 (u "<a href=/cri/exec/Yk3tq0aa>Found</a>")
              (Raise JSONDecodeError))
           (mkResponse 405 (u "Method Not Allowed") (Raise JSONDecodeError))
           (mkResponse 200 [] (Raise JSONDecodeError))
           (mkResponse 302 (u "<a href=/cri/attach/pQ8mE3cd>Found</a>")
              (Raise JSONDecodeError))
           (mkResponse 200 (u "<pre><a href=audit/>audit/</a></pre>")
              (Raise JSONDecodeError))
           [Vuln (ExposedRunningPodsHandler 0)]).
  all: vm_compute; reflexivity.
Defined.

(* ================================================================== *)
(** ** The order of publication *)
(* ================================================================== *)

Lemma subseq_app_l {A} (l a b : list A) : subseq a b -> subseq a (l ++ b).
Proof. intros H. induction l; simpl; [exact H | apply subseq_skip, IHl]. Qed.

Lemma subseq_app {A} (a1 b1 a2 b2 : list A) :
  subseq a1 b1 -> subseq a2 b2 -> subseq (a1 ++ a2) (b1 ++ b2).
Proof.
  intros H1 H2. induction H1; simpl.
  - apply subseq_app_l, H2.
  - apply subseq_skip, IHsubseq.
  - apply subseq_take, IHsubseq.
Qed.

Lemma within_bind_silent {A B} cs (m : Run A) (k : A -> Run B) :
  no_yields m -> (forall a, within cs (k a)) -> within cs (bind m k).
Proof.
  unfold within, no_yields, bind. intros Hm Hk.
  destruct (outcome m) as [a|e]; simpl; rewrite Hm;
    [apply Hk | apply subseq_nil].
Qed.

Lemma within_bind_cons {A B} c cs (m : Run A) (k : A -> Run B) :
  within [c] m -> (forall a, within cs (k a)) -> within (c :: cs) (bind m k).
Proof.
  unfold within, bind. intros Hm Hk.
  destruct (outcome m) as [a|e]; simpl.
  - rewrite map_app. exact (subseq_app Hm (Hk a)).
  - rewrite <- (app_nil_r (map class_of (yielded m))).
    exact (subseq_app Hm (subseq_nil cs)).
Qed.

Lemma within_try_except cs (m : Run unit) :
  within cs m -> within cs (try_except m).
Proof. exact (fun H => H). Qed.

(** A guarded [yield] publishes its class or nothing. *)
Ltac within_leaf :=
  unfold within, when, bind, lift, ExposedPodsHandler, PrivilegedContainers,
    rbind; simpl;
  repeat match goal with
         | |- context [match ?x with _ => _ end] =>
             lazymatch x with
             | context [match _ with _ => _ end] => fail
             | _ => destruct x; simpl
             end
         end;
  first [ apply subseq_nil | apply subseq_take; apply subseq_nil ].

Ltac within_tac :=
  repeat first
    [ progress cbv zeta
    | apply within_bind_silent; [solve [no_yields_tac] | intros ?]
    | apply within_bind_cons; [solve [within_leaf] | intros ?]
    | match goal with
      | |- within _ (try_except _) => apply within_try_except
      | |- within _ (match ?x with _ => _ end) => destruct x
      end
    | solve [within_leaf] ].

(** X6.  In every run of the secure-port hunter the classes of the
    published findings follow the order of the source, each at most once:
    anonymous authentication, pods, health, running pods, command line,
    container logs, exec, run, attach, system logs. *)
Theorem secure_publication_order :
  forall rt config net self,
    subseq
      (map class_of
         (yielded (SecureKubeletPortHunter.execute rt config net self)))
      secure_order.
Proof.
  intros rt config net self.
  change (within secure_order
            (SecureKubeletPortHunter.execute rt config net self)).
  unfold secure_order. unfold_secure.
  within_tac.
Qed.

(** X7.  In every run of the read-only hunter the published events follow
    the order of the source, each at most once: the version disclosure
    (which has no class), the privileged containers, the health finding,
    the pods finding. *)
Theorem readonly_publication_order :
  forall rt net self,
    subseq
      (map class_of (yielded (ReadOnlyKubeletPortHunter.execute rt net self)))
      readonly_order.
Proof.
  intros rt net self.
  change (within readonly_order (ReadOnlyKubeletPortHunter.execute rt net self)).
  unfold readonly_order. unfold_readonly.
  within_tac.
Qed.

(* ================================================================== *)
(** ** Outside self-test mode *)
(* ================================================================== *)

(** X8.  When the hunter does not run in a pod, the battery of debug
    handlers is never run: whatever the agent answers, the run sends only
    the pods and the health requests and publishes only the anonymous
    authentication, pods and health findings.  The selector, the only
    source of a target in this mode, never returns one. *)
Theorem no_battery_outside_self_test :
  forall rt config net self,
    pod config = false ->
    Forall (fun r => r = secure_pods_request self \/
                     r = SecureKubeletPortHunter.healthz_request self)
      (requests (SecureKubeletPortHunter.execute rt config net self)) /\
    Forall (fun ev => first_stage_class ev = true)
      (yielded (SecureKubeletPortHunter.execute rt config net self)).
Proof.
  intros rt config net self Hpod. split.
  - unfold_secure. repeat requests_step.
    all: try match goal with
         | H : outcome (if pod _ then _ else _) = Ok (Some _) |- _ =>
             apply selected_target in H; destruct H as [H _]; congruence
         end.
    + left. reflexivity.
    + right. reflexivity.
  - unfold_secure. repeat yielded_step; constructor_facts.
    all: try match goal with
         | H : outcome (if pod _ then _ else _) = Ok (Some _) |- _ =>
             apply selected_target in H; destruct H as [H _]; congruence
         end.
    all: reflexivity.
Qed.

(** The agent on which every handler is exposed, probed from outside a
    pod. *)
Lemma no_battery_outside_self_test_witness :
  Forall (fun r => r = secure_pods_request example_hunter \/
                   r = SecureKubeletPortHunter.healthz_request example_hunter)
    (requests (SecureKubeletPortHunter.execute example_runtime remote_scan
                 net_exposed example_hunter)) /\
  Forall (fun ev => first_stage_class ev = true)
    (yielded (SecureKubeletPortHunter.execute example_runtime remote_scan
                net_exposed example_hunter)).
Proof.
  apply (@no_battery_outside_self_test example_runtime remote_scan net_exposed
           example_hunter).
  reflexivity.
Defined.

(* ================================================================== *)
(** ** What the selector returns *)
(* ================================================================== *)

Lemma existsb_find {A} (f : A -> bool) l :
  existsb f l = match List.find f l with Some _ => true | None => false end.
Proof.
  induction l as [|x l IH]; simpl; [reflexivity|].
  destruct (f x); simpl; auto.
Qed.

Lemma field_truthy k j v : field k j = Some v -> truthy j = true.
Proof.
  destruct j as [| | | | |l|fields]; simpl; try discriminate.
  destruct fields; simpl; [discriminate | reflexivity].
Qed.

Lemma selectable_predicate ns p :
  selectable p = true ->
  (md <- getitem p (u "metadata") ;;
   n <- getitem md (u "namespace") ;;
   if eq_str n (u ns)
   then (st <- getitem p (u "status") ;;
         ph <- getitem st (u "phase") ;;
         Ok (eq_str ph (u "Running")))
   else Ok false)%result
  = Ok (running_in ns p).
Proof.
  unfold selectable, running_in, pod_namespace_of, pod_phase_of. intros H.
  destruct (field "metadata" p) as [md|] eqn:Emd; [|discriminate].
  destruct (field "namespace" md) as [n|] eqn:En; [|discriminate].
  destruct (field "status" p) as [st|] eqn:Est; [|discriminate].
  destruct (field "phase" st) as [ph|] eqn:Eph; [|discriminate].
  rewrite (getitem_field _ _ Emd). simpl.
  rewrite (getitem_field _ _ En). simpl.
  destruct (eq_str n (u ns)); [|reflexivity].
  rewrite (getitem_field _ _ Est). simpl.
  rewrite (getitem_field _ _ Eph). reflexivity.
Qed.

Lemma first_match_selectable pred f ps :
  (forall p, selectable p = true -> pred p = Ok (f p)) ->
  forallb selectable ps = true ->
  first_match pred ps = Ok (List.find f ps).
Proof.
  intros Hp. induction ps as [|p ps IH]; simpl; [reflexivity|].
  intros H. apply andb_true_iff in H. destruct H as [H1 H2].
  rewrite (Hp _ H1). simpl. destruct (f p); auto.
Qed.

Lemma selected_pod_raises pd :
  selectable pd = true ->
  (if truthy pd then
     (spec <- getitem pd (u "spec") ;;
      cs <- getitem spec (u "containers") ;;
      container_data <- next_or_None (Value cs) ;;
      match container_data with
      | Some cd =>
          if truthy cd then
            (md <- getitem pd (u "metadata") ;;
             nm <- getitem md (u "name") ;;
             cn <- getitem cd (u "name") ;;
             md' <- getitem pd (u "metadata") ;;
             ns <- getitem md' (u "namespace") ;;
             Ok (Some (mkTarget nm cn ns)))
          else Ok None
      | None => Ok None
      end)
   else Ok None)%result = Raise TypeError.
Proof.
  unfold selectable. intros H.
  destruct (pod_namespace_of pd); [|discriminate].
  destruct (pod_phase_of pd); [|discriminate].
  destruct (field "spec" pd) as [sp|] eqn:Esp; [|discriminate].
  destruct (field "containers" sp) as [cs|] eqn:Ecs; [|discriminate].
  rewrite (field_truthy _ _ Esp).
  rewrite (getitem_field _ _ Esp). simpl.
  rewrite (getitem_field _ _ Ecs). reflexivity.
Qed.

Lemma find_selectable (f : json -> bool) ps pd :
  forallb selectable ps = true -> List.find f ps = Some pd ->
  selectable pd = true.
Proof.
  intros H F. apply find_some in F. destruct F as [I _].
  rewrite forallb_forall in H. auto.
Qed.

(** X9.  On a listing whose entries have a namespace, a phase and a
    container list, the selector returns no target when no pod of
    [default] or [kube-system] is Running, and raises [TypeError] as soon
    as there is one: it never returns a target. *)
Theorem get_random_pod_result :
  forall self data ps,
    SecureKubeletPortHunter.pods_endpoint_data self = Some data ->
    field "items" data = Some (JArr ps) ->
    forallb selectable ps = true ->
    SecureKubeletPortHunter.get_random_pod self
    = if existsb (running_in "default") ps
         || existsb (running_in "kube-system") ps
      then Raise TypeError
      else Ok None.
Proof.
  intros self data ps Hd Hi Hs.
  unfold SecureKubeletPortHunter.get_random_pod. rewrite Hd.
  rewrite (field_truthy _ _ Hi), (getitem_field _ _ Hi).
  cbn [rbind py_filter py_iter next_or_None].
  rewrite (@first_match_selectable SecureKubeletPortHunter.is_default_pod
             (running_in "default") ps
             (selectable_predicate "default") Hs).
  cbn [rbind]. rewrite !existsb_find.
  destruct (List.find (running_in "default") ps) as [pd|] eqn:F1.
  - assert (T : truthy pd = true).
    { pose proof (find_selectable _ _ Hs F1) as S. unfold selectable in S.
      destruct (pod_namespace_of pd), (pod_phase_of pd); try discriminate.
      destruct (field "spec" pd) eqn:E; [|discriminate].
      exact (field_truthy _ _ E). }
    cbn [truthy_opt]. rewrite T. cbn [negb rbind orb].
    apply selected_pod_raises. exact (find_selectable _ _ Hs F1).
  - cbn [truthy_opt negb rbind py_filter py_iter next_or_None].
    rewrite (@first_match_selectable SecureKubeletPortHunter.is_kubesystem_pod
               (running_in "kube-system") ps
               (selectable_predicate "kube-system") Hs).
    cbn [rbind orb].
    destruct (List.find (running_in "kube-system") ps) as [pd|] eqn:F2;
      [|reflexivity].
    apply selected_pod_raises. exact (find_selectable _ _ Hs F2).
Qed.

(** The listing with a Pending pod in [default] and a Running pod in
    [kube-system]. *)
Lemma get_random_pod_result_witness :
  SecureKubeletPortHunter.get_random_pod
    (SecureKubeletPortHunter.set_pods_endpoint_data example_hunter
       (Some listing_pending_default_running_kube_system))
  = Raise TypeError.
Proof.
  apply (@get_random_pod_result
           (SecureKubeletPortHunter.set_pods_endpoint_data example_hunter
              (Some listing_pending_default_running_kube_system))
           listing_pending_default_running_kube_system
           (pods_of listing_pending_default_running_kube_system)).
  - reflexivity.
  - reflexivity.
  - vm_compute. reflexivity.
Defined.

(* ================================================================== *)
(** ** The requests of the secure-port hunter *)
(* ================================================================== *)

(** Every request of a run is one of the ten of the table. *)
Lemma secure_requests_table rt config net ev :
  Forall (fun r => In r (secure_requests rt (SecureKubeletPortHunter.init ev)))
    (requests (SecureKubeletPortHunter.execute rt config net
                 (SecureKubeletPortHunter.init ev))).
Proof.
  unfold_secure.
  repeat requests_step.
  all: try match goal with
       | H : outcome (if pod _ then _ else _) = Ok (Some _) |- _ =>
           apply selected_target in H; destruct H as [_ ->]
       end.
  all: repeat match goal with
       | H : outcome (lift (format _ _)) = Ok _ |- _ =>
           vm_compute in H; injection H as <-
       end.
  all: unfold secure_requests.
  all: repeat first [ left; reflexivity | right ].
Qed.

Ltac table_cases T :=
  unfold secure_requests in T; cbn [In] in T;
  repeat (destruct T as [T|T]; [subst|]); [.. | contradiction].

(** X10.  When the event is [secure], every request of a run carries the
    session's [Authorization: Bearer] header first, except the request of
    the health endpoint, which is sent outside the session and carries no
    header at all. *)
Theorem bearer_header_on_all_but_healthz :
  forall ev rt config net r,
    secure ev = true ->
    In r (requests (SecureKubeletPortHunter.execute rt config net
                      (SecureKubeletPortHunter.init ev))) ->
    if str_eqb (url r) healthz_url
    then headers r = []
    else exists h,
        headers r
        = (u "Authorization", SecureKubeletPortHunter.bearer (auth_token ev)) :: h.
Proof.
  intros ev rt config net r Hsec Hin.
  pose proof (secure_requests_table rt config net ev) as T.
  rewrite Forall_forall in T. specialize (T r Hin). clear Hin.
  table_cases T.
  all: match goal with
       | |- if ?c then _ else _ =>
           let v := eval vm_compute in c in change c with v
       end; cbv iota.
  all: try reflexivity.
  all: eexists; unfold secure_pods_request, running_pods_request,
         cmdline_request, container_logs_request, exec_request, run_request,
         port_forward_request, attach_request, system_logs_request,
         probe_request, self_test_handlers,
         SecureKubeletPortHunter.DebugHandlers.init,
         SecureKubeletPortHunter.init;
       cbn [headers session_headers SecureKubeletPortHunter.session
            SecureKubeletPortHunter.DebugHandlers.session];
       rewrite Hsec; reflexivity.
Qed.

(** The logs probe of a run with a token. *)
Lemma bearer_header_on_all_but_healthz_witness :
  exists h,
    headers (system_logs_request
               (self_test_handlers (SecureKubeletPortHunter.init token_event)))
    = (u "Authorization", u "Bearer eyJhbGciOi") :: h.
Proof.
  apply (@bearer_header_on_all_but_healthz token_event example_runtime
           self_test net_exposed
           (system_logs_request
              (self_test_handlers (SecureKubeletPortHunter.init token_event)))).
  - reflexivity.
  - vm_compute. do 9 right. left. reflexivity.
Defined.

(** X11.  The transport switches of every request of a run: certificate
    verification is disabled on every request except that of the logs
    probe, which leaves it enabled; redirects are followed except by the
    exec and attach probes; only the port-forward probe streams. *)
Theorem transport_switches :
  forall ev rt config net r,
    In r (requests (SecureKubeletPortHunter.execute rt config net
                      (SecureKubeletPortHunter.init ev))) ->
    verify r = str_eqb (url r) system_logs_url /\
    allow_redirects r
    = negb (startswith exec_prefix (url r)
            || startswith attach_prefix (url r)) /\
    stream r = startswith port_forward_prefix (url r).
Proof.
  intros ev rt config net r Hin.
  pose proof (secure_requests_table rt config net ev) as T.
  rewrite Forall_forall in T. specialize (T r Hin). clear Hin.
  table_cases T.
  all: repeat split; vm_compute; reflexivity.
Qed.

Lemma transport_switches_witness :
  verify (system_logs_request example_handlers) = true /\
  allow_redirects (system_logs_request example_handlers) = true /\
  stream (system_logs_request example_handlers) = false.
Proof.
  apply (@transport_switches anonymous_event example_runtime self_test
           net_exposed (system_logs_request example_handlers)).
  vm_compute. do 9 right. left. reflexivity.
Defined.

(* ================================================================== *)
(** ** Titles in UTF-8 *)
(* ================================================================== *)

Ltac Zify.zify_post_hook ::= Z.to_euclidean_division_equations.

Lemma between_true lo b hi :
  (lo <= b)%N -> (b <= hi)%N -> between lo b hi = true.
Proof.
  intros H1 H2. unfold between.
  apply andb_true_iff. split; apply N.leb_le; assumption.
Qed.

Lemma between_false lo b hi :
  (b < lo \/ hi < b)%N -> between lo b hi = false.
Proof.
  intros H. unfold between. apply andb_false_iff.
  destruct H; [left | right]; apply N.leb_gt; assumption.
Qed.

Lemma continuation_true b :
  (128 <= b)%N -> (b <= 191)%N -> continuation b = true.
Proof. exact (@between_true 128 b 191). Qed.

Lemma scalar_range c :
  scalar c = true -> (c < 55296 \/ 57343 < c < 1114112)%N.
Proof.
  unfold scalar. intros H. apply orb_true_iff in H.
  destruct H as [H|H]; [left; apply N.ltb_lt; exact H | right].
  apply andb_true_iff in H. destruct H as [H1 H2].
  apply N.ltb_lt in H1, H2. lia.
Qed.

Lemma utf8_of_bytes c :
  scalar c = true -> Forall (fun b => (b < 256)%N) (utf8_of c).
Proof.
  intros H. apply scalar_range in H. unfold utf8_of.
  destruct (N.ltb_spec c 128); [repeat constructor; lia|].
  destruct (N.ltb_spec c 2048); [repeat constructor; lia|].
  destruct (N.ltb_spec c 65536); repeat constructor; lia.
Qed.

(** The decoder reads back the form of one code point. *)
Lemma decode_utf8_one c rest :
  scalar c = true ->
  decode_utf8 (utf8_of c ++ rest)
  = (t <- decode_utf8 rest ;; Ok (c :: t))%result.
Proof.
  intros H. apply scalar_range in H. unfold utf8_of.
  destruct (N.ltb_spec c 128) as [L1|L1].
  { cbn [app decode_utf8]. rewrite (proj2 (N.ltb_lt c 128) L1). reflexivity. }
  destruct (N.ltb_spec c 2048) as [L2|L2].
  { cbn [app decode_utf8].
    rewrite (proj2 (N.ltb_ge (192 + c / 64) 128)) by lia.
    rewrite (@between_true 194 (192 + c / 64) 223) by lia.
    rewrite (@continuation_true (128 + c mod 64)) by lia.
    replace ((192 + c / 64 - 192) * 64 + (128 + c mod 64 - 128))%N with c
      by lia.
    reflexivity. }
  destruct (N.ltb_spec c 65536) as [L3|L3].
  { cbn [app decode_utf8].
    rewrite (proj2 (N.ltb_ge (224 + c / 4096) 128)) by lia.
    rewrite (@between_false 194 (224 + c / 4096) 223) by lia.
    rewrite (@between_true 224 (224 + c / 4096) 239) by lia.
    rewrite (@between_true _ (128 + (c / 64) mod 64) _).
    2: { destruct (N.eqb_spec (224 + c / 4096) 224); lia. }
    2: { destruct (N.eqb_spec (224 + c / 4096) 237); lia. }
    rewrite (@continuation_true (128 + c mod 64)) by lia.
    cbn [andb].
    replace ((224 + c / 4096 - 224) * 4096
             + (128 + (c / 64) mod 64 - 128) * 64
             + (128 + c mod 64 - 128))%N with c by lia.
    reflexivity. }
  cbn [app decode_utf8].
  rewrite (proj2 (N.ltb_ge (240 + c / 262144) 128)) by lia.
  rewrite (@between_false 194 (240 + c / 262144) 223) by lia.
  rewrite (@between_false 224 (240 + c / 262144) 239) by lia.
  rewrite (@between_true 240 (240 + c / 262144) 244) by lia.
  rewrite (@between_true _ (128 + (c / 4096) mod 64) _).
  2: { destruct (N.eqb_spec (240 + c / 262144) 240); lia. }
  2: { destruct (N.eqb_spec (240 + c / 262144) 244); lia. }
  rewrite (@continuation_true (128 + (c / 64) mod 64)) by lia.
  rewrite (@continuation_true (128 + c mod 64)) by lia.
  cbn [andb].
  replace ((240 + c / 262144 - 240) * 262144
           + (128 + (c / 4096) mod 64 - 128) * 4096
           + (128 + (c / 64) mod 64 - 128) * 64
           + (128 + c mod 64 - 128))%N with c by lia.
  reflexivity.
Qed.

Lemma decode_utf8_encode t :
  forallb scalar t = true -> decode_utf8 (encode_utf8 t) = Ok t.
Proof.
  induction t as [|c t IH]; [reflexivity|].
  cbn [forallb]. intros H. apply andb_true_iff in H. destruct H as [Hc Ht].
  change (encode_utf8 (c :: t)) with (utf8_of c ++ encode_utf8 t).
  rewrite (@decode_utf8_one c (encode_utf8 t) Hc), (IH Ht). reflexivity.
Qed.

Lemma encode_utf8_bytes t :
  forallb scalar t = true -> Forall (fun b => (b < 256)%N) (encode_utf8 t).
Proof.
  induction t as [|c t IH]; [constructor|].
  cbn [forallb]. intros H. apply andb_true_iff in H. destruct H as [Hc Ht].
  change (encode_utf8 (c :: t)) with (utf8_of c ++ encode_utf8 t).
  apply Forall_app. split; [apply utf8_of_bytes, Hc | apply IH, Ht].
Qed.

(** X12.  Round trip of a process title: whatever Unicode text the title
    is, the hexadecimal form of its UTF-8 bytes, which is what the audit
    log holds, decodes to the text with every null turned into a
    space. *)
Theorem decode_proctitle_round_trip :
  forall t,
    forallb scalar t = true ->
    ProveSystemLogs.decode_proctitle (hexlify (encode_utf8 t))
    = Ok (nulls_to_spaces t).
Proof.
  intros t H. unfold ProveSystemLogs.decode_proctitle.
  rewrite (@fromhex_hexlify (encode_utf8 t) (@encode_utf8_bytes t H)).
  cbn [rbind].
  rewrite (@decode_utf8_encode t H). cbn [rbind].
  rewrite replace_null. reflexivity.
Qed.

Lemma decode_proctitle_round_trip_witness :
  ProveSystemLogs.decode_proctitle (hexlify (encode_utf8 unicode_title))
  = Ok (nulls_to_spaces unicode_title).
Proof.
  apply (@decode_proctitle_round_trip unicode_title).
  vm_compute. reflexivity.
Defined.

(* ================================================================== *)
(** ** A field that is not hexadecimal *)
(* ================================================================== *)

Lemma fromhex_bad n :
  forall h c,
    (List.length h <= n)%nat -> In c h -> hexval c = None ->
    is_space c = false -> fromhex h = Raise ValueError.
Proof.
  induction n as [|n IH]; intros h c L I V S.
  - destruct h; [contradiction | simpl in L; lia].
  - destruct h as [|c0 s']; [contradiction|]. cbn [fromhex].
    cbn [List.length] in L.
    destruct (is_space c0) eqn:S0.
    + apply (IH s' c); [lia | | exact V | exact S].
      destruct I as [->|I]; [congruence | exact I].
    + destruct (hexval c0) as [h0|] eqn:V0; [|reflexivity].
      destruct s' as [|d s'']; [reflexivity|].
      destruct (hexval d) as [l|] eqn:Vd; [|reflexivity].
      cbn [List.length] in L.
      rewrite (IH s'' c); [reflexivity | lia | | exact V | exact S].
      destruct I as [->|[->|I]]; [congruence | congruence | exact I].
Qed.

Lemma decode_each_raises found :
  forall acc h e,
    In h found -> ProveSystemLogs.decode_proctitle h = Raise e ->
    exists e', ProveSystemLogs.decode_each found acc = Raise e'.
Proof.
  induction found as [|a found IH]; intros acc h e I H; [contradiction|].
  cbn [ProveSystemLogs.decode_each].
  destruct I as [->|I]; [rewrite H; eexists; reflexivity|].
  destruct (ProveSystemLogs.decode_proctitle a) as [d|e0];
    cbn [rbind]; [exact (IH _ _ _ I H) | eexists; reflexivity].
Qed.

(** X13.  All or nothing: when one of the fields that the pattern finds
    holds a character that is no hexadecimal digit, the hunter raises
    after its single request and returns no event, so neither the
    titles nor the evidence are set, whatever the other fields hold. *)
Theorem invalid_title_aborts :
  forall rt net self r h c,
    net (audit_log_request self) = Ok r ->
    In h (findall_proctitle rt (text r)) ->
    In c h -> hexval c = None -> is_space c = false ->
    ProveSystemLogs.decode_proctitle h = Raise ValueError /\
    exists e,
      ProveSystemLogs.execute rt net self
      = mkRun [audit_log_request self] [] (Raise e).
Proof.
  intros rt net self r h c Hnet Hh Hc V S.
  assert (D : ProveSystemLogs.decode_proctitle h = Raise ValueError).
  { unfold ProveSystemLogs.decode_proctitle.
    rewrite (@fromhex_bad (List.length h) h c (le_n _) Hc V S). reflexivity. }
  split; [exact D|].
  destruct (@decode_each_raises (findall_proctitle rt (text r)) [] h
              ValueError Hh D) as [e He].
  exists e. unfold ProveSystemLogs.execute.
  rewrite audit_request_Ok, bind_lift_Ok.
  unfold requests_get. rewrite Hnet, bind_mk_Ok. cbv zeta.
  rewrite He, bind_lift_Raise. reflexivity.
Qed.

(** The interpreted log: the first word of the title is [cat]. *)
Lemma invalid_title_aborts_witness :
  ProveSystemLogs.decode_proctitle (u "cat") = Raise ValueError /\
  exists e,
    ProveSystemLogs.execute example_runtime net_interpreted_audit
      example_prover
    = mkRun [audit_log_request example_prover] [] (Raise e).
Proof.
  apply (@invalid_title_aborts example_runtime net_interpreted_audit
           example_prover
           (mkResponse 200 (u "type=PROCTITLE msg=audit(11/04/2020 09:33:20.123:4242) : proctitle=cat /etc/passwd")
              (Raise JSONDecodeError))
           (u "cat") (ch "t")).
  - reflexivity.
  - vm_compute. left. reflexivity.
  - vm_compute. do 2 right. left. reflexivity.
  - reflexivity.
  - reflexivity.
Defined.

(* ================================================================== *)
(** ** A build-info line without labels *)
(* ================================================================== *)

Lemma In_firstn_skipn {A} (x : A) n m l :
  In x (firstn n (skipn m l)) -> In x l.
Proof.
  intros H.
  rewrite <- (firstn_skipn m l). apply in_or_app. right.
  rewrite <- (firstn_skipn n (skipn m l)). apply in_or_app. left. exact H.
Qed.

Lemma In_split sep s :
  forall w x, In w (split sep s) -> In x w -> In x s.
Proof.
  induction s as [|c s IH]; intros w x Hw Hx.
  - destruct Hw as [<-|[]]. exact Hx.
  - cbn [split] in Hw. destruct (c =? sep)%N.
    + destruct Hw as [<-|Hw]; [contradiction | right; eauto].
    + destruct (split sep s) as [|w0 ws] eqn:E.
      * destruct Hw as [<-|[]]. destruct Hx as [<-|[]]. left. reflexivity.
      * destruct Hw as [<-|Hw].
        -- destruct Hx as [<-|Hx]; [left; reflexivity | right].
           apply (IH w0 x); [left; reflexivity | exact Hx].
        -- right. apply (IH w x); [right; exact Hw | exact Hx].
Qed.

(** X14.  A build-info line in which no [=] occurs, such as the metric
    printed without labels, makes the version probe raise [ValueError]:
    the text cut between the braces, wherever [find] places them, has a
    first item that does not split in two at [=]. *)
Theorem build_info_line_without_labels :
  forall before line after,
    Forall (fun l => avoids [newline] l = true) before ->
    Forall (fun l => startswith metric_name l = false) before ->
    startswith metric_name line = true ->
    avoids [ch "="; newline] line = true ->
    ReadOnlyKubeletPortHunter.parse_version (document before line after)
    = Raise ValueError.
Proof.
  intros before line after Hb1 Hb2 Hs Ha.
  assert (Hn : avoids [newline] line = true).
  { apply (@avoids_weaken [ch "="; newline] [newline] line); [|exact Ha].
    intros c [<-|[]]. right. left. reflexivity. }
  unfold ReadOnlyKubeletPortHunter.parse_version.
  rewrite (@split_document before line after Hb1 Hn).
  rewrite (@scan_lines_skip before _ Hb2).
  cbn [ReadOnlyKubeletPortHunter.scan_lines].
  change (u "kubernetes_build_info") with metric_name. rewrite Hs.
  unfold ReadOnlyKubeletPortHunter.labels_of.
  destruct (split_cons (ch ",")
              (py_slice line (find (u "{") line + 1) (find (u "}") line)))
    as (w & ws & E).
  rewrite E. unfold pystr.
  rewrite (@scan_labels_malformed w ws); [reflexivity|].
  assert (Z0 : count_occ N.eq_dec w (ch "=") = 0%nat); [|rewrite Z0; discriminate].
  apply count_occ_not_In. intros I.
  assert (I' : In (ch "=") line).
  { unfold py_slice in E. cbv zeta in E.
    eapply In_firstn_skipn, In_split; [|exact I].
    rewrite E. left. reflexivity. }
  pose proof (@avoids_char [ch "="; newline] line (ch "=") Ha
                (or_introl eq_refl)) as F.
  rewrite Forall_forall in F. exact (F _ I' eq_refl).
Qed.

(** The metric printed without labels, after its [# TYPE] line. *)
Lemma build_info_line_without_labels_witness :
  ReadOnlyKubeletPortHunter.parse_version
    (document [u "# TYPE kubernetes_build_info gauge"]
       (u "kubernetes_build_info 1") (Some []))
  = Raise ValueError.
Proof.
  apply (@build_info_line_without_labels
           [u "# TYPE kubernetes_build_info gauge"]
           (u "kubernetes_build_info 1") (Some [])).
  - repeat constructor.
  - repeat constructor.
  - reflexivity.
  - reflexivity.
Defined.

(* ================================================================== *)
(** ** The secure-port hunter: its stages and its findings *)
(* ================================================================== *)

Lemma try_outcome (o : result unit) :
  match o with Ok _ => Ok tt | Raise _ => Ok tt end = Ok tt.
Proof. destruct o; reflexivity. Qed.

Lemma sec_pods_stage net self :
  requests (SecureKubeletPortHunter.get_pods_endpoint net self)
  = [secure_pods_request self] /\
  yielded (SecureKubeletPortHunter.get_pods_endpoint net self) = [].
Proof.
  unfold SecureKubeletPortHunter.get_pods_endpoint, session_get, requests_get.
  fold (secure_pods_request self).
  destruct (net (secure_pods_request self)) as [r|e];
    [rewrite bind_mk_Ok | rewrite bind_mk_Raise; split; reflexivity].
  destruct (contains (u "items") (text r)); [|split; reflexivity].
  destruct (json_body r) as [j|e];
    [rewrite bind_lift_Ok | rewrite bind_lift_Raise]; split; reflexivity.
Qed.

Lemma sec_healthz_stage net self :
  requests (SecureKubeletPortHunter.check_healthz_endpoint net self)
  = [SecureKubeletPortHunter.healthz_request self] /\
  yielded (SecureKubeletPortHunter.check_healthz_endpoint net self) = [].
Proof.
  unfold SecureKubeletPortHunter.check_healthz_endpoint, requests_get.
  destruct (net (SecureKubeletPortHunter.healthz_request self)) as [r|e];
    [rewrite bind_mk_Ok | rewrite bind_mk_Raise]; split; reflexivity.
Qed.

(** X15.  How a self-test run of the secure-port hunter composes: when
    the pods and the health requests are answered and the listing, if
    any, has its [items], the run sends the pods request, the health
    request and then the requests of the battery, publishes the
    anonymous-authentication finding if the event says so, then the pods
    finding, the health finding and the findings of the battery, and
    ends normally whatever happens in the battery. *)
Theorem secure_run_composes :
  forall rt config net self data hz,
    pod config = true ->
    outcome (SecureKubeletPortHunter.get_pods_endpoint net self) = Ok data ->
    outcome (SecureKubeletPortHunter.check_healthz_endpoint net self) = Ok hz ->
    (forall d, data = Some d -> truthy d = true ->
               exists items n, getitem d (u "items") = Ok items /\
                               py_len items = Ok n) ->
    SecureKubeletPortHunter.execute rt config net self
    = mkRun (secure_pods_request self
               :: SecureKubeletPortHunter.healthz_request self
               :: requests (SecureKubeletPortHunter.battery rt net
                              (self_test_handlers self)))
            ((if anonymous_auth (SecureKubeletPortHunter.event self)
              then [Vuln AnonymousAuthEnabled] else [])
               ++ pods_events data ++ healthz_events hz
               ++ yielded (SecureKubeletPortHunter.battery rt net
                             (self_test_handlers self)))
            (Ok tt).
Proof.
  intros rt config net self data hz Hpod Hp Hh Hitems.
  apply runs_as_eq.
  unfold SecureKubeletPortHunter.execute.
  eapply runs_as_conv.
  - eapply (@runs_as_bind _ _ _ _ []
              (if anonymous_auth (SecureKubeletPortHunter.event self)
               then [Vuln AnonymousAuthEnabled] else []) tt).
    { destruct (anonymous_auth (SecureKubeletPortHunter.event self));
        apply runs_as_mk. }
    eapply runs_as_bind.
    { destruct (sec_pods_stage net self) as [R Y]. split; [exact R|].
      split; [exact Y | exact Hp]. }
    cbv zeta.
    eapply runs_as_bind.
    { destruct (sec_healthz_stage net
                  (SecureKubeletPortHunter.set_pods_endpoint_data self data))
        as [R Y].
      split; [exact R|]. split; [exact Y | exact Hh]. }
    eapply runs_as_bind.
    { cbn [SecureKubeletPortHunter.pods_endpoint_data
           SecureKubeletPortHunter.set_pods_endpoint_data].
      rewrite (guard_pods Hitems). apply runs_as_mk. }
    eapply runs_as_bind; [rewrite guard_healthz; apply runs_as_mk|].
    unfold SecureKubeletPortHunter.test_handlers. rewrite Hpod.
    unfold ret at 1. rewrite bind_mk_Ok.
    unfold try_except. cbn [requests yielded outcome app].
    rewrite try_outcome. apply runs_as_mk.
  - reflexivity.
  - cbn [app]. rewrite ?app_nil_r. reflexivity.
Qed.

(** The agent on which every handler is exposed. *)
Lemma secure_run_composes_witness :
  SecureKubeletPortHunter.execute example_runtime self_test net_exposed
    example_hunter
  = mkRun (secure_pods_request example_hunter
             :: SecureKubeletPortHunter.healthz_request example_hunter
             :: requests (SecureKubeletPortHunter.battery example_runtime
                            net_exposed (self_test_handlers example_hunter)))
          ([Vuln AnonymousAuthEnabled]
             ++ pods_events (Some (obj [("items"%string, JArr [])]))
             ++ healthz_events (Some (u "ok"))
             ++ yielded (SecureKubeletPortHunter.battery example_runtime
                           net_exposed (self_test_handlers example_hunter)))
          (Ok tt).
Proof.
  apply (@secure_run_composes example_runtime self_test net_exposed
           example_hunter (Some (obj [("items"%string, JArr [])]))
           (Some (u "ok"))).
  - reflexivity.
  - vm_compute. reflexivity.
  - vm_compute. reflexivity.
  - intros d [= <-] _. exists (JArr []), 0%nat. split; reflexivity.
Defined.

(* ================================================================== *)
(** ** A listing with an incomplete entry *)
(* ================================================================== *)

Lemma scan_pods_app before rest acc :
  forallb wf_pod before = true ->
  ReadOnlyKubeletPortHunter.scan_pods (before ++ rest) acc
  = ReadOnlyKubeletPortHunter.scan_pods rest
      (acc ++ map as_json_pair (flat_map pod_matches before)).
Proof.
  revert acc. induction before as [|p ps IH]; intros acc Hwf.
  - cbn [app flat_map map]. rewrite app_nil_r. reflexivity.
  - cbn [forallb] in Hwf. apply andb_prop in Hwf. destruct Hwf as [Hp Hps].
    cbn [app ReadOnlyKubeletPortHunter.scan_pods flat_map].
    unfold wf_pod in Hp. unfold pod_matches at 1, containers_of.
    destruct (pod_name p) as [n|] eqn:Hn; [|discriminate].
    destruct (pod_containers p) as [cs|] eqn:Hcs; [|discriminate].
    unfold pod_containers in Hcs.
    destruct (field "spec" p) as [sp|] eqn:S; [|discriminate].
    destruct (field "containers" sp) as [[| | | | |cs'|]|] eqn:C;
      try discriminate.
    injection Hcs as ->.
    rewrite (getitem_field _ _ S). cbn [rbind].
    rewrite (getitem_field _ _ C). cbn [rbind py_iter].
    rewrite (@scan_containers_wf p n cs acc Hn Hp). cbn [rbind].
    rewrite (IH _ Hps), map_app, app_assoc. reflexivity.
Qed.

(** X16.  The scan for privileged containers has no tolerance for an
    incomplete entry: when an entry of the listing has no [spec], the
    scan raises ([KeyError] for an object, [TypeError] for any other
    value) and returns nothing, whatever privileged containers the pods
    before and after it run. *)
Theorem scan_raises_on_entry_without_spec :
  forall self data before p after,
    field "items" data = Some (JArr (before ++ p :: after)) ->
    forallb wf_pod before = true ->
    field "spec" p = None ->
    ReadOnlyKubeletPortHunter.find_privileged_containers
      (ReadOnlyKubeletPortHunter.set_pods_endpoint_data self (Some data))
    = Raise (match p with JObj _ => KeyError | _ => TypeError end).
Proof.
  intros self data before p after Hi Hwf Hs.
  unfold ReadOnlyKubeletPortHunter.find_privileged_containers.
  cbn [ReadOnlyKubeletPortHunter.pods_endpoint_data
       ReadOnlyKubeletPortHunter.set_pods_endpoint_data truthy_opt].
  rewrite (field_truthy _ _ Hi), (getitem_field _ _ Hi).
  cbn [rbind py_iter].
  rewrite (@scan_pods_app before (p :: after) [] Hwf).
  cbn [ReadOnlyKubeletPortHunter.scan_pods].
  destruct p as [| | | | | |fields]; try reflexivity.
  cbn [field] in Hs. cbn [getitem]. rewrite Hs. reflexivity.
Qed.

Lemma scan_raises_on_entry_without_spec_witness :
  ReadOnlyKubeletPortHunter.find_privileged_containers
    (ReadOnlyKubeletPortHunter.set_pods_endpoint_data example_readonly
       (Some incomplete_listing))
  = Raise KeyError.
Proof.
  apply (@scan_raises_on_entry_without_spec example_readonly incomplete_listing
           (firstn 1 (pods_of incomplete_listing))
           (nth 1 (pods_of incomplete_listing) JNull) []).
  - reflexivity.
  - reflexivity.
  - reflexivity.
Defined.

(* ================================================================== *)
(** ** What the pattern finds *)
(* ================================================================== *)

Lemma take_word_prefix rt s : startswith (take_word rt s) s = true.
Proof.
  induction s as [|c s IH]; [reflexivity|].
  cbn [take_word]. destruct (is_word rt c); [|reflexivity].
  cbn [startswith]. rewrite N.eqb_refl. exact IH.
Qed.

Lemma take_word_words rt s : forallb (is_word rt) (take_word rt s) = true.
Proof.
  induction s as [|c s IH]; [reflexivity|].
  cbn [take_word]. destruct (is_word rt c) eqn:W; [|reflexivity].
  cbn [forallb]. rewrite W. exact IH.
Qed.

Lemma startswith_app_skipn p q s :
  startswith p s = true ->
  startswith q (skipn (List.length p) s) = true ->
  startswith (p ++ q) s = true.
Proof.
  revert s. induction p as [|a p IH]; intros s Hp Hq; [exact Hq|].
  destruct s as [|b s]; [discriminate|].
  cbn [startswith] in Hp. apply andb_prop in Hp. destruct Hp as [E Hp].
  cbn [app startswith]. rewrite E. exact (IH s Hp Hq).
Qed.

Lemma startswith_contains p s : startswith p s = true -> contains p s = true.
Proof. intros H. destruct s; cbn [contains]; rewrite H; reflexivity. Qed.

Lemma findall_from_sound rt s :
  forall skip w,
    In w (findall_from rt skip s) ->
    w <> [] /\ forallb (is_word rt) w = true /\
    contains (proctitle_key ++ w) s = true.
Proof.
  induction s as [|c s IH]; intros skip w H; [contradiction|].
  assert (K : forall k, In w (findall_from rt k s) ->
                        w <> [] /\ forallb (is_word rt) w = true /\
                        contains (proctitle_key ++ w) (c :: s) = true).
  { intros k Hk. destruct (IH k w Hk) as (A & B & C).
    repeat split; [exact A | exact B |].
    rewrite contains_cons, C. apply orb_true_r. }
  cbn [findall_from] in H. destruct skip as [|k]; [|exact (K k H)].
  unfold match_here in H. change (u "proctitle=") with proctitle_key in H.
  destruct (startswith proctitle_key (c :: s)) eqn:S; [|exact (K _ H)].
  destruct (nonempty (take_word rt (skipn (List.length proctitle_key) (c :: s))))
    eqn:N; [|exact (K _ H)].
  destruct H as [<-|H]; [|exact (K _ H)].
  repeat split.
  - intros E. rewrite E in N. discriminate.
  - apply take_word_words.
  - apply startswith_contains, startswith_app_skipn;
      [exact S | apply take_word_prefix].
Qed.

(** X17.  What the pattern [proctitle=(\w+)] finds: every field handed
    to the decoder is a non-empty run of word characters that stands in
    the log right after an occurrence of [proctitle=]. *)
Theorem found_titles_follow_the_key :
  forall rt log w,
    In w (findall_proctitle rt log) ->
    w <> [] /\ forallb (is_word rt) w = true /\
    contains (proctitle_key ++ w) log = true.
Proof. intros rt log w. apply findall_from_sound. Qed.

Lemma found_titles_follow_the_key_witness :
  u "2F62696E" <> [] /\
  forallb (is_word example_runtime) (u "2F62696E") = true /\
  contains (proctitle_key ++ u "2F62696E")
    (u "pid=1 proctitle=2F62696E key=(null)") = true.
Proof.
  apply (@found_titles_follow_the_key example_runtime
           (u "pid=1 proctitle=2F62696E key=(null)") (u "2F62696E")).
  vm_compute. left. reflexivity.
Defined.

(* ================================================================== *)
(** ** A field with an odd number of digits *)
(* ================================================================== *)

Lemma hex_not_space c : is_hex c = true -> is_space c = false.
Proof.
  unfold is_hex, hexval, is_space.
  destruct (N.leb_spec 48 c), (N.leb_spec c 57), (N.leb_spec 97 c),
    (N.leb_spec c 102), (N.leb_spec 65 c), (N.leb_spec c 70);
    cbn [andb]; try discriminate; intros _.
  all: destruct (N.eqb_spec c 32); [lia|].
  all: destruct (N.leb_spec 9 c), (N.leb_spec c 13); cbn [andb orb];
    try reflexivity; lia.
Qed.

Lemma fromhex_odd n :
  forall h,
    (List.length h <= n)%nat -> forallb is_hex h = true ->
    Nat.odd (List.length h) = true -> fromhex h = Raise ValueError.
Proof.
  induction n as [|n IH]; intros h L H O.
  - destruct h; [discriminate | simpl in L; lia].
  - destruct h as [|c [|d s]]; [discriminate | |].
    + cbn [forallb] in H. apply andb_prop in H. destruct H as [Hc _].
      cbn [fromhex]. rewrite (hex_not_space _ Hc).
      destruct (hexval c); reflexivity.
    + cbn [forallb] in H. apply andb_prop in H. destruct H as [Hc H].
      apply andb_prop in H. destruct H as [Hd H].
      cbn [fromhex]. rewrite (hex_not_space _ Hc).
      unfold is_hex in Hc, Hd.
      destruct (hexval c); [|discriminate].
      destruct (hexval d); [|discriminate].
      cbn [List.length] in L, O.
      rewrite (IH s); [reflexivity | lia | exact H | exact O].
Qed.

(** X18.  A field with an odd number of hexadecimal digits, as a title
    cut in the middle of a byte leaves it, is not decoded as far as it
    goes: the decoder raises [ValueError]. *)
Theorem title_of_odd_length_raises :
  forall h,
    forallb is_hex h = true ->
    Nat.odd (List.length h) = true ->
    ProveSystemLogs.decode_proctitle h = Raise ValueError.
Proof.
  intros h H O. unfold ProveSystemLogs.decode_proctitle.
  rewrite (@fromhex_odd (List.length h) h (le_n _) H O). reflexivity.
Qed.

Lemma title_of_odd_length_raises_witness :
  ProveSystemLogs.decode_proctitle (u "2F62696E2") = Raise ValueError.
Proof.
  apply (@title_of_odd_length_raises (u "2F62696E2")); reflexivity.
Defined.

(* ================================================================== *)
(** ** The catalogue of vulnerability classes *)
(* ================================================================== *)

(** X19.  Every vulnerability that either hunter publishes carries the
    identifier, the component and the category of its class: the
    identifiers run from KHV036 to KHV046, one per class, and the pods
    finding is the only one published without an identifier. *)
Theorem published_events_catalogued :
  forall rt config net,
    (forall self,
        Forall catalogued
          (yielded (ReadOnlyKubeletPortHunter.execute rt net self))) /\
    (forall self,
        Forall catalogued
          (yielded (SecureKubeletPortHunter.execute rt config net self))) /\
    (forall c, identifier c = None <-> c = ClsExposedPodsHandler) /\
    (forall c c', identifier c = identifier c' -> c = c').
Proof.
  intros rt config net. repeat split.
  - intros self. unfold_readonly.
    repeat yielded_step; constructor_facts; repeat split.
  - intros self. unfold_secure.
    repeat yielded_step; constructor_facts; repeat split.
  - destruct c; intros H; [reflexivity | discriminate ..].
  - intros ->. reflexivity.
  - intros c c'. destruct c, c'; intros H; first [reflexivity | discriminate H].
Qed.

(* ================================================================== *)
(** ** Failures before the battery *)
(* ================================================================== *)

(** X20.  A failure before the battery ends the run of the secure-port
    hunter with the anonymous-authentication finding as its only
    possible publication: when the pods request or its JSON fails, when
    the health request fails, or when the listing has no [items] (or
    items without a length), the run raises the same exception, the
    pods and the health findings are not published even if their data
    was fetched, and the battery is not run. *)
Theorem failure_before_battery :
  forall rt config net self e,
    (outcome (SecureKubeletPortHunter.get_pods_endpoint net self) = Raise e \/
     (exists data,
         outcome (SecureKubeletPortHunter.get_pods_endpoint net self) = Ok data /\
         outcome (SecureKubeletPortHunter.check_healthz_endpoint net self)
         = Raise e) \/
     (exists d hz,
         outcome (SecureKubeletPortHunter.get_pods_endpoint net self)
         = Ok (Some d) /\
         outcome (SecureKubeletPortHunter.check_healthz_endpoint net self)
         = Ok hz /\
         truthy d = true /\
         (items <- getitem d (u "items") ;; py_len items)%result = Raise e)) ->
    yielded (SecureKubeletPortHunter.execute rt config net self)
    = (if anonymous_auth (SecureKubeletPortHunter.event self)
       then [Vuln AnonymousAuthEnabled] else []) /\
    outcome (SecureKubeletPortHunter.execute rt config net self) = Raise e /\
    Forall (fun r => r = secure_pods_request self \/
                     r = SecureKubeletPortHunter.healthz_request self)
      (requests (SecureKubeletPortHunter.execute rt config net self)).
Proof.
  intros rt config net self e H.
  destruct (sec_pods_stage net self) as [Rp Yp].
  assert (S : exists r,
             SecureKubeletPortHunter.execute rt config net self
             = mkRun r
                 (if anonymous_auth (SecureKubeletPortHunter.event self)
                  then [Vuln AnonymousAuthEnabled] else [])
                 (Raise e) /\
             Forall (fun r => r = secure_pods_request self \/
                      r = SecureKubeletPortHunter.healthz_request self) r).
  { unfold SecureKubeletPortHunter.execute.
    assert (A : when (anonymous_auth (SecureKubeletPortHunter.event self))
                  (yield (Vuln AnonymousAuthEnabled))
                = mkRun []
                    (if anonymous_auth (SecureKubeletPortHunter.event self)
                     then [Vuln AnonymousAuthEnabled] else [])
                    (Ok tt)).
    { destruct (anonymous_auth (SecureKubeletPortHunter.event self));
        reflexivity. }
    rewrite A, bind_mk_Ok. cbn [app].
    destruct H as [Hp | [(data & Hp & Hh) | (d & hz & Hp & Hh & T & Hi)]].
    - rewrite (bind_Raise _ _ Hp), Rp, Yp. cbn [requests yielded outcome].
      rewrite app_nil_r. eexists. split; [reflexivity|].
      repeat constructor.
    - rewrite (bind_Ok _ _ Hp), Rp, Yp. cbn [requests yielded outcome app].
      cbv zeta.
      change (SecureKubeletPortHunter.check_healthz_endpoint net
                (SecureKubeletPortHunter.set_pods_endpoint_data self data))
        with (SecureKubeletPortHunter.check_healthz_endpoint net self).
      destruct (sec_healthz_stage net self) as [Rh Yh].
      rewrite (bind_Raise _ _ Hh), Rh, Yh. cbn [requests yielded outcome].
      rewrite app_nil_r. eexists. split; [reflexivity|].
      constructor; [left; reflexivity|].
      constructor; [right; reflexivity | constructor].
    - rewrite (bind_Ok _ _ Hp), Rp, Yp. cbn [requests yielded outcome app].
      cbv zeta.
      change (SecureKubeletPortHunter.check_healthz_endpoint net
                (SecureKubeletPortHunter.set_pods_endpoint_data self (Some d)))
        with (SecureKubeletPortHunter.check_healthz_endpoint net self).
      destruct (sec_healthz_stage net self) as [Rh Yh].
      rewrite (bind_Ok _ _ Hh), Rh, Yh. cbn [requests yielded outcome app].
      cbn [SecureKubeletPortHunter.pods_endpoint_data
           SecureKubeletPortHunter.set_pods_endpoint_data].
      rewrite T. unfold when, ExposedPodsHandler.
      destruct (getitem d (u "items")) as [items|e0]; cbn [rbind] in Hi.
      + rewrite bind_lift_Ok, Hi. cbn [rbind]. rewrite bind_lift_Raise.
        unfold raise. rewrite bind_mk_Raise. cbn [requests yielded outcome].
        rewrite app_nil_r. eexists. split; [reflexivity|].
        constructor; [left; reflexivity|].
        constructor; [right; reflexivity | constructor].
      + injection Hi as ->. rewrite bind_lift_Raise.
        unfold raise. rewrite bind_mk_Raise. cbn [requests yielded outcome].
        rewrite app_nil_r. eexists. split; [reflexivity|].
        constructor; [left; reflexivity|].
        constructor; [right; reflexivity | constructor]. }
  destruct S as (r & -> & F). cbn [requests yielded outcome]. auto.
Qed.

(** The agent that cannot be reached. *)
Lemma failure_before_battery_witness :
  yielded (SecureKubeletPortHunter.execute example_runtime self_test
             net_unreachable example_hunter)
  = [Vuln AnonymousAuthEnabled] /\
  outcome (SecureKubeletPortHunter.execute example_runtime self_test
             net_unreachable example_hunter) = Raise TransportError /\
  Forall (fun r => r = secure_pods_request example_hunter \/
                   r = SecureKubeletPortHunter.healthz_request example_hunter)
    (requests (SecureKubeletPortHunter.execute example_runtime self_test
                 net_unreachable example_hunter)).
Proof.
  apply (@failure_before_battery example_runtime self_test net_unreachable
           example_hunter TransportError).
  left. reflexivity.
Defined.

(* ================================================================== *)
(** ** The audit-log proof, for every title *)
(* ================================================================== *)

Lemma encode_utf8_nonempty t : t <> [] -> encode_utf8 t <> [].
Proof.
  destruct t as [|c t]; [intros H; contradiction|]. intros _.
  change (encode_utf8 (c :: t)) with (utf8_of c ++ encode_utf8 t).
  unfold utf8_of.
  destruct (c <? 128)%N; [discriminate|].
  destruct (c <? 2048)%N; [discriminate|].
  destruct (c <? 65536)%N; discriminate.
Qed.

Lemma encoded_well_formed a : encoded_record a -> well_formed_record a.
Proof.
  intros (Hpre & Hne & Hsc & Hb). unfold well_formed_record.
  rewrite Hb. repeat split.
  - exact Hpre.
  - apply encode_utf8_nonempty, Hne.
  - apply encode_utf8_bytes, Hsc.
  - apply decode_utf8_encode, Hsc.
Qed.

Lemma decode_each_all found :
  forall titles acc,
    all_decode found titles ->
    ProveSystemLogs.decode_each found acc = Ok (acc ++ titles).
Proof.
  induction found as [|h found IH]; intros titles acc H; inversion H; subst.
  - cbn [ProveSystemLogs.decode_each]. rewrite app_nil_r. reflexivity.
  - cbn [ProveSystemLogs.decode_each].
    match goal with E : ProveSystemLogs.decode_proctitle h = Ok _ |- _ =>
      rewrite E end.
    cbn [rbind].
    match goal with F : Forall2 _ found _ |- _ => rewrite (IH _ _ F) end.
    rewrite <- app_assoc. reflexivity.
Qed.

Lemma decode_each_first_failure before :
  forall h after e acc,
    Forall (fun x => exists t, ProveSystemLogs.decode_proctitle x = Ok t)
      before ->
    ProveSystemLogs.decode_proctitle h = Raise e ->
    ProveSystemLogs.decode_each (before ++ h :: after) acc = Raise e.
Proof.
  induction before as [|x before IH]; intros h after e acc Hb Hh.
  - cbn [app ProveSystemLogs.decode_each]. rewrite Hh. reflexivity.
  - inversion Hb as [|? ? [t Ht] Hb']; subst.
    cbn [app ProveSystemLogs.decode_each]. rewrite Ht. cbn [rbind].
    exact (IH _ _ _ _ Hb' Hh).
Qed.

Lemma audit_run rt net self r :
  net (audit_log_request self) = Ok r ->
  ProveSystemLogs.execute rt net self
  = mkRun [audit_log_request self] []
          (match ProveSystemLogs.decode_each
                   (findall_proctitle rt (text r)) [] with
           | Ok titles => Ok (with_titles rt (ProveSystemLogs.event self) titles)
           | Raise e => Raise e
           end).
Proof.
  intros Hnet. unfold ProveSystemLogs.execute.
  rewrite audit_request_Ok, bind_lift_Ok.
  unfold requests_get. rewrite Hnet, bind_mk_Ok. cbv zeta.
  destruct (ProveSystemLogs.decode_each (findall_proctitle rt (text r)) [])
    as [titles|e];
    [rewrite bind_lift_Ok | rewrite bind_lift_Raise]; reflexivity.
Qed.

(** C9, as stated, fails: [FF] is a hexadecimal field that the pattern
    matches, yet it is not decoded; the hunter raises on it, and the
    title of [/bin/sh -c] that it had decoded before is attached neither
    as [proctitles] nor as evidence. *)
Lemma invalid_utf8_title_attaches_nothing :
  findall_proctitle example_runtime
    (audit_text [example_audit_record] (u "proctitle=FF"))
  = [u "2F62696E2F7368002D63"; u "FF"] /\
  ProveSystemLogs.decode_proctitle (u "2F62696E2F7368002D63")
  = Ok (u "/bin/sh -c") /\
  ProveSystemLogs.decode_proctitle (u "FF") = Raise UnicodeDecodeError /\
  ProveSystemLogs.execute example_runtime net_invalid_utf8_audit example_prover
  = mkRun [audit_log_request example_prover] [] (Raise UnicodeDecodeError).
Proof. repeat split; vm_compute; reflexivity. Qed.

(** C9, amended.  The hunter takes the fields that the pattern matches
    in the fetched text, in their order, and decodes each: hexadecimal
    digits to bytes, the bytes as UTF-8 text, every null character
    replaced by a space; the field [2F62696E2F7368002D63] decodes to
    [/bin/sh -c].  When every matched field decodes, the run returns the
    event with the list of decoded titles as its [proctitles] and,
    rendered after [audit log: ], as its evidence.  This is the case of
    every log whose records carry the hexadecimal form of the UTF-8
    bytes of their titles, whatever Unicode text the titles are: the
    titles attached are these texts with a space for every null.  When
    a matched field does not decode, as [FF], whose byte is no UTF-8
    text, or a field with an odd number of digits, the run raises the
    exception of the first such field after its single request and
    returns no event: nothing is attached. *)
Theorem audit_log_proctitles_decoded :
  ProveSystemLogs.decode_proctitle (u "2F62696E2F7368002D63")
  = Ok (u "/bin/sh -c") /\
  ProveSystemLogs.decode_proctitle (u "FF") = Raise UnicodeDecodeError /\
  ProveSystemLogs.decode_proctitle (u "2F6") = Raise ValueError /\
  (forall rt net self r titles,
      net (audit_log_request self) = Ok r ->
      all_decode (findall_proctitle rt (text r)) titles ->
      ProveSystemLogs.execute rt net self
      = mkRun [audit_log_request self] []
              (Ok (with_titles rt (ProveSystemLogs.event self) titles))) /\
  (forall rt net self r recs trailer,
      net (audit_log_request self) = Ok r ->
      text r = audit_text recs trailer ->
      Forall encoded_record recs ->
      contains proctitle_key trailer = false ->
      let titles := map (fun a => nulls_to_spaces (ar_text a)) recs in
      exists ev,
        outcome (ProveSystemLogs.execute rt net self) = Ok ev /\
        ProveSystemLogs.proctitles ev = Some titles /\
        evidence (ProveSystemLogs.vulnerability ev)
        = Some (u "audit log: " ++ py_repr rt (JArr (map JStr titles)))) /\
  (forall rt net self r before h after e,
      net (audit_log_request self) = Ok r ->
      findall_proctitle rt (text r) = before ++ h :: after ->
      Forall (fun x => exists t, ProveSystemLogs.decode_proctitle x = Ok t)
        before ->
      ProveSystemLogs.decode_proctitle h = Raise e ->
      ProveSystemLogs.execute rt net self
      = mkRun [audit_log_request self] [] (Raise e)).
Proof.
  split; [reflexivity|]. split; [reflexivity|]. split; [reflexivity|].
  split; [|split].
  - intros rt net self r titles Hnet Hall.
    rewrite (@audit_run rt net self r Hnet).
    rewrite (@decode_each_all _ titles [] Hall). reflexivity.
  - intros rt net self r recs trailer Hnet Htext Hrecs Htr titles.
    assert (Hwf : Forall well_formed_record recs).
    { apply (Forall_impl _ encoded_well_formed Hrecs). }
    rewrite (@audit_run rt net self r Hnet).
    rewrite Htext, (@findall_audit_text rt recs trailer Hwf Htr).
    rewrite (@decode_each_audit recs [] Hwf). cbn [app outcome].
    eexists. split; [reflexivity|]. split; reflexivity.
  - intros rt net self r before h after e Hnet Hfound Hb Hh.
    rewrite (@audit_run rt net self r Hnet), Hfound.
    rewrite (@decode_each_first_failure before h after e [] Hb Hh).
    reflexivity.
Qed.

(** A log of two records, the second with a title that is not ASCII:
    both titles are attached, the accented letter, the euro sign and the
    emoji as they were, the null as a space. *)
Lemma audit_log_proctitles_decoded_witness :
  exists ev,
    outcome (ProveSystemLogs.execute example_runtime net_unicode_audit
               example_prover) = Ok ev /\
    ProveSystemLogs.proctitles ev
    = Some [u "/bin/sh -c";
            u "/bin/caf" ++ [233; 32; 8364; 53; 32; 128512]%N] /\
    evidence (ProveSystemLogs.vulnerability ev)
    = Some (u "audit log: "
              ++ py_repr example_runtime
                   (JArr [JStr (u "/bin/sh -c");
                          JStr (u "/bin/caf"
                                  ++ [233; 32; 8364; 53; 32; 128512]%N)])).
Proof.
  apply (proj1 (proj2 (proj2 (proj2 (proj2 audit_log_proctitles_decoded))))
           example_runtime net_unicode_audit example_prover
           (mkResponse 200
              (audit_text [example_audit_record; unicode_audit_record] [])
              (Raise JSONDecodeError))
           [example_audit_record; unicode_audit_record] []).
  - reflexivity.
  - reflexivity.
  - repeat constructor; try discriminate; try (vm_compute; reflexivity).
  - reflexivity.
Defined.
